(** * OCT-Converter: the Heidelberg [.e2e] reader ([oct_converter/readers/e2e.py])

    A shallow embedding of class [E2E]: the bespoke 16-bit float decoders
    [uint16_to_ufloat16] and [read_custom_float], the directory walk, the
    sub-directory scan, the chunk loops of [read_oct_volume] and
    [read_fundus_image], and the assembly of the returned volumes.

    Conventions.
    - A file is a [list byte]; the handle [f] is a position in it.
    - Python exceptions are values of [exn]; a computation that may raise
      has type [result A].
    - A Python [dict] is an insertion-ordered association list ([dict K V]).
    - The floats of the program that are exact dyadic rationals (the LUT
      entries, [slice_id / 2]) are rationals of [Q].
    - [np.fromfile] and [f.read] obtain a buffer of the size they are asked
      for before they read.  Whether the machine gives a buffer larger
      than what is left of the file is a parameter of the readers. *)

From Stdlib Require Import ZArith NArith QArith Qround Qpower Lia List Ascii String.
From Stdlib Require Import Strings.Byte.
From stdpp Require Import base tactics option list strings pretty.
Import ListNotations.

Local Open Scope Z_scope.

(** ** Exceptions and results *)

Inductive exn : Type :=
  | ValueError        (* int(s, 2) on a malformed string, np.frombuffer *)
  | IndexError        (* list index out of range *)
  | AttributeError    (* reading an attribute that was never assigned *)
  | StreamError       (* construct: not enough bytes for a field *)
  | StringError       (* construct: PaddedString bytes that are not ASCII *)
  | OverflowError     (* datetime + timedelta out of range; a size of 2^63 or more *)
  | MemoryError       (* a buffer that the machine does not give *)
  | KeyError          (* dict lookup of an absent key *)
  | OutOfFuel.        (* marker of the model: the loop was cut off *)

Inductive result (A : Type) : Type :=
  | Ok (a : A)
  | Raise (e : exn).
Arguments Ok {A} a.
Arguments Raise {A} e.

#[global] Instance result_ret : MRet result := fun A a => Ok a.
#[global] Instance result_bind : MBind result := fun A B k r =>
  match r with
  | Ok a => k a
  | Raise e => Raise e
  end.
#[global] Instance result_fmap : FMap result := fun A B f r =>
  match r with
  | Ok a => Ok (f a)
  | Raise e => Raise e
  end.

(** [try: r except Exception: h] *)
Definition try_except {A} (r : result A) (h : A) : A :=
  match r with
  | Ok a => a
  | Raise _ => h
  end.

(** ** Bit strings

    Python strings of binary digits are lists of characters, so that the
    slices [s[:10]], [s[10:]] and the reversal [s[::-1]] are [take],
    [drop] and [rev]. *)

Definition bitstring := list ascii.

Definition digit (b : bool) : ascii := if b then "1"%char else "0"%char.

(** Binary digits of a positive number, most significant first. *)
Fixpoint pos_digits (p : positive) : bitstring :=
  match p with
  | xH => ["1"%char]
  | xO p' => pos_digits p' ++ ["0"%char]
  | xI p' => pos_digits p' ++ ["1"%char]
  end.

(** [bin(n)[2:]] and the digits of ["{0:b}".format(n)], for [n >= 0]. *)
Definition bin_digits (n : N) : bitstring :=
  match n with
  | N0 => ["0"%char]
  | Npos p => pos_digits p
  end.

(** [s.zfill(w)] on a string of digits: pad with zeros on the left up to
    width [w]; a string already that long is unchanged. *)
Definition zfill (w : nat) (s : bitstring) : bitstring :=
  repeat "0"%char (w - length s) ++ s.

(** ["{0:016b}".format(n)] *)
Definition format_016b (n : N) : bitstring := zfill 16 (bin_digits n).

(** [int(s, 2)] on a string of the characters 0 and 1.  The empty string
    and any other character raise [ValueError] (Python also accepts a
    sign, blanks, underscores and a [0b] prefix, none of which occurs in
    the strings built here). *)
Fixpoint int_2_acc (acc : Z) (s : bitstring) : result Z :=
  match s with
  | [] => Ok acc
  | c :: s' =>
      if Ascii.eqb c "0" then int_2_acc (2 * acc) s'
      else if Ascii.eqb c "1" then int_2_acc (2 * acc + 1) s'
      else Raise ValueError
  end.

Definition int_2 (s : bitstring) : result Z :=
  match s with
  | [] => Raise ValueError
  | _ => int_2_acc 0 s
  end.

(** ** The bespoke float: no sign, 6-bit exponent, 10-bit mantissa *)

(** [self.power = pow(2, 10)] *)
Definition power : Z := 2 ^ 10.

(** [mantissa_sum * 2 ** exponent_sum].  [int / int] is Python's true
    division; with a mantissa below [2^10] and an exponent in [-63, 0]
    every intermediate value is a dyadic rational that binary64 holds
    exactly (see [decimal_value_dyadic]), so the float operations of the
    source are the rational ones. *)
Definition decimal_value (mantissa exponent : Z) : Q :=
  let mantissa_sum := (1 + inject_Z mantissa / inject_Z power)%Q in
  let exponent_sum := exponent - 63 in
  (mantissa_sum * Qpower 2 exponent_sum)%Q.

Definition byte_value (b : byte) : N := Byte.to_N b.

(** [bytes[i]] *)
Definition getitem {A} (l : list A) (i : nat) : result A :=
  match l !! i with
  | Some a => Ok a
  | None => Raise IndexError
  end.

(** [E2E.read_custom_float]: the decoder on the two raw bytes. *)
Definition read_custom_float (bytes : list byte) : result Q :=
  b0 ← getitem bytes 0;
  b1 ← getitem bytes 1;
  let bits := rev (zfill 8 (bin_digits (byte_value b0)))
              ++ rev (zfill 8 (bin_digits (byte_value b1))) in
  let mantissa := take 10 bits in
  let exponent := drop 10 bits in
  m ← int_2 mantissa;
  e ← int_2 (rev exponent);
  Ok (decimal_value m e).

(** [E2E.uint16_to_ufloat16]: the decoder on the 16-bit integer, used to
    build the lookup table. *)
Definition uint16_to_ufloat16 (uint16 : N) : result Q :=
  let bits := rev (format_016b uint16) in
  let mantissa := take 10 bits in
  let exponent := drop 10 bits in
  let exponent := rev exponent in
  m ← int_2 mantissa;
  e ← int_2 exponent;
  Ok (decimal_value m e).

(** *** The decode as the specification words it

    "Take the 16-bit little-endian value; reverse the bit order within
    each of the two bytes independently (bit 0 of byte 0 first, ..., bit 7
    of byte 0, then byte 1 likewise).  The first 10 bits of the reversed
    stream form the mantissa integer M; the remaining 6 bits, reversed a
    second time, form the exponent integer E.  The value is
    (1 + M / 2^10) * 2^(E - 63)." *)

(** Value of a sequence of bits, most significant first. *)
Definition bits_value (bs : list bool) : Z :=
  fold_left (fun acc (b : bool) => 2 * acc + (if b then 1 else 0)) bs 0.

(** The [w] low bits of [n], bit 0 first. *)
Definition lsb_bits (w : nat) (n : N) : list bool :=
  map (fun i => N.testbit n (N.of_nat i)) (seq 0 w).

(** The bits of one byte in reversed order: bit 0 first. *)
Definition byte_reversed (b : N) : list bool := lsb_bits 8 b.

Definition spec_reversed_stream (u : N) : list bool :=
  let byte0 := (u mod 256)%N in
  let byte1 := (u / 256)%N in
  byte_reversed byte0 ++ byte_reversed byte1.

Definition spec_mantissa (u : N) : Z :=
  bits_value (take 10 (spec_reversed_stream u)).

Definition spec_exponent (u : N) : Z :=
  bits_value (rev (drop 10 (spec_reversed_stream u))).

Definition spec_ufloat16 (u : N) : Q :=
  ((1 + inject_Z (spec_mantissa u) / inject_Z (2 ^ 10))
   * Qpower 2 (spec_exponent u - 63))%Q.


(** ** Files and fixed-layout records

    A file is its list of bytes.  The handle of [open(self.filepath, "rb")]
    is a position: [f.seek(p)] sets it, [f.read(n)] returns the at most
    [n] bytes that follow it and moves it past them. *)

Definition bytes := list byte.

Definition f_seek (p : Z) : nat := Z.to_nat p.

Definition f_read (data : bytes) (pos : nat) (n : nat) : bytes * nat :=
  let raw := take n (drop pos data) in
  (raw, (pos + length raw)%nat).

(** *** The [construct] fields used by the record layouts

    A field consumes bytes from the front of the buffer and raises
    [StreamError] when the buffer is too short.  The integer fields with
    suffix [n] have the byte order of the host, which is little-endian
    here, as the format is. *)

Definition parser (A : Type) : Type := bytes -> result (A * bytes).

#[global] Instance parser_ret : MRet parser := fun A a s => Ok (a, s).
#[global] Instance parser_bind : MBind parser := fun A B k p s =>
  match p s with
  | Ok (a, s') => k a s'
  | Raise e => Raise e
  end.

Definition take_bytes (n : nat) : parser bytes := fun s =>
  if decide (n <= length s)%nat then Ok (take n s, drop n s)
  else Raise StreamError.

(** Little-endian value of a byte sequence. *)
Fixpoint le_value (bs : bytes) : Z :=
  match bs with
  | [] => 0
  | b :: bs' => Z.of_N (byte_value b) + 256 * le_value bs'
  end.

Definition Int8un : parser Z := raw ← take_bytes 1; mret (le_value raw).
Definition Int16un : parser Z := raw ← take_bytes 2; mret (le_value raw).
Definition Int32un : parser Z := raw ← take_bytes 4; mret (le_value raw).
Definition Int64un : parser Z := raw ← take_bytes 8; mret (le_value raw).

(** Two's complement on 32 bits. *)
Definition Int32sn : parser Z :=
  v ← Int32un;
  mret (if decide (v < 2 ^ 31) then v else v - 2 ^ 32).

(** [Float32l]: the binary32 word is kept as it is read; no property of
    the reader depends on the value of such a field. *)
Definition Float32l : parser Z := raw ← take_bytes 4; mret (le_value raw).

Fixpoint Array {A} (count : nat) (p : parser A) : parser (list A) :=
  match count with
  | O => mret []
  | S count' => x ← p; xs ← Array count' p; mret (x :: xs)
  end.

(** Removal of the trailing NUL bytes. *)
Fixpoint null_stripped (raw : bytes) : bytes :=
  match raw with
  | [] => []
  | b :: raw' =>
      match null_stripped raw' with
      | [] => if Byte.eqb b x00 then [] else [b]
      | rest => b :: rest
      end
  end.

(** [PaddedString(length, "ascii")]: [length] bytes, stripped of trailing
    NULs and decoded as ASCII; a byte above 127 makes the decoding fail. *)
Definition PaddedString (length : nat) : parser string := fun s =>
  match take_bytes length s with
  | Raise e => Raise e
  | Ok (raw, s') =>
      let stripped := null_stripped raw in
      if forallb (fun b => (byte_value b <? 128)%N) stripped
      then Ok (string_of_list_byte stripped, s')
      else Raise StringError
  end.

(** [structure.parse(raw)]: bytes after the last field are ignored. *)
Definition parse {A} (structure : parser A) (raw : bytes) : result A :=
  match structure raw with
  | Ok (a, _) => Ok a
  | Raise e => Raise e
  end.

(** *** The record layouts of [E2E.__init__]

    Each layout reads all its fields in order; the records keep the named
    fields and drop the ones called [unknown]. *)

Module Header.
Record t := { magic1 : string; version : Z }.
End Header.

Definition header_structure : parser Header.t :=
  magic1 ← PaddedString 12;
  version ← Int32un;
  unknown ← Array 10 Int16un;
  mret {| Header.magic1 := magic1; Header.version := version |}.

Module MainDirectory.
Record t := {
  magic2 : string; version : Z;
  num_entries : Z; current : Z; prev : Z }.
End MainDirectory.

Definition main_directory_structure : parser MainDirectory.t :=
  magic2 ← PaddedString 12;
  version ← Int32un;
  unknown ← Array 10 Int16un;
  num_entries ← Int32un;
  current ← Int32un;
  prev ← Int32un;
  unknown3 ← Int32un;
  mret {| MainDirectory.magic2 := magic2; MainDirectory.version := version;
          MainDirectory.num_entries := num_entries;
          MainDirectory.current := current; MainDirectory.prev := prev |}.

Module SubDirectory.
Record t := {
  pos : Z; start : Z; size : Z;
  patient_id : Z; study_id : Z; series_id : Z; slice_id : Z;
  type : Z }.
End SubDirectory.

Definition sub_directory_structure : parser SubDirectory.t :=
  pos ← Int32un;
  start ← Int32un;
  size ← Int32un;
  unknown ← Int32un;
  patient_id ← Int32un;
  study_id ← Int32un;
  series_id ← Int32un;
  slice_id ← Int32sn;
  unknown2 ← Int16un;
  unknown3 ← Int16un;
  type ← Int32un;
  unknown4 ← Int32un;
  mret {| SubDirectory.pos := pos; SubDirectory.start := start;
          SubDirectory.size := size; SubDirectory.patient_id := patient_id;
          SubDirectory.study_id := study_id;
          SubDirectory.series_id := series_id;
          SubDirectory.slice_id := slice_id; SubDirectory.type := type |}.

Module Chunk.
Record t := {
  magic3 : string; pos : Z; size : Z;
  patient_id : Z; study_id : Z; series_id : Z; slice_id : Z;
  ind : Z; type : Z }.
End Chunk.

Definition chunk_structure : parser Chunk.t :=
  magic3 ← PaddedString 12;
  unknown ← Int32un;
  unknown2 ← Int32un;
  pos ← Int32un;
  size ← Int32un;
  unknown3 ← Int32un;
  patient_id ← Int32un;
  study_id ← Int32un;
  series_id ← Int32un;
  slice_id ← Int32sn;
  ind ← Int16un;
  unknown4 ← Int16un;
  type ← Int32un;
  unknown5 ← Int32un;
  mret {| Chunk.magic3 := magic3; Chunk.pos := pos; Chunk.size := size;
          Chunk.patient_id := patient_id; Chunk.study_id := study_id;
          Chunk.series_id := series_id; Chunk.slice_id := slice_id;
          Chunk.ind := ind; Chunk.type := type |}.

Module Image.
Record t := { size : Z; type : Z; width : Z; height : Z }.
End Image.

Definition image_structure : parser Image.t :=
  size ← Int32un;
  type ← Int32un;
  unknown ← Int32un;
  width ← Int32un;
  height ← Int32un;
  mret {| Image.size := size; Image.type := type;
          Image.width := width; Image.height := height |}.

Module Patient.
Record t := {
  first_name : string; surname : string; birthdate : Z;
  sex : string; patient_id : string }.
End Patient.

Definition patient_id_structure : parser Patient.t :=
  first_name ← PaddedString 31;
  surname ← PaddedString 66;
  birthdate ← Int32un;
  sex ← PaddedString 1;
  patient_id ← PaddedString 25;
  mret {| Patient.first_name := first_name; Patient.surname := surname;
          Patient.birthdate := birthdate; Patient.sex := sex;
          Patient.patient_id := patient_id |}.

Module Lat.
Record t := { laterality : Z }.
End Lat.

Definition lat_structure : parser Lat.t :=
  unknown ← Array 14 Int8un;
  laterality ← Int8un;
  unknown2 ← Int8un;
  mret {| Lat.laterality := laterality |}.

Module Contour.
Record t := { id : Z; width : Z }.
End Contour.

Definition contour_structure : parser Contour.t :=
  unknown0 ← Int32un;
  id ← Int32un;
  unknown1 ← Int32un;
  width ← Int32un;
  mret {| Contour.id := id; Contour.width := width |}.

Module BScan.
Record t := {
  imgSizeX : Z; imgSizeY : Z; imgSizeWidth : Z; numImages : Z;
  aktImage : Z; scanType : Z; acquisitionTime : Z; numAve : Z }.
End BScan.

Definition bscan_metadata : parser BScan.t :=
  unknown1 ← Int32un;
  imgSizeX ← Int32un;
  imgSizeY ← Int32un;
  posX1 ← Float32l;
  posX2 ← Float32l;
  posY1 ← Float32l;
  posY2 ← Float32l;
  zero1 ← Int32un;
  unknown2 ← Float32l;
  scaley ← Float32l;
  unknown3 ← Float32l;
  zero2 ← Int32un;
  unknown4 ← Array 2 Float32l;
  zero3 ← Int32un;
  imgSizeWidth ← Int32un;
  numImages ← Int32un;
  aktImage ← Int32un;
  scanType ← Int32un;
  centrePosX ← Float32l;
  centrePosY ← Float32l;
  unknown5 ← Int32un;
  acquisitionTime ← Int64un;
  numAve ← Int32un;
  imgQuality ← Float32l;
  mret {| BScan.imgSizeX := imgSizeX; BScan.imgSizeY := imgSizeY;
          BScan.imgSizeWidth := imgSizeWidth; BScan.numImages := numImages;
          BScan.aktImage := aktImage; BScan.scanType := scanType;
          BScan.acquisitionTime := acquisitionTime; BScan.numAve := numAve |}.

(** ** Python values *)

(** *** Dictionaries

    A [dict] keeps its keys in insertion order, and the order in which
    [items()] yields them decides the order of the returned volumes and
    which of two writes to one slot comes last.  [d[k] = v] replaces the
    value of a present key in place and appends an absent key. *)

Definition dict (K V : Type) : Type := list (K * V).

Section Dict.
Context {K V : Type} `{EqDecision K}.

Fixpoint dict_get (k : K) (d : dict K V) : option V :=
  match d with
  | [] => None
  | (k', v) :: d' => if decide (k = k') then Some v else dict_get k d'
  end.

(** [k in d] *)
Definition dict_mem (k : K) (d : dict K V) : bool :=
  match dict_get k d with
  | Some _ => true
  | None => false
  end.

(** [d[k] = v] *)
Fixpoint dict_set (k : K) (v : V) (d : dict K V) : dict K V :=
  match d with
  | [] => [(k, v)]
  | (k', v') :: d' =>
      if decide (k = k') then (k, v) :: d' else (k', v') :: dict_set k v d'
  end.

(** [d.keys()] *)
Definition dict_keys (d : dict K V) : list K := map fst d.

(** [d[k]] of a [defaultdict] whose factory returns [dflt] *)
Definition dict_get_default (dflt : V) (k : K) (d : dict K V) : V :=
  match dict_get k d with
  | Some v => v
  | None => dflt
  end.
End Dict.

(** *** Lists

    [l[i] = x]: an index from [-len(l)] to [len(l) - 1]; a negative one
    counts from the end, any other raises [IndexError]. *)
Definition setitem {A} (l : list A) (i : Z) (x : A) : result (list A) :=
  let n := Z.of_nat (length l) in
  if decide (0 <= i < n) then Ok (<[Z.to_nat i := x]> l)
  else if decide (- n <= i < 0) then Ok (<[Z.to_nat (n + i) := x]> l)
  else Raise IndexError.

(** The position [l[i]] denotes in a list of length [n]. *)
Definition norm_index (n : nat) (i : Z) : nat :=
  Z.to_nat (if decide (0 <= i) then i else Z.of_nat n + i).

(** [i] is an index of a list of length [n]. *)
Definition valid_index (n : nat) (i : Z) : Prop :=
  - Z.of_nat n <= i < Z.of_nat n.

(** *** Numbers

    [slice_id / 2] is Python's true division of an integer: a float, and
    exact, since [slice_id] has 32 bits. *)
Definition half (slice_id : Z) : Q := (inject_Z slice_id / 2)%Q.

(** [int(x)] on a float: truncation towards zero. *)
Definition py_int (x : Q) : Z := Z.quot (Qnum x) (Zpos (Qden x)).

(** [x > y] on floats *)
Definition Qgtb (x y : Q) : bool := if Qlt_le_dec y x then true else false.

(** ["{}_{}_{}".format(patient_id, study_id, series_id)] *)
Definition volume_string_of (patient_id study_id series_id : Z) : string :=
  pretty patient_id +:+ "_" +:+ pretty study_id +:+ "_" +:+ pretty series_id.

(** *** Attributes of the reader object

    [__init__] assigns [None] to [sex], [first_name], [surname] and
    [acquisition_date]; [birthdate] and [patient_id] are assigned only
    when a patient chunk is decoded, and reading an attribute that was
    never assigned raises [AttributeError]. *)

Inductive attr (A : Type) : Type :=
  | Unset
  | Attr (a : A).
Arguments Unset {A}.
Arguments Attr {A} a.

Definition getattr {A} (a : attr A) : result A :=
  match a with
  | Attr v => Ok v
  | Unset => Raise AttributeError
  end.

Module E2E.
Record t {date : Type} := {
  sex : option string;
  first_name : option string;
  surname : option string;
  acquisition_date : option date;
  birthdate : attr Q;
  patient_id : attr string }.
Arguments t : clear implicits.

(** The attributes after [E2E.__init__] (on a path that exists). *)
Definition init {date : Type} : t date :=
  {| sex := None; first_name := None; surname := None;
     acquisition_date := None; birthdate := Unset; patient_id := Unset |}.
End E2E.

(** *** Images, slices and contours *)

(** A two-dimensional array: its shape and its values in row-major order. *)
Record ndarray (A : Type) : Type := { shape : Z * Z; values : list A }.
Arguments shape {A} _.
Arguments values {A} _.

(** [a.reshape(d0, d1)] on a one-dimensional array *)
Definition reshape {A} (a : list A) (d0 d1 : Z) : result (ndarray A) :=
  if decide (Z.of_nat (length a) = d0 * d1)
  then Ok {| shape := (d0, d1); values := a |}
  else Raise ValueError.

(** An element of a volume's list: the integer [0] that
    [[0] * n] puts there, or a decoded image. *)
Inductive element : Type :=
  | PyInt (n : Z)
  | Slice (image : ndarray Q).

(** [isinstance(x, int)] *)
Definition isinstance_int (x : element) : bool :=
  match x with
  | PyInt _ => true
  | Slice _ => false
  end.

(** *** Raw arrays read from the file *)

(** Items of [dtype=np.uint16]; an odd last byte is not an item. *)
Fixpoint uint16_items (raw : bytes) : list Z :=
  match raw with
  | b0 :: b1 :: rest => le_value [b0; b1] :: uint16_items rest
  | _ => []
  end.

(** What a request for [size] bytes at position [pos] raises before
    anything is read, when the request is for [count] items:
    a [count] of [2^63] or more does not fit the C integer of the call
    ([OverflowError]); [np.fromfile] refuses an array of [2^63] bytes or
    more ([ValueError], [refused_size] is true); otherwise the buffer is
    allocated, and [allocates size] tells whether the machine gives it
    ([MemoryError] when it does not).  A request that the rest of the file
    covers is served: a file has fewer than [2^63] bytes, and the model
    takes it that a buffer no larger than the file is given. *)
Definition request_raises (allocates : Z -> bool) (data : bytes) (pos : nat)
    (count size : Z) (refused_size : bool) : option exn :=
  if decide (Z.to_nat size <= length data - pos)%nat then None
  else if decide (2 ^ 63 <= count) then Some OverflowError
  else if refused_size && bool_decide (2 ^ 63 <= size) then Some ValueError
  else if allocates size then None
  else Some MemoryError.

(** The items [np.fromfile(f, dtype=np.uint16, count=count)] returns
    when it returns: the [count] items that follow the position, or as
    many whole items as the file has. *)
Definition fromfile_uint16 (data : bytes) (pos : nat) (count : Z) : list Z :=
  uint16_items (f_read data pos (2 * Z.to_nat count)).1.

(** [np.fromfile(f, dtype=np.uint16, count=count)] *)
Definition np_fromfile_uint16 (allocates : Z -> bool) (data : bytes)
    (pos : nat) (count : Z) : result (list Z) :=
  match request_raises allocates data pos count (2 * count) true with
  | Some e => Raise e
  | None => Ok (fromfile_uint16 data pos count)
  end.

(** [f.read(n)] with a size [n] read from the file *)
Definition f_read_sized (allocates : Z -> bool) (data : bytes) (pos : nat)
    (n : Z) : result (bytes * nat) :=
  match request_raises allocates data pos n n false with
  | Some e => Raise e
  | None => Ok (f_read data pos (Z.to_nat n))
  end.

(** [np.frombuffer(raw, dtype=np.float32)]: raises [ValueError] unless
    the size of the buffer is a multiple of 4.  The items are the
    binary32 words. *)
Fixpoint frombuffer_float32 (raw : bytes) : result (list Z) :=
  match raw with
  | [] => Ok []
  | b0 :: b1 :: b2 :: b3 :: rest =>
      items ← frombuffer_float32 rest; Ok (le_value [b0; b1; b2; b3] :: items)
  | _ => Raise ValueError
  end.

(** [np.frombuffer(raw, dtype=np.uint8)] *)
Definition frombuffer_uint8 (raw : bytes) : list Z :=
  map (fun b => Z.of_N (byte_value b)) raw.

(** ** The lookup table *)

(** [range(start, start + n)] *)
Fixpoint range (start : N) (n : nat) : list N :=
  match n with
  | O => []
  | S n' => start :: range (N.succ start) n'
  end.

(** [_make_lut] *)
Definition _make_lut : result (list Q) :=
  mapM uint16_to_ufloat16 (range 0 (Z.to_nat (2 ^ 16))).

(** [LUT[raw_volume]]: one table entry for each item *)
Definition lut_index (LUT : list Q) (raw_volume : list Z) : result (list Q) :=
  mapM (fun i => getitem LUT (Z.to_nat i)) raw_volume.

(** ** The returned entities *)

(** Modelled from the spec: the class [OCTVolumeWithMetaData] of
    [oct_converter/image_types.py], which [e2e.py] imports, is not among
    the sources (the older [file_io/image_types.py] has a constructor
    with fewer arguments).  The constructor stores its arguments, and
    "[num_slices] is derived from the sequence length", as in the older
    class ([self.num_slices = len(self.volume)]). *)
Module OCTVolumeWithMetaData.
Record t {date sample : Type} := {
  volume : list element;
  patient_id : string;
  first_name : option string;
  surname : option string;
  sex : option string;
  acquisition_date : option date;
  volume_id : string;
  laterality : option string;
  contours : option (dict string (list (option (list sample))));
  num_slices : nat }.
Arguments t : clear implicits.

Definition make {date sample : Type} (volume : list element)
    (patient_id : string) (first_name surname sex : option string)
    (acquisition_date : option date) (volume_id : string)
    (laterality : option string)
    (contours : option (dict string (list (option (list sample)))))
  : t date sample :=
  {| volume := volume; patient_id := patient_id;
     first_name := first_name; surname := surname; sex := sex;
     acquisition_date := acquisition_date; volume_id := volume_id;
     laterality := laterality; contours := contours;
     num_slices := length volume |}.
End OCTVolumeWithMetaData.

(** Modelled from the spec: the class [FundusImageWithMetaData] of the
    same missing module; it stores "single 2-D grayscale 8-bit image,
    image_id string, patient_id, laterality (optional)". *)
Module FundusImageWithMetaData.
Record t := {
  image : ndarray Z;
  patient_id : string;
  image_id : string;
  laterality : option string }.
End FundusImageWithMetaData.

(** ** Control flow of a loop body *)

Inductive flow (S : Type) : Type :=
  | Continue (s : S)    (* the body ran to its end *)
  | Break (s : S).      (* the body executed [break] *)
Arguments Continue {S} s.
Arguments Break {S} s.

(** The state a loop body leaves. *)
Definition flow_state {S} (fl : flow S) : S :=
  match fl with
  | Continue s => s
  | Break s => s
  end.

(** [for x in xs: body], with a body that may [break] or raise *)
Fixpoint for_loop {X S} (body : S -> X -> result (flow S)) (s : S) (xs : list X)
  : result S :=
  match xs with
  | [] => Ok s
  | x :: xs' =>
      match body s x with
      | Raise e => Raise e
      | Ok (Break s') => Ok s'
      | Ok (Continue s') => for_loop body s' xs'
      end
  end.

(** [for x in xs: body], with a body that may raise *)
Fixpoint for_each {X S} (body : S -> X -> result S) (s : S) (xs : list X)
  : result S :=
  match xs with
  | [] => Ok s
  | x :: xs' => s' ← body s x; for_each body s' xs'
  end.

(** ** The directory walk and the sub-directory scan *)

(** First pass of [read_oct_volume] and [read_fundus_image]:
    [while current != 0], following the [prev] links.  Nothing bounds the
    number of iterations (the links of a file may form a cycle), so the
    model takes [fuel] and answers [OutOfFuel] when it is used up. *)
Fixpoint traverse (fuel : nat) (data : bytes) (directory_stack : list Z)
    (current : Z) : result (list Z) :=
  if decide (current = 0) then Ok directory_stack
  else
    match fuel with
    | O => Raise OutOfFuel
    | S fuel' =>
        let directory_stack := directory_stack ++ [current] in
        let '(raw, _) := f_read data (f_seek current) 52 in
        directory_chunk ← parse main_directory_structure raw;
        traverse fuel' data directory_stack (MainDirectory.prev directory_chunk)
    end.

(** The update of [volume_dict] for one sub-directory entry. *)
Definition update_volume_dict (volume_dict : dict string Q)
    (chunk : SubDirectory.t) : dict string Q :=
  let volume_string :=
    volume_string_of (SubDirectory.patient_id chunk)
      (SubDirectory.study_id chunk) (SubDirectory.series_id chunk) in
  match dict_get volume_string volume_dict with
  | None =>
      dict_set volume_string (half (SubDirectory.slice_id chunk)) volume_dict
  | Some v =>
      if Qgtb (half (SubDirectory.slice_id chunk)) v
      then dict_set volume_string (half (SubDirectory.slice_id chunk)) volume_dict
      else volume_dict
  end.

(** The update of [chunk_stack] for one sub-directory entry. *)
Definition update_chunk_stack (chunk_stack : list (Z * Z))
    (chunk : SubDirectory.t) : list (Z * Z) :=
  if decide (SubDirectory.start chunk > SubDirectory.pos chunk)
  then chunk_stack ++ [(SubDirectory.start chunk, SubDirectory.size chunk)]
  else chunk_stack.

(** The state of the second pass: the position of the handle, then
    [chunk_stack] and [volume_dict]. *)
Definition scan_state : Type := nat * list (Z * Z) * dict string Q.

(** One iteration of [for ii in range(directory_chunk.num_entries)]. *)
Definition scan_entry (data : bytes) (s : scan_state) : result scan_state :=
  let '(f, chunk_stack, volume_dict) := s in
  let '(raw, f) := f_read data f 44 in
  chunk ← parse sub_directory_structure raw;
  Ok (f, update_chunk_stack chunk_stack chunk,
      update_volume_dict volume_dict chunk).

Fixpoint scan_entries (num_entries : nat) (data : bytes) (s : scan_state)
  : result scan_state :=
  match num_entries with
  | O => Ok s
  | S n => s' ← scan_entry data s; scan_entries n data s'
  end.

(** One iteration of [for position in directory_stack]. *)
Definition scan_directory (data : bytes)
    (s : list (Z * Z) * dict string Q) (position : Z)
  : result (list (Z * Z) * dict string Q) :=
  let '(chunk_stack, volume_dict) := s in
  let '(raw, f) := f_read data (f_seek position) 52 in
  directory_chunk ← parse main_directory_structure raw;
  s' ← scan_entries (Z.to_nat (MainDirectory.num_entries directory_chunk))
         data (f, chunk_stack, volume_dict);
  Ok (s'.1.2, s'.2).

(** The second pass: [chunk_stack] and [volume_dict]. *)
Definition scan (data : bytes) (directory_stack : list Z)
  : result (list (Z * Z) * dict string Q) :=
  for_each (scan_directory data) ([], []) directory_stack.

(** The sub-directory entries the second pass reads, in order. *)
Fixpoint entries_at (num_entries : nat) (data : bytes) (f : nat)
  : result (list SubDirectory.t) :=
  match num_entries with
  | O => Ok []
  | S n =>
      let '(raw, f) := f_read data f 44 in
      chunk ← parse sub_directory_structure raw;
      rest ← entries_at n data f;
      Ok (chunk :: rest)
  end.

Fixpoint scanned_entries (data : bytes) (directory_stack : list Z)
  : result (list SubDirectory.t) :=
  match directory_stack with
  | [] => Ok []
  | position :: rest =>
      let '(raw, f) := f_read data (f_seek position) 52 in
      directory_chunk ← parse main_directory_structure raw;
      here ← entries_at
                (Z.to_nat (MainDirectory.num_entries directory_chunk)) data f;
      others ← scanned_entries data rest;
      Ok (here ++ others)
  end.

(** The key of a sub-directory entry. *)
Definition entry_volume_string (chunk : SubDirectory.t) : string :=
  volume_string_of (SubDirectory.patient_id chunk)
    (SubDirectory.study_id chunk) (SubDirectory.series_id chunk).

(** The value [volume_dict] holds for [key] after the entries [es], when
    it held [cur] before them. *)
Fixpoint running_max (key : string) (es : list SubDirectory.t)
    (cur : option Q) : option Q :=
  match es with
  | [] => cur
  | e :: es' =>
      if decide (entry_volume_string e = key) then
        match cur with
        | None => running_max key es' (Some (half (SubDirectory.slice_id e)))
        | Some v =>
            if Qgtb (half (SubDirectory.slice_id e)) v
            then running_max key es' (Some (half (SubDirectory.slice_id e)))
            else running_max key es' cur
        end
      else running_max key es' cur
  end.

(** The body of [for volume, num_slices in volume_dict.items()]
    (lines 208-211). *)
Definition init_step (volume_array_dict : dict string (list element))
    (item : string * Q) : dict string (list element) :=
  let '(volume, num_slices) := item in
  if Qgtb num_slices 0
  then dict_set volume (repeat (PyInt 0) (Z.to_nat (py_int (num_slices + 1))))
         volume_array_dict
  else volume_array_dict.

(** [volume_array_dict] as initialised from [volume_dict]. *)
Definition init_volume_array_dict (volume_dict : dict string Q)
  : dict string (list element) :=
  fold_left init_step volume_dict [].

(** The handling of a laterality chunk, the same in both readers. *)
Definition laterality_chunk (laterality : option string) (raw : bytes)
  : option string :=
  match parse lat_structure raw with
  | Ok laterality_data =>
      if decide (Lat.laterality laterality_data = 82) then Some "R"%string
      else if decide (Lat.laterality laterality_data = 76) then Some "L"%string
      else laterality
  | Raise _ => None
  end.

(** The handling of a patient chunk, the same in both readers. *)
Definition patient_chunk {date} (self : E2E.t date) (raw : bytes) : E2E.t date :=
  match parse patient_id_structure raw with
  | Ok patient_data =>
      {| E2E.sex := Some (Patient.sex patient_data);
         E2E.first_name := Some (Patient.first_name patient_data);
         E2E.surname := Some (Patient.surname patient_data);
         E2E.acquisition_date := E2E.acquisition_date self;
         E2E.birthdate :=
           Attr (inject_Z (Patient.birthdate patient_data) / 64
                 - 14558805)%Q;
         E2E.patient_id := Attr (Patient.patient_id patient_data) |}
  | Raise _ => self
  end.

(** Truth value of [laterality]: [None] and the empty string are false. *)
Definition truthy (laterality : option string) : bool :=
  match laterality with
  | None => false
  | Some s => negb (String.eqb s "")
  end.

(** *** What the chunk loops read at a chunk reference

    Each iteration seeks to [start], reads the 60 bytes of the chunk
    header, and then the payload that follows it. *)

(** The chunk header at [start]. *)
Definition chunk_at (data : bytes) (start : Z) : result Chunk.t :=
  parse chunk_structure (f_read data (f_seek start) 60).1.

(** The position of the handle after the header at [start] was read. *)
Definition payload_pos (data : bytes) (start : Z) : nat :=
  (f_read data (f_seek start) 60).2.

(** The image header that follows the chunk header at [start]. *)
Definition image_header_at (data : bytes) (start : Z) : result Image.t :=
  parse image_structure (f_read data (payload_pos data start) 20).1.

(** The laterality code that follows the chunk header at [start]. *)
Definition laterality_code_at (data : bytes) (start : Z) : result Z :=
  match parse lat_structure (f_read data (payload_pos data start) 20).1 with
  | Ok laterality_data => Ok (Lat.laterality laterality_data)
  | Raise e => Raise e
  end.

(** ** [E2E.read_oct_volume] *)

Section Reader.
Context {date sample : Type}.

(** The floating-point computations of the reader whose results are
    not dyadic are parameters:
    - [acquisition_date_of t] is
      [(datetime(1600, 12, 31, 23, 59) + timedelta(seconds=t * 1e-7)).date()],
      which raises [OverflowError] past the year 9999;
    - [gamma x] is [256 * pow(x, 1.0 / 2.4)] on one pixel;
    - [contour_value w] is the float of the binary32 word [w], or NaN
      when that float is below [1e-9] or is the largest finite one.

    So is the memory of the machine: [allocates n] tells whether a
    buffer of [n] bytes is given when the file does not hold [n] more
    bytes (see [request_raises]). *)
Context (acquisition_date_of : Z -> result date).
Context (gamma : Q -> Q).
Context (contour_value : Z -> sample).
Context (allocates : Z -> bool).

(** A contour: the samples of one array of floats. *)
Abbreviation contour := (list sample).

(** The local variables of [read_oct_volume] that the chunk loop
    updates, with the attributes of [self]. *)
Record oct_state : Type := {
  self : E2E.t date;
  volume_array_dict : dict string (list element);
  volume_array_dict_additional : dict string (list element);
  laterality_dict : dict string (option string);
  laterality : option string;
  contour_dict : dict string (dict string (dict Z contour)) }.

Definition set_self (v : E2E.t date) (st : oct_state) : oct_state :=
  {| self := v; volume_array_dict := volume_array_dict st;
     volume_array_dict_additional := volume_array_dict_additional st;
     laterality_dict := laterality_dict st; laterality := laterality st;
     contour_dict := contour_dict st |}.

Definition set_volume_array_dict (v : dict string (list element))
    (st : oct_state) : oct_state :=
  {| self := self st; volume_array_dict := v;
     volume_array_dict_additional := volume_array_dict_additional st;
     laterality_dict := laterality_dict st; laterality := laterality st;
     contour_dict := contour_dict st |}.

Definition set_volume_array_dict_additional
    (v : dict string (list element)) (st : oct_state) : oct_state :=
  {| self := self st; volume_array_dict := volume_array_dict st;
     volume_array_dict_additional := v;
     laterality_dict := laterality_dict st; laterality := laterality st;
     contour_dict := contour_dict st |}.

Definition set_laterality_dict (v : dict string (option string))
    (st : oct_state)
  : oct_state :=
  {| self := self st; volume_array_dict := volume_array_dict st;
     volume_array_dict_additional := volume_array_dict_additional st;
     laterality_dict := v; laterality := laterality st;
     contour_dict := contour_dict st |}.

Definition set_laterality (v : option string) (st : oct_state) : oct_state :=
  {| self := self st; volume_array_dict := volume_array_dict st;
     volume_array_dict_additional := volume_array_dict_additional st;
     laterality_dict := laterality_dict st; laterality := v;
     contour_dict := contour_dict st |}.

Definition set_contour_dict
    (v : dict string (dict string (dict Z contour))) (st : oct_state)
  : oct_state :=
  {| self := self st; volume_array_dict := volume_array_dict st;
     volume_array_dict_additional := volume_array_dict_additional st;
     laterality_dict := laterality_dict st; laterality := laterality st;
     contour_dict := v |}.

(** The state before the chunk loop (lines 202-213). *)
Definition oct_init (self0 : E2E.t date) (volume_dict : dict string Q)
  : oct_state :=
  {| self := self0;
     volume_array_dict := init_volume_array_dict volume_dict;
     volume_array_dict_additional := [];
     laterality_dict := [];
     laterality := None;
     contour_dict := [] |}.

(** Chunk of type 10004 (lines 234-244).  The datetime is computed
    before [self.acquisition_date] is tested. *)
Definition bscan_chunk (data : bytes) (f : nat) (self0 : E2E.t date)
  : result (E2E.t date) :=
  let '(raw, f) := f_read data f 104 in
  bscan ← parse bscan_metadata raw;
  acquisition_date ← acquisition_date_of (BScan.acquisitionTime bscan);
  match E2E.acquisition_date self0 with
  | None =>
      Ok {| E2E.sex := E2E.sex self0; E2E.first_name := E2E.first_name self0;
            E2E.surname := E2E.surname self0;
            E2E.acquisition_date := Some acquisition_date;
            E2E.birthdate := E2E.birthdate self0;
            E2E.patient_id := E2E.patient_id self0 |}
  | Some _ => Ok self0
  end.

(** The index [int(chunk.slice_id / 2) - 1] of an image or contour. *)
Definition slice_index (slice_id : Z) : Z := py_int (half slice_id) - 1.

(** Chunk of type 10019 (lines 257-287).  A buffer that is not given,
    or that is not a whole number of floats, is warned about and
    skipped: [f.read] and [np.frombuffer] are inside the [try]. *)
Definition contour_chunk (data : bytes) (f : nat) (chunk : Chunk.t)
    (contour_dict0 : dict string (dict string (dict Z contour)))
  : result (dict string (dict string (dict Z contour))) :=
  let '(raw, f) := f_read data f 16 in
  contour_data ← parse contour_structure raw;
  if decide (Contour.width contour_data > 0) then
    let volume_string :=
      volume_string_of (Chunk.patient_id chunk) (Chunk.study_id chunk)
        (Chunk.series_id chunk) in
    let slice_id := slice_index (Chunk.slice_id chunk) in
    let contour_name := ("contour" +:+ pretty (Contour.id contour_data))%string in
    match (raw ← f_read_sized allocates data f (Contour.width contour_data * 4);
           frombuffer_float32 raw.1) with
    | Raise _ => Ok contour_dict0
    | Ok raw_volume =>
        let contour := map contour_value raw_volume in
        let by_name := dict_get_default [] volume_string contour_dict0 in
        let by_slice := dict_get_default [] contour_name by_name in
        Ok (dict_set volume_string
              (dict_set contour_name (dict_set slice_id contour by_slice)
                 by_name)
              contour_dict0)
    end
  else Ok contour_dict0.

(** Lines 332-334: the current laterality is bound to a volume that
    has none yet. *)
Definition bind_laterality (volume_string : string) (st : oct_state)
  : oct_state :=
  if truthy (laterality st)
     && negb (dict_mem volume_string (laterality_dict st))
  then set_laterality_dict
         (dict_set volume_string (laterality st) (laterality_dict st)) st
  else st.

(** Lines 318-334: where a decoded image goes, then the binding of the
    current laterality. *)
Definition store_image (st : oct_state) (volume_string : string)
    (slice_id : Z) (image : ndarray Q) : result oct_state :=
  st' ← match dict_get volume_string (volume_array_dict st) with
        | Some volume =>
            volume' ← setitem volume (slice_index slice_id) (Slice image);
            Ok (set_volume_array_dict
                  (dict_set volume_string volume' (volume_array_dict st)) st)
        | None =>
            match dict_get volume_string (volume_array_dict_additional st) with
            | Some images =>
                Ok (set_volume_array_dict_additional
                      (dict_set volume_string (images ++ [Slice image])
                         (volume_array_dict_additional st)) st)
            | None =>
                Ok (set_volume_array_dict_additional
                      (dict_set volume_string [Slice image]
                         (volume_array_dict_additional st)) st)
            end
        end;
  Ok (bind_laterality volume_string st').

(** [256 * pow(image, 1.0 / 2.4)] *)
Definition apply_gamma (image : ndarray Q) : ndarray Q :=
  {| shape := shape image; values := map gamma (values image) |}.

(** Chunk of type 1073741824 (lines 289-334).  [np.fromfile] is called
    before the [try]: what it raises ends the reader. *)
Definition oct_image_chunk (LUT : list Q) (data : bytes) (f : nat)
    (chunk : Chunk.t) (st : oct_state) : result (flow oct_state) :=
  let '(raw, f) := f_read data f 20 in
  image_data ← parse image_structure raw;
  if decide (Chunk.ind chunk = 1) then
    let count := Image.height image_data * Image.width image_data in
    if decide (count = 0) then Ok (Break st)
    else
      raw_volume ← np_fromfile_uint16 allocates data f count;
      let volume_string :=
        volume_string_of (Chunk.patient_id chunk) (Chunk.study_id chunk)
          (Chunk.series_id chunk) in
      match (looked_up ← lut_index LUT raw_volume;
             reshape looked_up (Image.width image_data)
               (Image.height image_data)) with
      | Raise _ => Ok (Continue st)
      | Ok image =>
          let image := apply_gamma image in
          st' ← store_image st volume_string (Chunk.slice_id chunk) image;
          Ok (Continue st')
      end
  else Ok (Continue st).

(** The body of [for start, pos in chunk_stack] (lines 216-334). *)
Definition oct_chunk (LUT : list Q) (data : bytes) (st : oct_state)
    (ref : Z * Z) : result (flow oct_state) :=
  let '(start, pos) := ref in
  let f := f_seek start in
  let '(raw, f) := f_read data f 60 in
  chunk ← parse chunk_structure raw;
  if decide (Chunk.type chunk = 9) then
    let '(raw, f) := f_read data f 127 in
    Ok (Continue (set_self (patient_chunk (self st) raw) st))
  else if decide (Chunk.type chunk = 10004) then
    self' ← bscan_chunk data f (self st);
    Ok (Continue (set_self self' st))
  else if decide (Chunk.type chunk = 11) then
    let '(raw, f) := f_read data f 20 in
    Ok (Continue (set_laterality (laterality_chunk (laterality st) raw) st))
  else if decide (Chunk.type chunk = 10019) then
    contour_dict' ← contour_chunk data f chunk (contour_dict st);
    Ok (Continue (set_contour_dict contour_dict' st))
  else if decide (Chunk.type chunk = 1073741824) then
    oct_image_chunk LUT data f chunk st
  else Ok (Continue st).

Definition oct_chunk_loop (LUT : list Q) (data : bytes) (st : oct_state)
    (chunk_stack : list (Z * Z)) : result oct_state :=
  for_loop (oct_chunk LUT data) st chunk_stack.

(** What one iteration can do to [volume_array_dict]: nothing, or
    replace the list of a present key by one of the same length. *)
Definition same_shape (before after : dict string (list element)) : Prop :=
  after = before
  \/ exists vs volume volume',
       dict_get vs before = Some volume
       /\ length volume' = length volume
       /\ after = dict_set vs volume' before.

(** The states of the chunk loop: the initial one, and any state one
    more iteration leads to, whether the iteration ends or breaks. *)
Inductive oct_reachable (LUT : list Q) (data : bytes) (self0 : E2E.t date)
    (volume_dict : dict string Q) : oct_state -> Prop :=
  | reach_init : oct_reachable LUT data self0 volume_dict (oct_init self0 volume_dict)
  | reach_continue st ref st' :
      oct_reachable LUT data self0 volume_dict st ->
      oct_chunk LUT data st ref = Ok (Continue st') ->
      oct_reachable LUT data self0 volume_dict st'
  | reach_break st ref st' :
      oct_reachable LUT data self0 volume_dict st ->
      oct_chunk LUT data st ref = Ok (Break st') ->
      oct_reachable LUT data self0 volume_dict st'.

(** *** After the loop: contours (lines 336-348) *)

Abbreviation contour_table :=
  (dict string (dict string (list (option contour)))).

(** [d[k]] on a plain [dict] *)
Definition dict_getitem {K V} `{EqDecision K} (k : K) (d : dict K V)
  : result V :=
  match dict_get k d with
  | Some v => Ok v
  | None => Raise KeyError
  end.

(** [num_slices or len(v)]: [None] and [0] are false. *)
Definition num_slices_or_len (num_slices : option Z)
    (v : dict Z contour) : Z :=
  match num_slices with
  | Some n => if decide (n = 0) then Z.of_nat (length v) else n
  | None => Z.of_nat (length v)
  end.

(** [[None] * n]; a negative [n] gives the empty list. *)
Definition none_list (n : Z) : list (option contour) :=
  repeat None (Z.to_nat n).

(** [{k: [None] * (num_slices or len(v)) for k, v in contours.items()}] *)
Definition empty_contours (num_slices : option Z)
    (contours : dict string (dict Z contour))
  : dict string (list (option contour)) :=
  fold_left
    (fun d '(k, v) => dict_set k (none_list (num_slices_or_len num_slices v)) d)
    contours [].

(** [contour_data[volume_id][contour_name][slice_id] = contour] *)
Definition write_contour (volume_id contour_name : string)
    (contour_data : contour_table) (item : Z * contour)
  : result contour_table :=
  let '(slice_id, contour) := item in
  by_name ← dict_getitem volume_id contour_data;
  slots ← dict_getitem contour_name by_name;
  slots' ← setitem slots slice_id (Some contour);
  Ok (dict_set volume_id (dict_set contour_name slots' by_name) contour_data).

(** Lines 338-341: [num_slices] for a volume id, [None] without a
    sub-directory record. *)
Definition contour_num_slices (volume_dict : dict string Q)
    (volume_id : string) : option Z :=
  match dict_get volume_id volume_dict with
  | Some v => Some (py_int v + 1)
  | None => None
  end.

(** The body of [for volume_id, contours in contour_dict.items()]. *)
Definition contour_volume (volume_dict : dict string Q)
    (contour_data : contour_table)
    (item : string * dict string (dict Z contour)) : result contour_table :=
  let '(volume_id, contours) := item in
  let num_slices := contour_num_slices volume_dict volume_id in
  let contour_data :=
    dict_set volume_id (empty_contours num_slices contours) contour_data in
  for_each
    (fun contour_data '(contour_name, contour_values) =>
       for_each (write_contour volume_id contour_name) contour_data
         contour_values)
    contour_data contours.

(** The assignments of the contours of one name to its list. *)
Definition fill_slots (slots : list (option contour))
    (contour_values : dict Z contour) : result (list (option contour)) :=
  for_each (fun slots '(slice_id, contour) =>
              setitem slots slice_id (Some contour))
    slots contour_values.

(** Each key occurs once, at each level of [contour_dict]. *)
Definition contour_dict_wf (cd : dict string (dict string (dict Z contour)))
  : Prop :=
  NoDup (dict_keys cd)
  /\ forall volume_id contours,
       dict_get volume_id cd = Some contours ->
       NoDup (dict_keys contours)
       /\ forall contour_name contour_values,
            dict_get contour_name contours = Some contour_values ->
            NoDup (dict_keys contour_values).

(** A check of [contour_dict_wf] that computes. *)
Definition contour_dict_wfb (cd : dict string (dict string (dict Z contour)))
  : bool :=
  bool_decide (NoDup (dict_keys cd))
  && forallb
       (fun kv : string * dict string (dict Z contour) =>
          bool_decide (NoDup (dict_keys kv.2))
          && forallb
               (fun kv' : string * dict Z contour =>
                  bool_decide (NoDup (dict_keys kv'.2)))
               kv.2)
       cd.

Definition make_contour_data (volume_dict : dict string Q)
    (contour_dict0 : dict string (dict string (dict Z contour)))
  : result contour_table :=
  for_each (contour_volume volume_dict) [] contour_dict0.

(** *** After the loop: the volumes (lines 350-371) *)

(** [d.get(k)] on a dictionary of values that may be [None] *)
Definition dict_get_none {K V} `{EqDecision K} (k : K)
    (d : dict K (option V)) : option V :=
  match dict_get k d with
  | Some v => v
  | None => None
  end.

(** The body of [for key, volume in chain(...)]. *)
Definition append_volume (st : oct_state) (contour_data : contour_table)
    (oct_volumes : list (OCTVolumeWithMetaData.t date sample))
    (item : string * list element)
  : result (list (OCTVolumeWithMetaData.t date sample)) :=
  let '(key, volume) := item in
  first ← getitem volume 0;
  if isinstance_int first then Ok oct_volumes
  else
    patient_id ← getattr (E2E.patient_id (self st));
    Ok (oct_volumes ++
        [OCTVolumeWithMetaData.make volume patient_id
           (E2E.first_name (self st)) (E2E.surname (self st))
           (E2E.sex (self st)) (E2E.acquisition_date (self st)) key
           (dict_get_none key (laterality_dict st))
           (dict_get key contour_data)]).

Definition make_oct_volumes (st : oct_state) (contour_data : contour_table)
  : result (list (OCTVolumeWithMetaData.t date sample)) :=
  for_each (append_volume st contour_data) []
    (volume_array_dict st ++ volume_array_dict_additional st).

(** *** The whole of [read_oct_volume]

    [self0] holds the attributes of the object at the call; the result
    is the returned list, with the attributes after the call. *)
Definition read_oct_volume (fuel : nat) (self0 : E2E.t date) (data : bytes)
  : result (E2E.t date * list (OCTVolumeWithMetaData.t date sample)) :=
  LUT ← _make_lut;
  let f := 0%nat in
  let '(raw, f) := f_read data f 36 in
  header ← parse header_structure raw;
  let '(raw, f) := f_read data f 52 in
  main_directory ← parse main_directory_structure raw;
  directory_stack ←
    traverse fuel data [] (MainDirectory.current main_directory);
  scanned ← scan data directory_stack;
  let '(chunk_stack, volume_dict) := scanned in
  st ← oct_chunk_loop LUT data (oct_init self0 volume_dict) chunk_stack;
  contour_data ← make_contour_data volume_dict (contour_dict st);
  oct_volumes ← make_oct_volumes st contour_data;
  Ok (self st, oct_volumes).

(** ** [E2E.read_fundus_image] *)

Record fundus_state : Type := {
  fundus_self : E2E.t date;
  image_array_dict : dict string (ndarray Z);
  fundus_laterality_dict : dict string (option string);
  fundus_laterality : option string }.

Definition set_fundus_laterality (v : option string) (st : fundus_state)
  : fundus_state :=
  {| fundus_self := fundus_self st;
     image_array_dict := image_array_dict st;
     fundus_laterality_dict := fundus_laterality_dict st;
     fundus_laterality := v |}.

(** Chunk of type 1073741824 (lines 446-462).  Neither [f.read] nor the
    reshape is guarded: a file too short for the image raises. *)
Definition fundus_image_chunk (data : bytes) (f : nat) (chunk : Chunk.t)
    (st : fundus_state) : result (flow fundus_state) :=
  let '(raw, f) := f_read data f 20 in
  image_data ← parse image_structure raw;
  let count := Image.height image_data * Image.width image_data in
  if decide (count = 0) then Ok (Break st)
  else if decide (Chunk.ind chunk = 0) then
    raw ← f_read_sized allocates data f count;
    let raw_volume := frombuffer_uint8 raw.1 in
    image ← reshape raw_volume (Image.height image_data)
              (Image.width image_data);
    let image_string :=
      volume_string_of (Chunk.patient_id chunk) (Chunk.study_id chunk)
        (Chunk.series_id chunk) in
    Ok (Continue
          {| fundus_self := fundus_self st;
             image_array_dict :=
               dict_set image_string image (image_array_dict st);
             fundus_laterality_dict :=
               dict_set image_string (fundus_laterality st)
                 (fundus_laterality_dict st);
             fundus_laterality := fundus_laterality st |})
  else Ok (Continue st).

(** The body of [for start, pos in chunk_stack] (lines 417-462): three
    successive [if] statements on the type of the chunk. *)
Definition fundus_chunk (data : bytes) (st : fundus_state) (ref : Z * Z)
  : result (flow fundus_state) :=
  let '(start, pos) := ref in
  let f := f_seek start in
  let '(raw, f) := f_read data f 60 in
  chunk ← parse chunk_structure raw;
  let '(st, f) :=
    if decide (Chunk.type chunk = 9) then
      let '(raw, f) := f_read data f 127 in
      ({| fundus_self := patient_chunk (fundus_self st) raw;
          image_array_dict := image_array_dict st;
          fundus_laterality_dict := fundus_laterality_dict st;
          fundus_laterality := fundus_laterality st |}, f)
    else (st, f) in
  let '(st, f) :=
    if decide (Chunk.type chunk = 11) then
      let '(raw, f) := f_read data f 20 in
      (set_fundus_laterality (laterality_chunk (fundus_laterality st) raw) st,
       f)
    else (st, f) in
  if decide (Chunk.type chunk = 1073741824) then
    fundus_image_chunk data f chunk st
  else Ok (Continue st).

Definition fundus_chunk_loop (data : bytes) (st : fundus_state)
    (chunk_stack : list (Z * Z)) : result fundus_state :=
  for_loop (fundus_chunk data) st chunk_stack.

(** The body of [for key, image in image_array_dict.items()]. *)
Definition append_fundus (st : fundus_state)
    (fundus_images : list FundusImageWithMetaData.t)
    (item : string * ndarray Z) : result (list FundusImageWithMetaData.t) :=
  let '(key, image) := item in
  patient_id ← getattr (E2E.patient_id (fundus_self st));
  Ok (fundus_images ++
      [{| FundusImageWithMetaData.image := image;
          FundusImageWithMetaData.patient_id := patient_id;
          FundusImageWithMetaData.image_id := key;
          FundusImageWithMetaData.laterality :=
            if dict_mem key (fundus_laterality_dict st)
            then dict_get_none key (fundus_laterality_dict st)
            else None |}]).

(** The whole of [read_fundus_image].  Its second pass is the one of
    [read_oct_volume] without [volume_dict]. *)
Definition read_fundus_image (fuel : nat) (self0 : E2E.t date) (data : bytes)
  : result (E2E.t date * list FundusImageWithMetaData.t) :=
  let f := 0%nat in
  let '(raw, f) := f_read data f 36 in
  header ← parse header_structure raw;
  let '(raw, f) := f_read data f 52 in
  main_directory ← parse main_directory_structure raw;
  directory_stack ←
    traverse fuel data [] (MainDirectory.current main_directory);
  scanned ← scan data directory_stack;
  let chunk_stack := scanned.1 in
  st ← fundus_chunk_loop data
         {| fundus_self := self0; image_array_dict := [];
            fundus_laterality_dict := []; fundus_laterality := None |}
         chunk_stack;
  fundus_images ← for_each (append_fundus st) [] (image_array_dict st);
  Ok (fundus_self st, fundus_images).
End Reader.

(** ** Files for the examples

    Encoders for the layouts above, and a builder that puts a header, a
    main directory, one directory with its sub-directory entries and the
    chunks they point to, one after the other. *)

Definition byte_of_Z (v : Z) : byte :=
  match Byte.of_N (Z.to_N (v mod 256)) with
  | Some b => b
  | None => x00
  end.

(** [n] little-endian bytes of [v] (two's complement when negative). *)
Fixpoint enc_le (n : nat) (v : Z) : bytes :=
  match n with
  | O => []
  | S n' => byte_of_Z v :: enc_le n' (v / 256)
  end.

Definition enc_padded (n : nat) (s : string) : bytes :=
  let raw := list_byte_of_string s in
  take n (raw ++ repeat x00 n).

Definition zeros (n : nat) : bytes := repeat x00 n.

Definition enc_header : bytes :=
  enc_padded 12 "CMDb" ++ enc_le 4 100 ++ zeros 20.

Definition enc_main_directory (num_entries current prev : Z) : bytes :=
  enc_padded 12 "MDbMDir" ++ enc_le 4 100 ++ zeros 20
  ++ enc_le 4 num_entries ++ enc_le 4 current ++ enc_le 4 prev ++ zeros 4.

(** The identifiers an entry or a chunk header carries. *)
Record ids : Type := {
  ids_patient : Z; ids_study : Z; ids_series : Z; ids_slice : Z }.

Definition enc_sub_directory (pos start size : Z) (i : ids) (type : Z) : bytes :=
  enc_le 4 pos ++ enc_le 4 start ++ enc_le 4 size ++ zeros 4
  ++ enc_le 4 (ids_patient i) ++ enc_le 4 (ids_study i)
  ++ enc_le 4 (ids_series i) ++ enc_le 4 (ids_slice i)
  ++ zeros 2 ++ zeros 2 ++ enc_le 4 type ++ zeros 4.

Definition enc_chunk_header (pos size : Z) (i : ids) (ind type : Z) : bytes :=
  enc_padded 12 "MDbData" ++ zeros 4 ++ zeros 4
  ++ enc_le 4 pos ++ enc_le 4 size ++ zeros 4
  ++ enc_le 4 (ids_patient i) ++ enc_le 4 (ids_study i)
  ++ enc_le 4 (ids_series i) ++ enc_le 4 (ids_slice i)
  ++ enc_le 2 ind ++ zeros 2 ++ enc_le 4 type ++ zeros 4.

(** A chunk of the file: the identifiers of the sub-directory entry that
    points to it, those of its own header, and its payload. *)
Record test_chunk : Type := {
  tc_entry : ids;
  tc_header : ids;
  tc_ind : Z;
  tc_type : Z;
  tc_payload : bytes }.

Definition enc_test_chunk (c : test_chunk) : bytes :=
  enc_chunk_header 0 (Z.of_nat (length (tc_payload c))) (tc_header c)
    (tc_ind c) (tc_type c)
  ++ tc_payload c.

(** The sub-directory entries of the chunks, the first chunk at [start]. *)
Fixpoint enc_entries (start : Z) (cs : list test_chunk) : bytes :=
  match cs with
  | [] => []
  | c :: cs' =>
      let size := Z.of_nat (length (enc_test_chunk c)) in
      enc_sub_directory 0 start size (tc_entry c) (tc_type c)
      ++ enc_entries (start + size) cs'
  end.

Definition test_file (cs : list test_chunk) : bytes :=
  let n := Z.of_nat (length cs) in
  enc_header
  ++ enc_main_directory 0 88 0
  ++ enc_main_directory n 0 0
  ++ enc_entries (88 + 52 + 44 * n) cs
  ++ concat (map enc_test_chunk cs).

(** Payloads. *)
Definition image_payload (width height : Z) (pixels : list Z) : bytes :=
  enc_le 4 0 ++ enc_le 4 0 ++ zeros 4 ++ enc_le 4 width ++ enc_le 4 height
  ++ concat (map (enc_le 2) pixels).

Definition fundus_payload (width height : Z) (pixels : list Z) : bytes :=
  enc_le 4 0 ++ enc_le 4 0 ++ zeros 4 ++ enc_le 4 width ++ enc_le 4 height
  ++ concat (map (enc_le 1) pixels).

Definition laterality_payload (code : Z) : bytes :=
  zeros 14 ++ enc_le 1 code ++ zeros 1 ++ zeros 4.

Definition contour_payload (id : Z) (words : list Z) : bytes :=
  zeros 4 ++ enc_le 4 id ++ zeros 4 ++ enc_le 4 (Z.of_nat (length words))
  ++ concat (map (enc_le 4) words).

Definition patient_payload (first_name surname sex patient_id : string)
    (birthdate : Z) : bytes :=
  enc_padded 31 first_name ++ enc_padded 66 surname ++ enc_le 4 birthdate
  ++ enc_padded 1 sex ++ enc_padded 25 patient_id.

Definition mk_ids (patient study series slice : Z) : ids :=
  {| ids_patient := patient; ids_study := study; ids_series := series;
     ids_slice := slice |}.

(** A chunk whose entry and header carry the same identifiers. *)
Definition chunk_of (i : ids) (ind type : Z) (payload : bytes) : test_chunk :=
  {| tc_entry := i; tc_header := i; tc_ind := ind; tc_type := type;
     tc_payload := payload |}.

(** Instances of the parameters of the reader for the examples: the
    tick count stands for the date, and the pixel and contour maps are
    the identity. *)
Definition ex_date_of (t : Z) : result Z := Ok t.
Definition ex_gamma (x : Q) : Q := x.
Definition ex_contour_value (w : Z) : Z := w.

(** A machine that gives every buffer it is asked for. *)
Definition ex_allocates (n : Z) : bool := true.

Abbreviation ex_read_oct_volume :=
  (read_oct_volume ex_date_of ex_gamma ex_contour_value ex_allocates 8).

(** The first four entries of the lookup table. *)
Definition ex_LUT : list Q :=
  Eval vm_compute in
    match mapM uint16_to_ufloat16 (range 0 4) with
    | Ok lut => lut
    | Raise _ => []
    end.

Abbreviation ex_oct_chunk_loop :=
  (oct_chunk_loop ex_date_of ex_gamma ex_contour_value ex_allocates ex_LUT).

Definition IMAGE : Z := 1073741824.

(** A patient chunk, a laterality chunk with code 82 (right eye), and two
    B-scans of one volume, with slice ids 2 and 4. *)
Definition ex_volume_file : bytes :=
  test_file [
    chunk_of (mk_ids 1 2 3 0) 0 9 (patient_payload "Ann" "Lee" "F" "P1" 0);
    chunk_of (mk_ids 1 2 3 0) 0 11 (laterality_payload 82);
    chunk_of (mk_ids 1 2 3 2) 1 IMAGE (image_payload 2 1 [0; 1]);
    chunk_of (mk_ids 1 2 3 4) 1 IMAGE (image_payload 2 1 [2; 3])].

(** One B-scan with slice id 2, and no patient chunk. *)
Definition ex_no_patient_file : bytes :=
  test_file [chunk_of (mk_ids 1 2 3 2) 1 IMAGE (image_payload 2 1 [0; 1])].

(** A patient chunk, an image chunk with [ind = 0] whose header has
    width and height 0, and then a B-scan. *)
Definition ex_zero_fundus_file : bytes :=
  test_file [
    chunk_of (mk_ids 1 2 3 0) 0 9 (patient_payload "Ann" "Lee" "F" "P1" 0);
    chunk_of (mk_ids 1 2 3 0) 0 IMAGE (fundus_payload 0 0 []);
    chunk_of (mk_ids 1 2 3 2) 1 IMAGE (image_payload 2 1 [0; 1])].

(** An image chunk with [ind = 1] whose header has width 0, and then a
    B-scan. *)
Definition ex_zero_oct_file : bytes :=
  test_file [
    chunk_of (mk_ids 1 2 3 2) 1 IMAGE (image_payload 0 5 []);
    chunk_of (mk_ids 1 2 3 4) 1 IMAGE (image_payload 2 1 [0; 1])].

(** One B-scan with slice id 0: its volume id has a sub-directory
    record, whose maximum [slice_id / 2] is 0. *)
Definition ex_slice0_file : bytes :=
  test_file [chunk_of (mk_ids 1 2 3 0) 1 IMAGE (image_payload 2 1 [0; 1])].

(** Two laterality chunks, with codes 82 and 66, and then a B-scan. *)
Definition ex_laterality_file : bytes :=
  test_file [
    chunk_of (mk_ids 1 2 3 0) 0 11 (laterality_payload 82);
    chunk_of (mk_ids 1 2 3 0) 0 11 (laterality_payload 66);
    chunk_of (mk_ids 1 2 3 2) 1 IMAGE (image_payload 2 1 [0; 1])].

(** A contour chunk whose header names volume 7_7_7, which no
    sub-directory entry names, with slice id 2 (slice index 0). *)
Definition ex_contour_file : bytes :=
  test_file [
    {| tc_entry := mk_ids 1 2 3 2; tc_header := mk_ids 7 7 7 2;
       tc_ind := 0; tc_type := 10019;
       tc_payload := contour_payload 5 [10; 20; 30] |}].

(** The attributes and the volumes of a result; a failed call leaves
    the initial attributes and no volume. *)
Definition result_self (r : result (E2E.t Z * list (OCTVolumeWithMetaData.t Z Z)))
  : E2E.t Z :=
  match r with
  | Ok (self', _) => self'
  | Raise _ => E2E.init
  end.

Definition result_volumes
    (r : result (E2E.t Z * list (OCTVolumeWithMetaData.t Z Z)))
  : list (OCTVolumeWithMetaData.t Z Z) :=
  match r with
  | Ok (_, oct_volumes) => oct_volumes
  | Raise _ => []
  end.

(** What the model of [read_oct_volume] computes on two of the files,
    from the attributes [E2E.__init__] leaves: the attributes after the
    call and the returned volumes. *)
Definition ex_volume_self : E2E.t Z :=
  Eval vm_compute in
    result_self (ex_read_oct_volume E2E.init ex_volume_file).

Definition ex_volume_volumes : list (OCTVolumeWithMetaData.t Z Z) :=
  Eval vm_compute in
    result_volumes (ex_read_oct_volume E2E.init ex_volume_file).

Definition ex_zero_fundus_self : E2E.t Z :=
  Eval vm_compute in
    result_self (ex_read_oct_volume E2E.init ex_zero_fundus_file).

Definition ex_zero_fundus_volumes : list (OCTVolumeWithMetaData.t Z Z) :=
  Eval vm_compute in
    result_volumes (ex_read_oct_volume E2E.init ex_zero_fundus_file).

(** The initial state of the fundus loop. *)
Definition ex_fundus_init : @fundus_state Z :=
  {| fundus_self := E2E.init; image_array_dict := [];
     fundus_laterality_dict := []; fundus_laterality := None |}.

(** Chunk headers and image headers of these files. *)
Definition ex_chunk (size : Z) (i : ids) (ind type : Z) : Chunk.t :=
  {| Chunk.magic3 := "MDbData"; Chunk.pos := 0; Chunk.size := size;
     Chunk.patient_id := ids_patient i; Chunk.study_id := ids_study i;
     Chunk.series_id := ids_series i; Chunk.slice_id := ids_slice i;
     Chunk.ind := ind; Chunk.type := type |}.

Definition ex_image_header (width height : Z) : Image.t :=
  {| Image.size := 0; Image.type := 0; Image.width := width;
     Image.height := height |}.

(** The state before the chunk loop when [volume_dict] is [vd]. *)
Abbreviation ex_init := (@oct_init Z Z E2E.init).

Definition ex_image : ndarray Q := {| shape := (2, 1); values := [1; 2]%Q |}.

(** ** Further definitions for the properties of the reader *)

(** The decoded value in terms of the bits of [u], bit 0 first: the
    first ten are the mantissa, the last six, reversed, the exponent. *)
Definition ufloat16_of_bits (u : N) : Q :=
  decimal_value (bits_value (take 10 (lsb_bits 16 u)))
    (bits_value (rev (drop 10 (lsb_bits 16 u)))).

(** A field or layout that reads exactly [n] bytes: when it succeeds,
    the buffer had at least [n] bytes and the rest of the buffer is what
    follows them. *)
Definition consumes {A} (n : nat) (p : parser A) : Prop :=
  forall s a s', p s = Ok (a, s') -> (n <= length s)%nat /\ s' = drop n s.

(** A field or layout of integers and floats of [n] bytes in all: it
    succeeds on every buffer of at least [n] bytes, leaving what follows
    them, and raises [StreamError] on every shorter one. *)
Definition int_layout {A} (n : nat) (p : parser A) : Prop :=
  forall s,
    if decide (n <= length s)%nat
    then exists a, p s = Ok (a, drop n s)
    else p s = Raise StreamError.

(** The main directory read at position [pos]. *)
Definition directory_at (data : bytes) (pos : nat) : result MainDirectory.t :=
  parse main_directory_structure (f_read data pos 52).1.

(** The chain of directories the first pass follows from [current]: each
    one is read at its position and leads to its [prev], down to 0. *)
Inductive prev_chain (data : bytes) : Z -> list Z -> Prop :=
  | chain_end : prev_chain data 0 []
  | chain_link current directory_chunk rest :
      current <> 0 ->
      directory_at data (f_seek current) = Ok directory_chunk ->
      prev_chain data (MainDirectory.prev directory_chunk) rest ->
      prev_chain data current (current :: rest).

(** The [(start, size)] pair of a sub-directory entry. *)
Definition chunk_ref (chunk : SubDirectory.t) : Z * Z :=
  (SubDirectory.start chunk, SubDirectory.size chunk).

(** The bytes of the file from the payload of the chunk at [start] on. *)
Definition payload_available (data : bytes) (start : Z) : nat :=
  (length data - payload_pos data start)%nat.

(** ** Further files for the examples *)

(** A header, a main directory that points to the directory at 88, and
    that directory, whose [prev] is 88 again. *)
Definition ex_cycle_file : bytes :=
  enc_header ++ enc_main_directory 0 88 0 ++ enc_main_directory 0 0 88.

(** A header and a main directory whose [current] is 0. *)
Definition ex_empty_file : bytes :=
  enc_header ++ enc_main_directory 0 0 0.

(** A patient chunk, a laterality chunk with code 76 (left eye) and a
    fundus image of two pixels. *)
Definition ex_fundus_file : bytes :=
  test_file [
    chunk_of (mk_ids 1 2 3 0) 0 9 (patient_payload "Ann" "Lee" "F" "P1" 0);
    chunk_of (mk_ids 1 2 3 0) 0 11 (laterality_payload 76);
    chunk_of (mk_ids 1 2 3 0) 0 IMAGE (fundus_payload 2 1 [5; 6])].

(** [ex_volume_file] cut in the middle of its patient record, of which
    24 bytes are left. *)
Definition ex_short_patient_file : bytes := take 400 ex_volume_file.



(** ** Invariants of the chunk loops *)

(** What holds of the state of the loop of [read_oct_volume] at each
    iteration: the current laterality is absent, R or L; the bound
    lateralities are R or L; no key occurs twice in
    [volume_array_dict] or [volume_array_dict_additional], nor in
    both. *)
Definition oct_loop_invariant {date sample : Type}
    (st : @oct_state date sample) : Prop :=
  laterality st ∈ [None; Some "R"; Some "L"]%string
  /\ (forall key v,
        dict_get key (laterality_dict st) = Some v ->
        v ∈ [Some "R"; Some "L"]%string)
  /\ NoDup (dict_keys (volume_array_dict st))
  /\ NoDup (dict_keys (volume_array_dict_additional st))
  /\ (forall key,
        key ∈ dict_keys (volume_array_dict_additional st) ->
        key ∉ dict_keys (volume_array_dict st)).

(** A two-dimensional array with as many values as its shape says, and
    at least one. *)
Definition image_ok {A} (image : ndarray A) : Prop :=
  Z.of_nat (length (values image)) = (shape image).1 * (shape image).2
  /\ (shape image).1 * (shape image).2 <> 0.

(** A slot of a volume: the integer placeholder 0 or such an array. *)
Definition slot_ok (slot : element) : Prop :=
  match slot with
  | PyInt n => n = 0
  | Slice image => image_ok image
  end.

(** Such an array of 8-bit pixels. *)
Definition fundus_image_ok (image : ndarray Z) : Prop :=
  image_ok image /\ Forall (fun pixel => 0 <= pixel < 256) (values image).

(** What holds of the state of the loop of [read_fundus_image] at each
    iteration. *)
Definition fundus_loop_invariant {date : Type} (st : @fundus_state date)
  : Prop :=
  fundus_laterality st ∈ [None; Some "R"; Some "L"]%string
  /\ (forall key v,
        dict_get key (fundus_laterality_dict st) = Some v ->
        v ∈ [None; Some "R"; Some "L"]%string)
  /\ NoDup (dict_keys (image_array_dict st))
  /\ (forall key image,
        dict_get key (image_array_dict st) = Some image ->
        fundus_image_ok image).

(** Every list of the dictionary holds such slots only. *)
Definition slots_ok (d : dict string (list element)) : Prop :=
  forall key volume, (key, volume) ∈ d -> Forall slot_ok volume.

(** [ex_volume_file] cut inside its sub-directory entries: the
    directory at 88 declares four entries, of which one is left. *)
Definition ex_short_directory_file : bytes := take 200 ex_volume_file.

(** * Properties *)

(** ** Results *)

Lemma bind_Ok {A B} (r : result A) (k : A -> result B) (b : B) :
  r ≫= k = Ok b -> exists a, r = Ok a /\ k a = Ok b.
Proof. destruct r as [a|e]; simpl; [eauto | discriminate]. Qed.

(** ** Bit strings *)

Lemma lsb_bits_length w n : length (lsb_bits w n) = w.
Proof. unfold lsb_bits. by rewrite length_map, length_seq. Qed.

Lemma lsb_bits_S w n :
  lsb_bits (S w) n = N.testbit n 0 :: lsb_bits w (N.div2 n).
Proof.
  unfold lsb_bits. cbn [seq map]. f_equal.
  rewrite <- seq_shift, map_map. apply map_ext. intros i.
  rewrite Nat2N.inj_succ. symmetry. apply N.testbit_div2.
Qed.

Lemma lsb_bits_0 w : lsb_bits w 0 = repeat false w.
Proof.
  induction w as [|w IH]; [done|].
  rewrite lsb_bits_S. cbn. by rewrite IH.
Qed.

Lemma lsb_bits_app w1 w2 n :
  lsb_bits (w1 + w2) n
  = lsb_bits w1 (n mod 2 ^ N.of_nat w1) ++ lsb_bits w2 (n / 2 ^ N.of_nat w1).
Proof.
  unfold lsb_bits. rewrite seq_app, map_app. f_equal.
  - apply map_ext_in. intros i Hi. apply in_seq in Hi.
    symmetry. apply N.mod_pow2_bits_low. lia.
  - cbn [Nat.add]. replace w1 with (w1 + 0)%nat at 1 by lia.
    rewrite <- fmap_add_seq. change (fmap ?f ?l) with (map f l).
    rewrite map_map. apply map_ext. intros i.
    rewrite N.div_pow2_bits. f_equal. lia.
Qed.

Lemma zfill_snoc w s c : zfill (S w) (s ++ [c]) = zfill w s ++ [c].
Proof.
  unfold zfill. rewrite length_app. cbn [length].
  replace (S w - (length s + 1))%nat with (w - length s)%nat by lia.
  by rewrite app_assoc.
Qed.

Lemma repeat_snoc {A} (x : A) n : repeat x n ++ [x] = x :: repeat x n.
Proof. induction n as [|n IH]; [done|]. cbn. by rewrite IH. Qed.

Lemma pos_digits_fixed p : forall w,
  (Npos p < 2 ^ N.of_nat w)%N ->
  zfill w (pos_digits p) = map digit (rev (lsb_bits w (Npos p))).
Proof.
  induction p as [p IH|p IH|]; intros [|w] Hlt;
    try (cbn in Hlt; lia);
    rewrite Nat2N.inj_succ, N.pow_succ_r' in Hlt;
    rewrite lsb_bits_S; cbn [rev pos_digits]; rewrite map_app.
  - rewrite zfill_snoc, IH by lia. done.
  - rewrite zfill_snoc, IH by lia. done.
  - change ["1"%char] with ([] ++ ["1"%char]). rewrite zfill_snoc.
    cbn [N.div2]. rewrite lsb_bits_0. unfold zfill. cbn [length].
    rewrite Nat.sub_0_r, app_nil_r, rev_repeat, map_repeat. done.
Qed.

(** On values that fit, zero-filled binary formatting lists the bits from
    the most significant to bit 0. *)
Lemma bin_digits_fixed w n :
  (0 < w)%nat -> (n < 2 ^ N.of_nat w)%N ->
  zfill w (bin_digits n) = map digit (rev (lsb_bits w n)).
Proof.
  intros Hw Hlt. destruct n as [|p]; [|by apply pos_digits_fixed].
  destruct w as [|w]; [lia|]. cbn [bin_digits].
  change ["0"%char] with ([] ++ ["0"%char]). rewrite zfill_snoc.
  rewrite lsb_bits_0, rev_repeat, map_repeat. unfold zfill. cbn [length].
  rewrite Nat.sub_0_r, app_nil_r. cbn [repeat]. apply (repeat_snoc "0"%char).
Qed.

Lemma int_2_acc_digits bs acc :
  int_2_acc acc (map digit bs)
  = Ok (fold_left (fun a (b : bool) => 2 * a + (if b then 1 else 0)) bs acc).
Proof.
  revert acc. induction bs as [|[|] bs IH]; intros acc; cbn; [done| |].
  - rewrite IH. done.
  - rewrite IH. do 2 f_equal. lia.
Qed.

Lemma int_2_digits bs :
  bs <> [] -> int_2 (map digit bs) = Ok (bits_value bs).
Proof.
  intros Hne. destruct bs as [|b bs]; [done|].
  unfold int_2. cbn [map]. rewrite <- (map_cons digit). apply int_2_acc_digits.
Qed.

(** ** The bespoke float *)

Lemma byte_value_lt b : (byte_value b < 256)%N.
Proof. unfold byte_value. pose proof (Byte.to_N_bounded b). lia. Qed.

Lemma format_016b_bits u :
  (u < 65536)%N -> rev (format_016b u) = map digit (lsb_bits 16 u).
Proof.
  intros Hu. unfold format_016b.
  rewrite bin_digits_fixed by (cbn; lia).
  by rewrite <- map_rev, rev_involutive.
Qed.

Lemma byte_bits b :
  rev (zfill 8 (bin_digits (byte_value b))) = map digit (lsb_bits 8 (byte_value b)).
Proof.
  rewrite bin_digits_fixed by (pose proof (byte_value_lt b); cbn; lia).
  by rewrite <- map_rev, rev_involutive.
Qed.

(** Both decoders, once the bits are known to be [bits]. *)
Lemma decode_bits (bits : list bool) :
  length bits = 16%nat ->
  (m ← int_2 (take 10 (map digit bits));
   e ← int_2 (rev (drop 10 (map digit bits)));
   Ok (decimal_value m e))
  = Ok (decimal_value (bits_value (take 10 bits))
                      (bits_value (rev (drop 10 bits)))).
Proof.
  intros Hlen.
  rewrite firstn_map, skipn_map, <- map_rev.
  rewrite !int_2_digits; [done| |].
  - intros Hnil. apply (f_equal length) in Hnil.
    rewrite length_take, Hlen in Hnil. discriminate.
  - intros Hnil. apply (f_equal length) in Hnil.
    rewrite length_rev, length_drop, Hlen in Hnil. discriminate.
Qed.

Lemma uint16_to_ufloat16_bits u :
  (u < 65536)%N ->
  uint16_to_ufloat16 u
  = Ok (decimal_value (bits_value (take 10 (lsb_bits 16 u)))
                      (bits_value (rev (drop 10 (lsb_bits 16 u))))).
Proof.
  intros Hu. unfold uint16_to_ufloat16. cbv zeta.
  rewrite format_016b_bits by done.
  apply decode_bits, lsb_bits_length.
Qed.

Lemma spec_reversed_stream_bits u : spec_reversed_stream u = lsb_bits 16 u.
Proof. unfold spec_reversed_stream, byte_reversed. by rewrite (lsb_bits_app 8 8). Qed.

(** C1. For every 16-bit unsigned integer [u], [uint16_to_ufloat16 u]
    returns the value of the specification's decode: with the bits of the
    two little-endian bytes each taken from bit 0 up, the first 10 bits are
    the mantissa integer M, the last 6, reversed again, the exponent
    integer E, and the result is (1 + M / 2^10) * 2^(E - 63). *)
Theorem uint16_to_ufloat16_spec (u : N) :
  (u < 65536)%N -> uint16_to_ufloat16 u = Ok (spec_ufloat16 u).
Proof.
  intros Hu. rewrite uint16_to_ufloat16_bits by done.
  unfold spec_ufloat16, spec_mantissa, spec_exponent.
  by rewrite spec_reversed_stream_bits.
Qed.

Lemma uint16_to_ufloat16_spec_witness :
  (0x1234 < 65536)%N /\ uint16_to_ufloat16 0x1234 = Ok (spec_ufloat16 0x1234).
Proof. split; [reflexivity | apply uint16_to_ufloat16_spec; reflexivity]. Defined.

(** C9. On every pair of bytes, [read_custom_float] returns what
    [uint16_to_ufloat16] returns on the little-endian 16-bit value of the
    pair: the decoder on bytes and the decoder that fills the lookup table
    are the same function. *)
Theorem read_custom_float_uint16 (b0 b1 : byte) :
  read_custom_float [b0; b1]
  = uint16_to_ufloat16 (byte_value b0 + 256 * byte_value b1)%N.
Proof.
  pose proof (byte_value_lt b0) as H0. pose proof (byte_value_lt b1) as H1.
  rewrite uint16_to_ufloat16_bits by lia.
  unfold read_custom_float. cbn [getitem lookup list_lookup mbind result_bind].
  rewrite !byte_bits, <- map_app.
  rewrite decode_bits by (rewrite length_app, !lsb_bits_length; done).
  rewrite (lsb_bits_app 8 8 (_ + _)).
  change (2 ^ N.of_nat 8)%N with 256%N.
  replace ((byte_value b0 + 256 * byte_value b1) mod 256)%N with (byte_value b0)
    by (rewrite (N.mul_comm 256), N.Div0.mod_add, N.mod_small; lia).
  replace ((byte_value b0 + 256 * byte_value b1) / 256)%N with (byte_value b1)
    by (rewrite (N.add_comm (byte_value b0)), (N.mul_comm 256),
          N.div_add_l, N.div_small; lia).
  done.
Qed.

(** The decoded value is the dyadic rational [(2^10 + m) / 2^(73 - e)]: an
    11-bit significand and an exponent no lower than -73, which binary64
    represents exactly. *)
Lemma decimal_value_dyadic m e :
  0 <= e <= 63 ->
  (decimal_value m e * inject_Z (2 ^ (73 - e)) == inject_Z (2 ^ 10 + m))%Q.
Proof.
  intros He. unfold decimal_value, power. cbv zeta.
  replace (73 - e) with (10 + (63 - e)) by lia.
  rewrite Z.pow_add_r by lia. rewrite inject_Z_mult.
  replace (e - 63) with (- (63 - e)) by lia.
  rewrite Qpower_opp.
  assert (Hp : (inject_Z (2 ^ (63 - e)) == Qpower 2 (63 - e))%Q).
  { change 2%Q with (inject_Z 2). rewrite <- Zpower_Qpower by lia. reflexivity. }
  rewrite Hp, inject_Z_plus.
  assert (Hnz : ~ (Qpower 2 (63 - e) == 0)%Q).
  { apply Qpower_not_0. discriminate. }
  change (2 ^ 10) with 1024. field. done.
Qed.

(** ** The chunk loops *)

Lemma for_loop_break {X S} (body : S -> X -> result (flow S)) s x xs s' :
  body s x = Ok (Break s') -> for_loop body s (x :: xs) = Ok s'.
Proof. intros H. cbn. by rewrite H. Qed.

Lemma for_loop_continue {X S} (body : S -> X -> result (flow S)) s x xs s' :
  body s x = Ok (Continue s') ->
  for_loop body s (x :: xs) = for_loop body s' xs.
Proof. intros H. cbn. by rewrite H. Qed.

Lemma for_each_Ok_cons {X S} (body : S -> X -> result S) s x xs s'' :
  for_each body s (x :: xs) = Ok s'' ->
  exists s', body s x = Ok s' /\ for_each body s' xs = Ok s''.
Proof. cbn. intros H. apply bind_Ok in H. done. Qed.

(** An invariant of the body is an invariant of the loop. *)
Lemma for_each_invariant {X S} (P : S -> Prop) (body : S -> X -> result S) xs :
  (forall s x s', P s -> body s x = Ok s' -> P s') ->
  forall s s', P s -> for_each body s xs = Ok s' -> P s'.
Proof.
  intros Hbody. induction xs as [|x xs IH]; intros s s' Hs Hrun.
  - cbn in Hrun. by injection Hrun as <-.
  - apply for_each_Ok_cons in Hrun as (s1 & H1 & Hrun). eauto.
Qed.

(** ** Dictionaries *)

Section DictProperties.
Context {K V : Type} `{EqDecision K}.
Implicit Types (d : dict K V) (k : K) (v : V).

Lemma dict_get_set_eq k v d : dict_get k (dict_set k v d) = Some v.
Proof.
  induction d as [|[k' v'] d IH]; cbn.
  - by rewrite decide_True.
  - destruct (decide (k = k')) as [->|Hne]; cbn.
    + by rewrite decide_True.
    + by rewrite decide_False.
Qed.

Lemma dict_get_set_ne k k' v d :
  k <> k' -> dict_get k' (dict_set k v d) = dict_get k' d.
Proof.
  intros Hne. induction d as [|[k0 v0] d IH]; cbn.
  - by rewrite decide_False.
  - destruct (decide (k = k0)) as [->|Hne0]; cbn.
    + by rewrite !decide_False.
    + by rewrite IH.
Qed.

Lemma dict_get_set k k' v d :
  dict_get k' (dict_set k v d)
  = if decide (k = k') then Some v else dict_get k' d.
Proof.
  case_decide as Hk.
  - subst. apply dict_get_set_eq.
  - by apply dict_get_set_ne.
Qed.

Lemma dict_get_None k d : dict_get k d = None <-> k ∉ dict_keys d.
Proof.
  induction d as [|[k' v'] d IH]; cbn.
  - split; [intros _; apply not_elem_of_nil | done].
  - rewrite not_elem_of_cons. case_decide as Hk; [|tauto].
    split; [done | tauto].
Qed.

Lemma dict_get_Some_elem k v d : dict_get k d = Some v -> (k, v) ∈ d.
Proof.
  induction d as [|[k' v'] d IH]; cbn; [done|].
  rewrite elem_of_cons. case_decide as Hk.
  - intros [= ->]. subst. by left.
  - intros Hg. right. auto.
Qed.

Lemma elem_of_dict_keys k v d : (k, v) ∈ d -> k ∈ dict_keys d.
Proof.
  induction d as [|[k' v'] d IH]; cbn; rewrite ?elem_of_nil; [done|].
  rewrite !elem_of_cons. intros [[= -> ->]|Hin]; [by left | right; auto].
Qed.

Lemma dict_get_Some_key k v d : dict_get k d = Some v -> k ∈ dict_keys d.
Proof.
  intros Hg. destruct (dict_get k d) eqn:E; [|done].
  destruct (decide (k ∈ dict_keys d)) as [|Hn]; [done|].
  apply dict_get_None in Hn. congruence.
Qed.

Lemma dict_get_elem k v d :
  NoDup (dict_keys d) -> (k, v) ∈ d -> dict_get k d = Some v.
Proof.
  induction d as [|[k' v'] d IH]; cbn; intros Hnd Hin.
  - by apply elem_of_nil in Hin.
  - apply NoDup_cons in Hnd as [Hk' Hnd].
    apply elem_of_cons in Hin as [[= -> ->]|Hin].
    + by rewrite decide_True.
    + rewrite decide_False; [by apply IH|].
      intros ->. apply Hk'. by eapply elem_of_dict_keys.
Qed.

Lemma dict_keys_set_present k v d :
  k ∈ dict_keys d -> dict_keys (dict_set k v d) = dict_keys d.
Proof.
  induction d as [|[k' v'] d IH]; cbn; intros Hin.
  - by apply elem_of_nil in Hin.
  - case_decide as Hk; cbn; [by subst|].
    apply elem_of_cons in Hin as [->|Hin]; [done|].
    f_equal. by apply IH.
Qed.

Lemma dict_keys_set_absent k v d :
  k ∉ dict_keys d -> dict_keys (dict_set k v d) = dict_keys d ++ [k].
Proof.
  induction d as [|[k' v'] d IH]; cbn; intros Hin; [done|].
  apply not_elem_of_cons in Hin as [Hne Hin].
  rewrite decide_False by done. cbn. f_equal. by apply IH.
Qed.

Lemma dict_set_NoDup k v d :
  NoDup (dict_keys d) -> NoDup (dict_keys (dict_set k v d)).
Proof.
  intros Hnd. destruct (decide (k ∈ dict_keys d)) as [Hin|Hin].
  - by rewrite dict_keys_set_present.
  - rewrite dict_keys_set_absent by done.
    apply NoDup_app. split; [done|]. split; [|apply NoDup_singleton].
    intros x Hx Hx'. apply list_elem_of_singleton in Hx'. by subst.
Qed.

Lemma dict_mem_true k d : dict_mem k d = true <-> k ∈ dict_keys d.
Proof.
  unfold dict_mem. destruct (dict_get k d) eqn:E.
  - split; [intros _; by eapply dict_get_Some_key | done].
  - apply dict_get_None in E. split; [done | tauto].
Qed.
End DictProperties.

(** ** The sub-directory scan *)

Lemma Qgtb_true x y : Qgtb x y = true <-> (y < x)%Q.
Proof.
  unfold Qgtb. destruct (Qlt_le_dec y x) as [Hlt|Hle]; [done|].
  split; [done|]. intros Hlt. by apply Qle_not_lt in Hle.
Qed.

Lemma Qgtb_false x y : Qgtb x y = false <-> (x <= y)%Q.
Proof.
  unfold Qgtb. destruct (Qlt_le_dec y x) as [Hlt|Hle]; [|done].
  split; [done|]. intros Hle. by apply Qle_not_lt in Hle.
Qed.

Lemma running_max_cons key e es cur :
  running_max key (e :: es) cur = running_max key es (running_max key [e] cur).
Proof. cbn. case_decide; [|done]. destruct cur as [v|]; [|done]. by case_match. Qed.

Lemma update_volume_dict_get key vd e :
  dict_get key (update_volume_dict vd e) = running_max key [e] (dict_get key vd).
Proof.
  unfold update_volume_dict. cbn [running_max]. cbv zeta.
  fold (entry_volume_string e).
  destruct (decide (entry_volume_string e = key)) as [<-|Hne].
  - destruct (dict_get (entry_volume_string e) vd) as [v|] eqn:Hv.
    + destruct (Qgtb _ v); [apply dict_get_set_eq | done].
    + apply dict_get_set_eq.
  - destruct (dict_get (entry_volume_string e) vd) as [v|].
    + destruct (Qgtb _ v); [by apply dict_get_set_ne | done].
    + by apply dict_get_set_ne.
Qed.

Lemma fold_update_volume_dict_get key es : forall vd,
  dict_get key (fold_left update_volume_dict es vd)
  = running_max key es (dict_get key vd).
Proof.
  induction es as [|e es IH]; intros vd; [done|].
  rewrite running_max_cons. cbn [fold_left].
  by rewrite IH, update_volume_dict_get.
Qed.

Lemma update_volume_dict_NoDup vd e :
  NoDup (dict_keys vd) -> NoDup (dict_keys (update_volume_dict vd e)).
Proof.
  intros Hnd. unfold update_volume_dict. cbv zeta.
  destruct (dict_get _ vd) as [v|]; [destruct (Qgtb _ v)|];
    auto using dict_set_NoDup.
Qed.

Lemma fold_update_volume_dict_NoDup es : forall vd,
  NoDup (dict_keys vd) ->
  NoDup (dict_keys (fold_left update_volume_dict es vd)).
Proof.
  induction es as [|e es IH]; intros vd Hnd; [done|].
  cbn. apply IH. by apply update_volume_dict_NoDup.
Qed.

(** [running_max] is a maximum: it is the starting value or the half
    slice index of an entry of the key, and it is above all of them. *)
Lemma running_max_spec key es : forall cur r,
  running_max key es cur = Some r ->
  (cur = Some r
   \/ exists e, e ∈ es /\ entry_volume_string e = key
                /\ r = half (SubDirectory.slice_id e))
  /\ (forall c, cur = Some c -> (c <= r)%Q)
  /\ (forall e, e ∈ es -> entry_volume_string e = key ->
                (half (SubDirectory.slice_id e) <= r)%Q).
Proof.
  induction es as [|e es IH]; intros cur r Hr.
  - cbn in Hr. subst cur. split; [by left|]. split.
    + intros c [= ->]. apply Qle_refl.
    + intros e He. by apply elem_of_nil in He.
  - rewrite running_max_cons in Hr. apply IH in Hr as (Hfrom & Hcur & Hall).
    cbn [running_max] in Hfrom, Hcur.
    destruct (decide (entry_volume_string e = key)) as [Hk|Hk].
    + destruct cur as [c|].
      * destruct (Qgtb (half (SubDirectory.slice_id e)) c) eqn:Hgt.
        -- apply Qgtb_true in Hgt. split; [|split].
           ++ right. destruct Hfrom as [[= <-]|(e' & He' & Hk' & ->)].
              ** exists e. by rewrite elem_of_cons; auto.
              ** exists e'. rewrite elem_of_cons. auto.
           ++ intros c' [= <-]. eapply Qle_trans; [|by apply Hcur].
              by apply Qlt_le_weak.
           ++ intros e' He' Hk'. apply elem_of_cons in He' as [->|He'];
                [by apply Hcur | by apply Hall].
        -- apply Qgtb_false in Hgt. split; [|split].
           ++ destruct Hfrom as [Heq|(e' & He' & Hk' & ->)]; [by left|].
              right. exists e'. rewrite elem_of_cons. auto.
           ++ done.
           ++ intros e' He' Hk'. apply elem_of_cons in He' as [->|He'];
                [|by apply Hall].
              eapply Qle_trans; [exact Hgt | by apply Hcur].
      * split; [|split].
        -- right. destruct Hfrom as [[= <-]|(e' & He' & Hk' & ->)].
           ++ exists e. by rewrite elem_of_cons; auto.
           ++ exists e'. rewrite elem_of_cons. auto.
        -- done.
        -- intros e' He' Hk'. apply elem_of_cons in He' as [->|He'];
             [by apply Hcur | by apply Hall].
    + split; [|split].
      * destruct Hfrom as [Heq|(e' & He' & Hk' & ->)]; [by left|].
        right. exists e'. rewrite elem_of_cons. auto.
      * done.
      * intros e' He' Hk'. apply elem_of_cons in He' as [->|He'];
          [done | by apply Hall].
Qed.

Lemma running_max_observed key es : forall cur,
  (exists e, e ∈ es /\ entry_volume_string e = key) ->
  is_Some (running_max key es cur).
Proof.
  assert (Hsome : forall es' v, is_Some (running_max key es' (Some v))).
  { induction es' as [|e es' IH]; intros v; cbn; [done|].
    case_decide; [|done]. by case_match. }
  induction es as [|e es IH]; intros cur (e0 & He0 & Hk0).
  - by apply elem_of_nil in He0.
  - cbn. apply elem_of_cons in He0 as [<-|He0].
    + rewrite decide_True by done. destruct cur as [v|]; [|done].
      by case_match.
    + case_decide; [destruct cur as [v|]; [case_match|]|]; eauto.
Qed.

(** The second pass computes [volume_dict] and [chunk_stack] entry by
    entry, in the order in which [scanned_entries] lists them. *)
Lemma scan_entries_fold n data : forall f cs vd s',
  scan_entries n data (f, cs, vd) = Ok s' ->
  exists es, entries_at n data f = Ok es
             /\ s'.1.2 = fold_left update_chunk_stack es cs
             /\ s'.2 = fold_left update_volume_dict es vd.
Proof.
  induction n as [|n IH]; intros f cs vd s' Hrun.
  - cbn in Hrun. injection Hrun as <-. by exists [].
  - cbn [scan_entries entries_at] in *. apply bind_Ok in Hrun as (s1 & H1 & Hrun).
    unfold scan_entry in H1. destruct (f_read data f 44) as [raw f1].
    apply bind_Ok in H1 as (chunk & Hchunk & [= <-]).
    apply IH in Hrun as (es & Hes & Hcs & Hvd).
    exists (chunk :: es). rewrite Hchunk. cbn. rewrite Hes. done.
Qed.

Lemma scan_fold data ds : forall cs vd cs' vd',
  for_each (scan_directory data) (cs, vd) ds = Ok (cs', vd') ->
  exists es, scanned_entries data ds = Ok es
             /\ cs' = fold_left update_chunk_stack es cs
             /\ vd' = fold_left update_volume_dict es vd.
Proof.
  induction ds as [|position ds IH]; intros cs vd cs' vd' Hrun.
  - cbn in Hrun. injection Hrun as <- <-. by exists [].
  - apply for_each_Ok_cons in Hrun as ([cs1 vd1] & H1 & Hrun).
    cbn [scanned_entries]. unfold scan_directory in H1.
    destruct (f_read data (f_seek position) 52) as [raw f].
    apply bind_Ok in H1 as (directory_chunk & Hdir & H1).
    apply bind_Ok in H1 as (s1 & Hs1 & [= Hcs1 Hvd1]).
    apply scan_entries_fold in Hs1 as (here & Hhere & Hcs & Hvd).
    rewrite Hcs in Hcs1. rewrite Hvd in Hvd1. subst cs1 vd1.
    apply IH in Hrun as (others & Hothers & -> & ->).
    exists (here ++ others). rewrite Hdir. cbn. rewrite Hhere. cbn.
    rewrite Hothers. cbn. by rewrite !fold_left_app.
Qed.

Lemma scan_volume_dict_NoDup data ds cs vd :
  scan data ds = Ok (cs, vd) -> NoDup (dict_keys vd).
Proof.
  intros Hscan. apply scan_fold in Hscan as (es & _ & _ & ->).
  apply fold_update_volume_dict_NoDup. apply NoDup_nil_2.
Qed.

(** ** The initial volumes *)

Lemma fold_init_step_get key vd : forall acc,
  NoDup (dict_keys vd) ->
  dict_get key (fold_left init_step vd acc)
  = match dict_get key vd with
    | Some n =>
        if Qgtb n 0
        then Some (repeat (PyInt 0) (Z.to_nat (py_int (n + 1))))
        else dict_get key acc
    | None => dict_get key acc
    end.
Proof.
  induction vd as [|[k n] vd IH]; intros acc Hnd; [done|].
  cbn [dict_keys map fst] in Hnd. apply NoDup_cons in Hnd as [Hk Hnd].
  cbn [fold_left dict_get]. rewrite IH by done.
  destruct (decide (key = k)) as [->|Hne].
  - apply dict_get_None in Hk. rewrite Hk. unfold init_step.
    destruct (Qgtb n 0); [apply dict_get_set_eq | done].
  - assert (dict_get key (init_step acc (k, n)) = dict_get key acc) as ->; [|done].
    unfold init_step. destruct (Qgtb n 0); [by apply dict_get_set_ne | done].
Qed.

Lemma init_volume_array_dict_get key vd :
  NoDup (dict_keys vd) ->
  dict_get key (init_volume_array_dict vd)
  = match dict_get key vd with
    | Some n =>
        if Qgtb n 0
        then Some (repeat (PyInt 0) (Z.to_nat (py_int (n + 1))))
        else None
    | None => None
    end.
Proof. intros Hnd. unfold init_volume_array_dict. by rewrite fold_init_step_get. Qed.

Lemma py_int_half_succ m :
  0 < m -> Z.to_nat (py_int (half m + 1)) = (Z.to_nat (py_int (half m)) + 1)%nat.
Proof.
  intros Hm. unfold py_int, half. cbn.
  change (Z.pos (1 * 2 * 1)) with 2. change (Z.pos (1 * 2)) with 2.
  rewrite !Z.quot_div_nonneg by lia.
  replace (m * 1 * 1 + 1 * 2) with (m * 1 + 1 * 2) by lia.
  rewrite Z.div_add by lia. pose proof (Z.div_pos (m * 1) 2). lia.
Qed.

Lemma half_pos m : (0 < half m)%Q <-> 0 < m.
Proof. unfold half, Qlt. cbn. lia. Qed.

(** C4. For every volume key observed during the sub-directory scan,
    with [m / 2] the maximum of [slice_id / 2] over the entries of that
    key: when [m / 2 > 0] the slice sequence initialised for the key has
    length [int(m / 2) + 1], and when [m / 2 <= 0] the key is not
    initialised. *)
Theorem initialised_slice_sequence data directory_stack chunk_stack volume_dict :
  scan data directory_stack = Ok (chunk_stack, volume_dict) ->
  exists entries,
    scanned_entries data directory_stack = Ok entries
    /\ forall key,
         (exists e, e ∈ entries /\ entry_volume_string e = key) ->
         exists m : Z,
           (exists e, e ∈ entries /\ entry_volume_string e = key
                      /\ SubDirectory.slice_id e = m)
           /\ (forall e, e ∈ entries -> entry_volume_string e = key ->
                         (half (SubDirectory.slice_id e) <= half m)%Q)
           /\ ((0 < half m)%Q ->
               exists volume,
                 dict_get key (init_volume_array_dict volume_dict) = Some volume
                 /\ length volume = (Z.to_nat (py_int (half m)) + 1)%nat)
           /\ ((half m <= 0)%Q ->
               dict_get key (init_volume_array_dict volume_dict) = None).
Proof.
  intros Hscan. pose proof (scan_volume_dict_NoDup _ _ _ _ Hscan) as Hnd.
  apply scan_fold in Hscan as (entries & Hentries & _ & Hvd).
  exists entries. split; [done|]. intros key Hobs.
  pose proof (fold_update_volume_dict_get key entries []) as Hget.
  rewrite <- Hvd in Hget. cbn [dict_get] in Hget.
  destruct (running_max_observed key entries None Hobs) as [r Hr].
  rewrite Hr in Hget.
  apply running_max_spec in Hr as ([[=]|(e & He & Hk & ->)] & _ & Hmax).
  exists (SubDirectory.slice_id e). split; [eauto|]. split; [done|].
  rewrite (init_volume_array_dict_get key volume_dict Hnd), Hget. split.
  - intros Hpos. apply Qgtb_true in Hpos as Hgt. rewrite Hgt.
    eexists. split; [done|]. rewrite repeat_length.
    apply py_int_half_succ. by apply half_pos.
  - intros Hle. apply Qgtb_false in Hle. by rewrite Hle.
Qed.

(** ** List assignment *)

Lemma setitem_length {A} (l l' : list A) i x :
  setitem l i x = Ok l' -> length l' = length l.
Proof.
  unfold setitem. cbv zeta. repeat case_decide; intros [= <-];
    by rewrite length_insert.
Qed.

Lemma setitem_last {A} (front : list A) y x :
  setitem (front ++ [y]) (-1) x = Ok (front ++ [x]).
Proof.
  unfold setitem. cbv zeta. rewrite length_app. cbn [length].
  rewrite decide_False by lia. rewrite decide_True by lia. f_equal.
  replace (Z.to_nat (Z.of_nat (length front + 1) + -1)) with (length front + 0)%nat
    by lia.
  by rewrite insert_app_r.
Qed.

Lemma repeat_lookup {A} (x : A) n i :
  (i < n)%nat -> repeat x n !! i = Some x.
Proof.
  revert i. induction n as [|n IH]; intros [|i] Hi; cbn; try lia; [done|].
  apply IH. lia.
Qed.

Lemma nonempty_snoc {A} (l : list A) :
  l <> [] -> exists front y, l = front ++ [y].
Proof.
  intros Hne. destruct (rev l) as [|y r] eqn:Hr.
  - apply (f_equal (@rev A)) in Hr. rewrite rev_involutive in Hr. done.
  - exists (rev r), y. apply (f_equal (@rev A)) in Hr.
    by rewrite rev_involutive in Hr.
Qed.

Lemma slice_index_0 : slice_index 0 = -1.
Proof. reflexivity. Qed.

Lemma slice_index_1 : slice_index 1 = -1.
Proof. reflexivity. Qed.

Lemma py_int_succ_pos n : (0 < n)%Q -> 0 < py_int (n + 1).
Proof.
  destruct n as [a b]. unfold Qlt, py_int. cbn. intros Ha.
  rewrite Z.quot_div_nonneg by lia.
  apply Z.div_str_pos. lia.
Qed.

Lemma init_volume_array_dict_nonempty vd key volume :
  dict_get key (init_volume_array_dict vd) = Some volume -> volume <> [].
Proof.
  unfold init_volume_array_dict.
  assert (Hacc : forall k l, dict_get k (@nil (string * list element)) = Some l -> l <> [])
    by done.
  revert Hacc. generalize (@nil (string * list element)).
  induction vd as [|[k n] vd IH]; intros acc Hacc; cbn [fold_left]; [by eauto|].
  apply IH. intros k' l. unfold init_step.
  destruct (Qgtb n 0) eqn:Hgt; [|by eauto].
  rewrite dict_get_set. case_decide; [|by eauto].
  intros [= <-]. apply Qgtb_true, py_int_succ_pos in Hgt.
  destruct (Z.to_nat (py_int (n + 1))) eqn:E; [lia | done].
Qed.

Lemma for_each_app {X S} (body : S -> X -> result S) xs ys : forall s,
  for_each body s (xs ++ ys) = for_each body s xs ≫= (fun s' => for_each body s' ys).
Proof.
  induction xs as [|x xs IH]; intros s; [done|].
  cbn. destruct (body s x) as [s1|e]; cbn; [apply IH | done].
Qed.

Lemma setitem_Ok {A} (l l' : list A) i x :
  setitem l i x = Ok l' ->
  valid_index (length l) i /\ l' = <[norm_index (length l) i := x]> l.
Proof.
  unfold setitem, valid_index, norm_index. cbv zeta.
  repeat case_decide; intros [= <-]; (split; [lia|]); f_equal; lia.
Qed.

Lemma norm_index_lt n i : valid_index n i -> (norm_index n i < n)%nat.
Proof. unfold valid_index, norm_index. case_decide; lia. Qed.

Section DictUpdates.
Context {K V : Type} `{EqDecision K}.
Implicit Types (d : dict K V) (k : K) (v : V).

Lemma dict_set_set k v v' d : dict_set k v (dict_set k v' d) = dict_set k v d.
Proof.
  induction d as [|[k0 v0] d IH]; cbn.
  - by rewrite decide_True.
  - case_decide; cbn.
    + by rewrite decide_True.
    + rewrite decide_False by done. by rewrite IH.
Qed.

Lemma dict_set_id k v d : dict_get k d = Some v -> dict_set k v d = d.
Proof.
  induction d as [|[k0 v0] d IH]; cbn; [done|].
  case_decide.
  - intros [= ->]. by subst.
  - intros Hg. by rewrite IH.
Qed.

Lemma dict_get_elem_iff k v d :
  NoDup (dict_keys d) -> dict_get k d = Some v <-> (k, v) ∈ d.
Proof. split; [apply dict_get_Some_elem | by apply dict_get_elem]. Qed.
End DictUpdates.
Section ReaderProperties.
Context {date sample : Type}.
Context (acquisition_date_of : Z -> result date).
Context (gamma : Q -> Q).
Context (contour_value : Z -> sample).
Context (allocates : Z -> bool).

Abbreviation oct_state := (@oct_state date sample).
Abbreviation oct_chunk :=
  (oct_chunk acquisition_date_of gamma contour_value allocates).
Abbreviation oct_chunk_loop :=
  (oct_chunk_loop acquisition_date_of gamma contour_value allocates).
Abbreviation fundus_state := (@fundus_state date).
Abbreviation fundus_chunk := (fundus_chunk allocates).
Abbreviation fundus_chunk_loop := (fundus_chunk_loop allocates).

(** One iteration of the loop of [read_oct_volume], once the chunk
    header is known. *)
Lemma oct_chunk_header LUT data (st : oct_state) start size chunk :
  chunk_at data start = Ok chunk ->
  oct_chunk LUT data st (start, size)
  = let f := payload_pos data start in
    if decide (Chunk.type chunk = 9) then
      Ok (Continue (set_self (patient_chunk (self st) (f_read data f 127).1) st))
    else if decide (Chunk.type chunk = 10004) then
      self' ← bscan_chunk acquisition_date_of data f (self st);
      Ok (Continue (set_self self' st))
    else if decide (Chunk.type chunk = 11) then
      Ok (Continue
            (set_laterality
               (laterality_chunk (laterality st) (f_read data f 20).1) st))
    else if decide (Chunk.type chunk = 10019) then
      contour_dict' ← contour_chunk contour_value allocates data f chunk (contour_dict st);
      Ok (Continue (set_contour_dict contour_dict' st))
    else if decide (Chunk.type chunk = 1073741824) then
      oct_image_chunk gamma allocates LUT data f chunk st
    else Ok (Continue st).
Proof.
  unfold chunk_at, payload_pos, oct_chunk. intros Hc.
  destruct (f_read data (f_seek start) 60) as [raw f]. cbn [fst snd] in *.
  rewrite Hc. cbn [mbind result_bind].
  repeat case_decide; done.
Qed.

(** One iteration of the loop of [read_fundus_image], once the chunk
    header is known. *)
Lemma fundus_chunk_header data (st : fundus_state) start size chunk :
  chunk_at data start = Ok chunk ->
  fundus_chunk data st (start, size)
  = let f := payload_pos data start in
    if decide (Chunk.type chunk = 9) then
      Ok (Continue
            {| fundus_self :=
                 patient_chunk (fundus_self st) (f_read data f 127).1;
               image_array_dict := image_array_dict st;
               fundus_laterality_dict := fundus_laterality_dict st;
               fundus_laterality := fundus_laterality st |})
    else if decide (Chunk.type chunk = 11) then
      Ok (Continue
            (set_fundus_laterality
               (laterality_chunk (fundus_laterality st) (f_read data f 20).1)
               st))
    else if decide (Chunk.type chunk = 1073741824) then
      fundus_image_chunk allocates data f chunk st
    else Ok (Continue st).
Proof.
  unfold chunk_at, payload_pos, fundus_chunk. intros Hc.
  destruct (f_read data (f_seek start) 60) as [raw f]. cbn [fst snd] in *.
  rewrite Hc. cbn [mbind result_bind].
  destruct (decide (Chunk.type chunk = 9)) as [H9|H9].
  - destruct (f_read data f 127) as [raw' f']. cbn [fst].
    rewrite !decide_False by (rewrite H9; done). done.
  - destruct (decide (Chunk.type chunk = 11)) as [H11|H11].
    + destruct (f_read data f 20) as [raw' f']. cbn [fst].
      rewrite decide_False by (rewrite H11; done). done.
    + done.
Qed.

(** C2 (amended). An image chunk (type 1073741824) whose header has
    [width * height = 0] ends the chunk loop of [read_fundus_image]
    whatever its [ind]; it ends the chunk loop of [read_oct_volume]
    when its [ind] is 1, and when its [ind] is not 1 that loop skips
    the chunk and goes on with the remaining chunk references. *)
Theorem zero_sized_image_chunk LUT data (st : oct_state) (fs : fundus_state)
    start size rest chunk image_data :
  chunk_at data start = Ok chunk ->
  Chunk.type chunk = 1073741824 ->
  image_header_at data start = Ok image_data ->
  Image.width image_data * Image.height image_data = 0 ->
  fundus_chunk_loop data fs ((start, size) :: rest) = Ok fs
  /\ (Chunk.ind chunk = 1 ->
      oct_chunk_loop LUT data st ((start, size) :: rest) = Ok st)
  /\ (Chunk.ind chunk <> 1 ->
      oct_chunk_loop LUT data st ((start, size) :: rest)
      = oct_chunk_loop LUT data st rest).
Proof.
  intros Hc Ht Hi Hz. unfold image_header_at in Hi.
  assert (Hcount : Image.height image_data * Image.width image_data = 0) by lia.
  split; [|split].
  - apply for_loop_break. rewrite (fundus_chunk_header _ _ _ _ _ Hc).
    cbv zeta. rewrite Ht. rewrite !decide_False by done.
    rewrite decide_True by done. unfold fundus_image_chunk.
    destruct (f_read data (payload_pos data start) 20) as [raw f].
    cbn [fst] in Hi. rewrite Hi. cbn [mbind result_bind].
    by rewrite decide_True.
  - intros Hind. apply for_loop_break. rewrite (oct_chunk_header _ _ _ _ _ _ Hc).
    cbv zeta. rewrite Ht. rewrite !decide_False by done.
    rewrite decide_True by done. unfold oct_image_chunk.
    destruct (f_read data (payload_pos data start) 20) as [raw f].
    cbn [fst] in Hi. rewrite Hi. cbn [mbind result_bind].
    by rewrite !decide_True.
  - intros Hind. apply for_loop_continue.
    rewrite (oct_chunk_header _ _ _ _ _ _ Hc).
    cbv zeta. rewrite Ht. rewrite !decide_False by done.
    rewrite decide_True by done. unfold oct_image_chunk.
    destruct (f_read data (payload_pos data start) 20) as [raw f].
    cbn [fst] in Hi. rewrite Hi. cbn [mbind result_bind].
    by rewrite decide_False.
Qed.

(** C7 (amended). A laterality chunk (type 11) sets the current
    laterality to R when its code is 82 and to L when it is 76; when
    the record cannot be decoded the current laterality becomes
    absent; any other code leaves the current laterality as it was.
    Both readers do so. *)
Theorem laterality_chunk_effect LUT data (st : oct_state) (fs : fundus_state)
    start size chunk :
  chunk_at data start = Ok chunk ->
  Chunk.type chunk = 11 ->
  exists after : option string -> option string,
    oct_chunk LUT data st (start, size)
    = Ok (Continue (set_laterality (after (laterality st)) st))
    /\ fundus_chunk data fs (start, size)
       = Ok (Continue (set_fundus_laterality (after (fundus_laterality fs)) fs))
    /\ forall current,
         match laterality_code_at data start with
         | Ok code =>
             if decide (code = 82) then after current = Some "R"%string
             else if decide (code = 76) then after current = Some "L"%string
             else after current = current
         | Raise _ => after current = None
         end.
Proof.
  intros Hc Ht.
  exists (fun current =>
            laterality_chunk current (f_read data (payload_pos data start) 20).1).
  split; [|split].
  - rewrite (oct_chunk_header _ _ _ _ _ _ Hc). cbv zeta. rewrite Ht.
    rewrite !decide_False by done. by rewrite decide_True.
  - rewrite (fundus_chunk_header _ _ _ _ _ Hc). cbv zeta. rewrite Ht.
    rewrite !decide_False by done. by rewrite decide_True.
  - intros current. unfold laterality_code_at, laterality_chunk.
    destruct (parse lat_structure _) as [d|e]; [|done].
    repeat case_decide; done.
Qed.

(** *** Where an image is stored *)

Lemma bind_laterality_volume_array_dict vs (st : oct_state) :
  volume_array_dict (bind_laterality vs st) = volume_array_dict st.
Proof. unfold bind_laterality. by case_match. Qed.

Lemma bind_laterality_additional vs (st : oct_state) :
  volume_array_dict_additional (bind_laterality vs st)
  = volume_array_dict_additional st.
Proof. unfold bind_laterality. by case_match. Qed.

(** [store_image] on a key with a list in [volume_array_dict]. *)
Lemma store_image_primary (st : oct_state) vs slice_id image volume :
  dict_get vs (volume_array_dict st) = Some volume ->
  match setitem volume (slice_index slice_id) (Slice image) with
  | Ok volume' =>
      exists st', store_image st vs slice_id image = Ok st'
        /\ volume_array_dict st' = dict_set vs volume' (volume_array_dict st)
        /\ volume_array_dict_additional st' = volume_array_dict_additional st
  | Raise e => store_image st vs slice_id image = Raise e
  end.
Proof.
  intros Hv. unfold store_image. rewrite Hv.
  destruct (setitem volume _ _) as [volume'|e]; cbn [mbind result_bind]; [|done].
  eexists. split; [done|].
  by rewrite bind_laterality_volume_array_dict, bind_laterality_additional.
Qed.

(** [store_image] on a key without a list in [volume_array_dict]. *)
Lemma store_image_additional (st : oct_state) vs slice_id image :
  dict_get vs (volume_array_dict st) = None ->
  exists st', store_image st vs slice_id image = Ok st'
    /\ volume_array_dict st' = volume_array_dict st
    /\ volume_array_dict_additional st'
       = dict_set vs
           (dict_get_default [] vs (volume_array_dict_additional st)
            ++ [Slice image])
           (volume_array_dict_additional st).
Proof.
  intros Hv. unfold store_image, dict_get_default. rewrite Hv.
  destruct (dict_get vs (volume_array_dict_additional st)) as [images|];
    cbn [mbind result_bind]; (eexists; split; [done|]);
    by rewrite bind_laterality_volume_array_dict, bind_laterality_additional.
Qed.

Lemma store_image_same_shape (st st' : oct_state) vs slice_id image :
  store_image st vs slice_id image = Ok st' ->
  same_shape (volume_array_dict st) (volume_array_dict st').
Proof.
  intros Hs. destruct (dict_get vs (volume_array_dict st)) as [volume|] eqn:Hv.
  - pose proof (store_image_primary st vs slice_id image volume Hv) as Hp.
    destruct (setitem volume _ _) as [volume'|e] eqn:Hset; [|congruence].
    destruct Hp as (st1 & Hst1 & Hvad & _).
    assert (st1 = st') as -> by congruence.
    right. exists vs, volume, volume'. eauto using setitem_length.
  - destruct (store_image_additional st vs slice_id image Hv)
      as (st1 & Hst1 & Hvad & _).
    assert (st1 = st') as -> by congruence. by left.
Qed.

Lemma oct_image_chunk_same_shape LUT data f chunk (st : oct_state) fl :
  oct_image_chunk gamma allocates LUT data f chunk st = Ok fl ->
  same_shape (volume_array_dict st) (volume_array_dict (flow_state fl)).
Proof.
  unfold oct_image_chunk. destruct (f_read data f 20) as [raw f'].
  intros Hrun. apply bind_Ok in Hrun as (image_data & _ & Hrun).
  repeat case_decide; try (injection Hrun as <-; by left).
  apply bind_Ok in Hrun as (raw_volume & _ & Hrun).
  destruct (lut_index LUT _ ≫= _) as [image|e];
    [|injection Hrun as <-; by left].
  apply bind_Ok in Hrun as (st' & Hstore & [= <-]).
  by eapply store_image_same_shape.
Qed.

Lemma oct_chunk_same_shape LUT data (st : oct_state) ref fl :
  oct_chunk LUT data st ref = Ok fl ->
  same_shape (volume_array_dict st) (volume_array_dict (flow_state fl)).
Proof.
  destruct ref as [start size]. unfold oct_chunk.
  destruct (f_read data (f_seek start) 60) as [raw f].
  intros Hrun. apply bind_Ok in Hrun as (chunk & _ & Hrun).
  repeat case_decide.
  - destruct (f_read data f 127). injection Hrun as <-. by left.
  - apply bind_Ok in Hrun as (self' & _ & [= <-]). by left.
  - destruct (f_read data f 20). injection Hrun as <-. by left.
  - apply bind_Ok in Hrun as (cd & _ & [= <-]). by left.
  - by eapply oct_image_chunk_same_shape.
  - injection Hrun as <-. by left.
Qed.

(** In every state of the loop, [volume_array_dict] has the keys it
    was initialised with, and none of its lists is empty. *)
Lemma oct_reachable_volume_array_dict LUT data self0 vd (st : oct_state) :
  oct_reachable acquisition_date_of gamma contour_value allocates LUT data self0 vd st ->
  (forall key, is_Some (dict_get key (volume_array_dict st))
               <-> is_Some (dict_get key (init_volume_array_dict vd)))
  /\ (forall key volume,
        dict_get key (volume_array_dict st) = Some volume -> volume <> []).
Proof.
  assert (Hstep : forall (st st' : oct_state),
    same_shape (volume_array_dict st) (volume_array_dict st') ->
    (forall key, is_Some (dict_get key (volume_array_dict st))
                 <-> is_Some (dict_get key (init_volume_array_dict vd)))
    /\ (forall key volume,
          dict_get key (volume_array_dict st) = Some volume -> volume <> []) ->
    (forall key, is_Some (dict_get key (volume_array_dict st'))
                 <-> is_Some (dict_get key (init_volume_array_dict vd)))
    /\ (forall key volume,
          dict_get key (volume_array_dict st') = Some volume -> volume <> [])).
  { intros s s' [->|(vs & volume & volume' & Hv & Hlen & ->)] [Hkeys Hne];
      [done|]. split.
    - intros key. rewrite <- Hkeys, dict_get_set.
      case_decide; [subst; rewrite Hv|]; done.
    - intros key l. rewrite dict_get_set. case_decide; [|by eauto].
      intros [= <-]. apply Hne in Hv. by destruct volume, volume'. }
  induction 1 as [|st ref st' _ IH Hrun|st ref st' _ IH Hrun].
  - split; [done|]. apply init_volume_array_dict_nonempty.
  - apply (Hstep st st'); [|done].
    by apply (oct_chunk_same_shape _ _ _ _ _ Hrun).
  - apply (Hstep st st'); [|done].
    by apply (oct_chunk_same_shape _ _ _ _ _ Hrun).
Qed.

(** C6 (amended). A decoded B-scan image goes to the additional bucket
    exactly when its volume id has no initialised slice sequence: no
    sub-directory record, or records whose maximum [slice_id / 2] is
    not positive.  Otherwise it is assigned at index
    [int(slice_id / 2) - 1] of the list of its volume, with Python's
    indexing: a negative index counts from the end, and an index
    outside the list raises [IndexError]. *)
Theorem decoded_image_routing LUT data self0 directory_stack chunk_stack
    volume_dict (st : oct_state) volume_string slice_id image :
  scan data directory_stack = Ok (chunk_stack, volume_dict) ->
  oct_reachable acquisition_date_of gamma contour_value allocates LUT data self0
    volume_dict st ->
  if match dict_get volume_string volume_dict with
     | Some num_slices => Qgtb num_slices 0
     | None => false
     end
  then
    exists volume,
      dict_get volume_string (volume_array_dict st) = Some volume
      /\ match setitem volume (slice_index slice_id) (Slice image) with
         | Ok volume' =>
             exists st', store_image st volume_string slice_id image = Ok st'
               /\ dict_get volume_string (volume_array_dict st') = Some volume'
               /\ volume_array_dict_additional st'
                  = volume_array_dict_additional st
         | Raise e => store_image st volume_string slice_id image = Raise e
         end
  else
    exists st', store_image st volume_string slice_id image = Ok st'
      /\ volume_array_dict st' = volume_array_dict st
      /\ dict_get volume_string (volume_array_dict_additional st')
         = Some (dict_get_default [] volume_string
                   (volume_array_dict_additional st) ++ [Slice image]).
Proof.
  intros Hscan Hreach.
  apply scan_volume_dict_NoDup in Hscan as Hnd.
  apply oct_reachable_volume_array_dict in Hreach as [Hkeys _].
  specialize (Hkeys volume_string).
  rewrite (init_volume_array_dict_get _ _ Hnd) in Hkeys.
  destruct (dict_get volume_string volume_dict) as [n|];
    [destruct (Qgtb n 0)|].
  - destruct Hkeys as [_ [volume Hv]]; [done|]. exists volume. split; [done|].
    pose proof (store_image_primary st volume_string slice_id image volume Hv) as Hp.
    destruct (setitem volume _ _) as [volume'|e]; [|done].
    destruct Hp as (st' & Hst' & Hvad & Hadd). exists st'.
    split; [done|]. split; [|done]. rewrite Hvad. apply dict_get_set_eq.
  - destruct (dict_get volume_string (volume_array_dict st)) eqn:Hv;
      [by destruct Hkeys as [[? [=]] _]|].
    destruct (store_image_additional st volume_string slice_id image Hv)
      as (st' & Hst' & Hvad & Hadd).
    exists st'. split; [done|]. split; [done|].
    rewrite Hadd. apply dict_get_set_eq.
  - destruct (dict_get volume_string (volume_array_dict st)) eqn:Hv;
      [by destruct Hkeys as [[? [=]] _]|].
    destruct (store_image_additional st volume_string slice_id image Hv)
      as (st' & Hst' & Hvad & Hadd).
    exists st'. split; [done|]. split; [done|].
    rewrite Hadd. apply dict_get_set_eq.
Qed.

(** C10. For an image chunk whose [slice_id] is 0 or 1 and whose
    volume id has an initialised slice sequence, the index
    [int(slice_id / 2) - 1] is -1 and the image is stored in the last
    slot of that sequence. *)
Theorem first_slice_wraps_around LUT data self0 volume_dict (st : oct_state)
    volume_string slice_id image volume :
  oct_reachable acquisition_date_of gamma contour_value allocates LUT data self0
    volume_dict st ->
  dict_get volume_string (volume_array_dict st) = Some volume ->
  slice_id = 0 \/ slice_id = 1 ->
  slice_index slice_id = -1
  /\ exists front last st',
       volume = front ++ [last]
       /\ store_image st volume_string slice_id image = Ok st'
       /\ dict_get volume_string (volume_array_dict st')
          = Some (front ++ [Slice image]).
Proof.
  intros Hreach Hv Hid.
  assert (Hidx : slice_index slice_id = -1)
    by (destruct Hid as [->| ->]; reflexivity).
  split; [done|].
  apply oct_reachable_volume_array_dict in Hreach as [_ Hne].
  destruct (nonempty_snoc volume (Hne _ _ Hv)) as (front & last & ->).
  pose proof (store_image_primary st volume_string slice_id image _ Hv) as Hp.
  rewrite Hidx, setitem_last in Hp. destruct Hp as (st' & Hst' & Hvad & _).
  exists front, last, st'. split; [done|]. split; [done|].
  rewrite Hvad. apply dict_get_set_eq.
Qed.

(** *** The returned volumes *)

Lemma append_volume_returned (st : oct_state) contour_data oct_volumes item
    oct_volumes' (P : OCTVolumeWithMetaData.t date sample -> Prop) :
  (forall v, 
     OCTVolumeWithMetaData.num_slices v = length (OCTVolumeWithMetaData.volume v)
     -> (exists image, OCTVolumeWithMetaData.volume v !! 0%nat = Some (Slice image))
     -> P v) ->
  append_volume st contour_data oct_volumes item = Ok oct_volumes' ->
  Forall P oct_volumes -> Forall P oct_volumes'.
Proof.
  intros HP Hrun Hall. destruct item as [key volume]. unfold append_volume in Hrun.
  apply bind_Ok in Hrun as (first & Hfirst & Hrun).
  destruct first as [n|image]; cbn [isinstance_int] in Hrun.
  - by injection Hrun as <-.
  - apply bind_Ok in Hrun as (patient_id & _ & [= <-]).
    apply Forall_app. split; [done|]. apply Forall_singleton. apply HP; [done|].
    exists image. cbn. unfold getitem in Hfirst.
    destruct (volume !! 0%nat); congruence.
Qed.

(** C5 (amended). For every volume [read_oct_volume] returns,
    [num_slices] is the length of its slice sequence, that length is
    positive, and the first slot holds a decoded image; the other
    slots may still hold the integer placeholder. *)
Theorem returned_volume_slots fuel self0 data self' oct_volumes :
  read_oct_volume acquisition_date_of gamma contour_value allocates fuel self0 data
  = Ok (self', oct_volumes) ->
  Forall (fun v =>
            OCTVolumeWithMetaData.num_slices v
            = length (OCTVolumeWithMetaData.volume v)
            /\ (0 < length (OCTVolumeWithMetaData.volume v))%nat
            /\ exists image,
                 OCTVolumeWithMetaData.volume v !! 0%nat = Some (Slice image))
    oct_volumes.
Proof.
  unfold read_oct_volume. intros Hrun.
  apply bind_Ok in Hrun as (LUT & _ & Hrun).
  destruct (f_read data 0 36) as [raw f].
  apply bind_Ok in Hrun as (header & _ & Hrun).
  destruct (f_read data f 52) as [raw' f'].
  apply bind_Ok in Hrun as (main_directory & _ & Hrun).
  apply bind_Ok in Hrun as (directory_stack & _ & Hrun).
  apply bind_Ok in Hrun as ([chunk_stack volume_dict] & _ & Hrun).
  apply bind_Ok in Hrun as (st & _ & Hrun).
  apply bind_Ok in Hrun as (contour_data & _ & Hrun).
  apply bind_Ok in Hrun as (vols & Hvols & [= _ <-]).
  unfold make_oct_volumes in Hvols.
  revert Hvols. apply for_each_invariant; [|by apply Forall_nil].
  intros acc item acc' Hacc Happ.
  eapply append_volume_returned; [|exact Happ|exact Hacc].
  intros v Hn [image Himage]. split; [done|]. split; [|by exists image].
  apply lookup_lt_Some in Himage. lia.
Qed.

(** *** The contour table *)

Abbreviation contour := (list sample).

Lemma fill_slots_spec (values : dict Z contour) : forall slots slots',
  fill_slots slots values = Ok slots' ->
  length slots' = length slots
  /\ (forall slice_id c, (slice_id, c) ∈ values ->
                         valid_index (length slots) slice_id)
  /\ (forall slice_id c,
        (slice_id, c) ∈ values ->
        (forall slice_id' c',
           (slice_id', c') ∈ values ->
           norm_index (length slots) slice_id'
           = norm_index (length slots) slice_id -> c' = c) ->
        slots' !! norm_index (length slots) slice_id = Some (Some c))
  /\ (forall i,
        (forall slice_id c, (slice_id, c) ∈ values ->
                            norm_index (length slots) slice_id <> i) ->
        slots' !! i = slots !! i).
Proof.
  induction values as [|[sid0 c0] values IH] using rev_ind; intros slots slots' Hrun.
  - cbn in Hrun. injection Hrun as <-. split; [done|].
    split; [|split]; intros; try done; by apply elem_of_nil in H.
  - unfold fill_slots in Hrun. rewrite for_each_app in Hrun.
    apply bind_Ok in Hrun as (slots1 & Hprev & Hlast).
    apply IH in Hprev as (Hlen & Hvalid & Hwritten & Hother).
    cbn in Hlast. apply bind_Ok in Hlast as (slots2 & Hset & [= <-]).
    apply setitem_Ok in Hset as [Hv0 ->]. rewrite Hlen in *.
    split; [by rewrite length_insert|].
    split; [|split].
    + intros sid c Hin. apply elem_of_app in Hin as [Hin|Hin]; [by eauto|].
      apply list_elem_of_singleton in Hin. by injection Hin as -> ->.
    + intros sid c Hin Halias.
      destruct (decide (norm_index (length slots) sid0
                        = norm_index (length slots) sid)) as [Heq|Hne].
      * rewrite <- Heq.
        rewrite list_lookup_insert_eq
          by (rewrite Hlen; by apply norm_index_lt).
        do 2 f_equal. apply (Halias sid0 c0); [|done].
        apply elem_of_app. right. by apply list_elem_of_singleton.
      * rewrite list_lookup_insert_ne by done.
        apply elem_of_app in Hin as [Hin|Hin].
        -- apply Hwritten; [done|]. intros sid' c' Hin' Heq'.
           apply (Halias sid' c'); [|done]. apply elem_of_app. by left.
        -- apply list_elem_of_singleton in Hin. injection Hin as -> ->. done.
    + intros i Hi. rewrite list_lookup_insert_ne.
      * apply Hother. intros sid c Hin. apply (Hi sid c).
        apply elem_of_app. by left.
      * apply (Hi sid0 c0). apply elem_of_app. right.
        by apply list_elem_of_singleton.
Qed.

(** Of the writes to one position, the last one stays. *)
Lemma fill_slots_last_write (values : dict Z contour) : forall slots slots',
  fill_slots slots values = Ok slots' ->
  forall front slice_id c back,
    values = front ++ (slice_id, c) :: back ->
    (forall later, later ∈ dict_keys back ->
                   norm_index (length slots) later
                   <> norm_index (length slots) slice_id) ->
    slots' !! norm_index (length slots) slice_id = Some (Some c).
Proof.
  induction values as [|[sid0 c0] values IH] using rev_ind;
    intros slots slots' Hrun front sid c back Heq Hlater.
  - by destruct front.
  - unfold fill_slots in Hrun. rewrite for_each_app in Hrun.
    apply bind_Ok in Hrun as (slots1 & Hprev & Hlast).
    pose proof (fill_slots_spec _ _ _ Hprev) as (Hlen & _).
    cbn in Hlast. apply bind_Ok in Hlast as (slots2 & Hset & [= <-]).
    apply setitem_Ok in Hset as [Hv0 ->]. rewrite Hlen in *.
    destruct back as [|[sid1 c1] back _] using rev_ind.
    + apply app_inj_tail in Heq as [-> [= -> ->]].
      apply list_lookup_insert_eq. rewrite Hlen. by apply norm_index_lt.
    + rewrite app_comm_cons, app_assoc in Heq.
      apply app_inj_tail in Heq as [-> [= -> ->]].
      rewrite list_lookup_insert_ne.
      * eapply IH; [exact Hprev | reflexivity |].
        intros later Hin. apply Hlater. unfold dict_keys. rewrite map_app.
        apply elem_of_app. by left.
      * apply Hlater. unfold dict_keys. rewrite map_app.
        apply elem_of_app. right. by apply list_elem_of_singleton.
Qed.

Abbreviation contour_table :=
  (dict string (dict string (list (option contour)))).

(** A list assignment raises nothing but [IndexError]. *)
Lemma setitem_raises {A} (l : list A) i x e :
  setitem l i x = Raise e -> e = IndexError.
Proof. unfold setitem. repeat case_decide; congruence. Qed.

Lemma for_each_Raise_cons {X S} (body : S -> X -> result S) s x xs e :
  for_each body s (x :: xs) = Raise e ->
  body s x = Raise e
  \/ exists s', body s x = Ok s' /\ for_each body s' xs = Raise e.
Proof. cbn. destruct (body s x) as [s'|e']; cbn; eauto. Qed.

(** The inner loop: the assignments under one contour name. *)
Lemma write_contours_fill volume_id contour_name (values : dict Z contour) :
  forall (cd cd' : contour_table) by_name slots,
    dict_get volume_id cd = Some by_name ->
    dict_get contour_name by_name = Some slots ->
    for_each (write_contour volume_id contour_name) cd values = Ok cd' ->
    exists slots',
      fill_slots slots values = Ok slots'
      /\ cd' = dict_set volume_id (dict_set contour_name slots' by_name) cd.
Proof.
  induction values as [|[sid c] values IH]; intros cd cd' by_name slots Hv Hn Hrun.
  - cbn in Hrun. injection Hrun as <-. exists slots. split; [done|].
    by rewrite (dict_set_id contour_name slots), (dict_set_id volume_id by_name).
  - apply for_each_Ok_cons in Hrun as (cd1 & H1 & Hrun).
    unfold write_contour, dict_getitem in H1. rewrite Hv in H1.
    cbn [mbind result_bind] in H1. rewrite Hn in H1.
    cbn [mbind result_bind] in H1.
    apply bind_Ok in H1 as (slots1 & Hset & [= <-]).
    eapply (IH _ _ (dict_set contour_name slots1 by_name) slots1) in Hrun
      as (slots' & Hfill & ->); [| apply dict_get_set_eq | apply dict_get_set_eq].
    exists slots'. split.
    + unfold fill_slots. cbn. rewrite Hset. exact Hfill.
    + by rewrite !dict_set_set.
Qed.

(** The middle loop: the contour names of one volume. *)
Lemma contour_names_fill volume_id (contours : dict string (dict Z contour)) :
  forall (cd cd' : contour_table) by_name,
    NoDup (dict_keys contours) ->
    dict_get volume_id cd = Some by_name ->
    (forall name values, (name, values) ∈ contours ->
                         is_Some (dict_get name by_name)) ->
    for_each
      (fun contour_data '(contour_name, contour_values) =>
         for_each (write_contour volume_id contour_name) contour_data
           contour_values)
      cd contours = Ok cd' ->
    exists by_name',
      cd' = dict_set volume_id by_name' cd
      /\ (forall name values,
            dict_get name contours = Some values ->
            exists slots slots',
              dict_get name by_name = Some slots
              /\ fill_slots slots values = Ok slots'
              /\ dict_get name by_name' = Some slots')
      /\ (forall name, dict_get name contours = None ->
                       dict_get name by_name' = dict_get name by_name).
Proof.
  induction contours as [|[name0 values0] contours IH];
    intros cd cd' by_name Hnd Hv Hpresent Hrun.
  - cbn in Hrun. injection Hrun as <-. exists by_name.
    split; [by rewrite dict_set_id|]. split; [done|done].
  - cbn [dict_keys map fst] in Hnd. apply NoDup_cons in Hnd as [Hfresh Hnd].
    apply for_each_Ok_cons in Hrun as (cd1 & H1 & Hrun).
    destruct (Hpresent name0 values0) as [slots0 Hslots0];
      [apply elem_of_cons; by left|].
    eapply write_contours_fill in H1 as (slots0' & Hfill0 & Hcd1); [|done|done].
    subst cd1.
    eapply (IH _ _ (dict_set name0 slots0' by_name)) in Hrun
      as (by_name' & -> & Hfilled & Hrest);
      [|done| apply dict_get_set_eq |].
    2:{ intros name values Hin. rewrite dict_get_set. case_decide; [done|].
        apply (Hpresent name values). apply elem_of_cons. by right. }
    exists by_name'. split; [by rewrite dict_set_set|]. split.
    + intros name values. cbn [dict_get]. case_decide as Hname.
      * intros [= <-]. subst name. exists slots0, slots0'.
        split; [done|]. split; [done|].
        rewrite Hrest by (by apply dict_get_None). apply dict_get_set_eq.
      * intros Hg. destruct (Hfilled name values Hg) as (slots & slots' & Hs & Hf & Hs').
        exists slots, slots'. rewrite dict_get_set_ne in Hs by done. done.
    + intros name. cbn [dict_get]. case_decide as Hname; [done|].
      intros Hg. rewrite (Hrest name Hg). by apply dict_get_set_ne.
Qed.

Lemma empty_contours_get num_slices (contours : dict string (dict Z contour)) name :
  NoDup (dict_keys contours) ->
  dict_get name (empty_contours num_slices contours)
  = match dict_get name contours with
    | Some v => Some (none_list (num_slices_or_len num_slices v))
    | None => None
    end.
Proof.
  unfold empty_contours.
  change (@None (list (option contour)))
    with (dict_get name (@nil (string * list (option contour)))).
  generalize (@nil (string * list (option contour))).
  induction contours as [|[k v] contours IH]; intros acc Hnd; [done|].
  cbn [dict_keys map fst] in Hnd. apply NoDup_cons in Hnd as [Hfresh Hnd].
  cbn [fold_left dict_get]. rewrite IH by done.
  case_decide as Hk.
  - subst k. apply dict_get_None in Hfresh. rewrite Hfresh.
    apply dict_get_set_eq.
  - destruct (dict_get name contours); [done|]. by apply dict_get_set_ne.
Qed.

(** One iteration of the outer loop. *)
Lemma contour_volume_get volume_dict (cd cd' : contour_table) volume_id
    (contours : dict string (dict Z contour)) :
  NoDup (dict_keys contours) ->
  contour_volume volume_dict cd (volume_id, contours) = Ok cd' ->
  (forall other, other <> volume_id -> dict_get other cd' = dict_get other cd)
  /\ exists by_name',
       dict_get volume_id cd' = Some by_name'
       /\ forall name values,
            dict_get name contours = Some values ->
            exists slots',
              fill_slots
                (none_list
                   (num_slices_or_len
                      (contour_num_slices volume_dict volume_id) values))
                values = Ok slots'
              /\ dict_get name by_name' = Some slots'.
Proof.
  intros Hnd Hrun. unfold contour_volume in Hrun.
  cbv zeta in Hrun.
  eapply contour_names_fill in Hrun as (by_name' & -> & Hfilled & _);
    [|done| apply dict_get_set_eq |].
  2:{ intros name values Hin. rewrite empty_contours_get by done.
      by rewrite (dict_get_elem name values contours Hnd Hin). }
  split.
  - intros other Hne. rewrite dict_set_set. by apply dict_get_set_ne.
  - exists by_name'. split; [apply dict_get_set_eq|].
    intros name values Hg.
    destruct (Hfilled name values Hg) as (slots & slots' & Hs & Hf & Hs').
    rewrite empty_contours_get, Hg in Hs by done. injection Hs as <-.
    by exists slots'.
Qed.

Lemma make_contour_data_get volume_dict
    (contour_dict0 : dict string (dict string (dict Z contour))) :
  forall (cd0 cd : contour_table),
    NoDup (dict_keys contour_dict0) ->
    (forall volume_id contours, (volume_id, contours) ∈ contour_dict0 ->
                                NoDup (dict_keys contours)) ->
    for_each (contour_volume volume_dict) cd0 contour_dict0 = Ok cd ->
    (forall volume_id, dict_get volume_id contour_dict0 = None ->
                       dict_get volume_id cd = dict_get volume_id cd0)
    /\ forall volume_id contours,
         dict_get volume_id contour_dict0 = Some contours ->
         exists by_name,
           dict_get volume_id cd = Some by_name
           /\ forall name values,
                dict_get name contours = Some values ->
                exists slots,
                  fill_slots
                    (none_list
                       (num_slices_or_len
                          (contour_num_slices volume_dict volume_id) values))
                    values = Ok slots
                  /\ dict_get name by_name = Some slots.
Proof.
  induction contour_dict0 as [|[vid0 contours0] rest IH];
    intros cd0 cd Hnd Hinner Hrun.
  - cbn in Hrun. injection Hrun as <-. done.
  - cbn [dict_keys map fst] in Hnd. apply NoDup_cons in Hnd as [Hfresh Hnd].
    apply for_each_Ok_cons in Hrun as (cd1 & H1 & Hrun).
    apply contour_volume_get in H1 as [Hother Hhere];
      [|apply (Hinner vid0); apply elem_of_cons; by left].
    apply IH in Hrun as [Hrest Hfilled]; [|done|].
    2:{ intros vid contours Hin. apply (Hinner vid). apply elem_of_cons. by right. }
    split.
    + intros vid. cbn [dict_get]. case_decide as Hvid; [done|].
      intros Hg. rewrite (Hrest vid Hg). by apply Hother.
    + intros vid contours. cbn [dict_get]. case_decide as Hvid.
      * intros [= <-]. subst vid. rewrite Hrest by (by apply dict_get_None).
        exact Hhere.
      * apply Hfilled.
Qed.

(** *** What the loops of the contour table raise

    The lists a contour is written to were created just before, so the
    lookups do not fail: only the list assignment can raise. *)

Lemma write_contours_raise volume_id contour_name (values : dict Z contour) :
  forall (cd : contour_table) by_name slots e,
    dict_get volume_id cd = Some by_name ->
    dict_get contour_name by_name = Some slots ->
    for_each (write_contour volume_id contour_name) cd values = Raise e ->
    e = IndexError.
Proof.
  induction values as [|[sid c] values IH]; intros cd by_name slots e Hv Hn Hrun;
    [done|].
  apply for_each_Raise_cons in Hrun as [H1|(cd1 & H1 & Hrun)];
    unfold write_contour, dict_getitem in H1; rewrite Hv in H1;
    cbn [mbind result_bind] in H1; rewrite Hn in H1;
    cbn [mbind result_bind] in H1.
  - destruct (setitem slots sid (Some c)) as [slots1|e1] eqn:Hset; [done|].
    injection H1 as <-. by eapply setitem_raises.
  - apply bind_Ok in H1 as (slots1 & Hset & [= <-]).
    eapply (IH _ (dict_set contour_name slots1 by_name) slots1);
      [apply dict_get_set_eq | apply dict_get_set_eq | exact Hrun].
Qed.

Lemma contour_names_raise volume_id (contours : dict string (dict Z contour)) :
  forall (cd : contour_table) by_name e,
    NoDup (dict_keys contours) ->
    dict_get volume_id cd = Some by_name ->
    (forall name values, (name, values) ∈ contours ->
                         is_Some (dict_get name by_name)) ->
    for_each
      (fun contour_data '(contour_name, contour_values) =>
         for_each (write_contour volume_id contour_name) contour_data
           contour_values)
      cd contours = Raise e ->
    e = IndexError.
Proof.
  induction contours as [|[name0 values0] contours IH];
    intros cd by_name e Hnd Hv Hpresent Hrun; [done|].
  cbn [dict_keys map fst] in Hnd. apply NoDup_cons in Hnd as [Hfresh Hnd].
  destruct (Hpresent name0 values0) as [slots0 Hslots0];
    [apply elem_of_cons; by left|].
  apply for_each_Raise_cons in Hrun as [H1|(cd1 & H1 & Hrun)].
  - by eapply write_contours_raise.
  - eapply write_contours_fill in H1 as (slots0' & Hfill0 & Hcd1); [|done|done].
    subst cd1.
    eapply (IH _ (dict_set name0 slots0' by_name));
      [done | apply dict_get_set_eq | | exact Hrun].
    intros name values Hin. rewrite dict_get_set. case_decide; [done|].
    apply (Hpresent name values). apply elem_of_cons. by right.
Qed.

Lemma make_contour_data_raise volume_dict
    (contour_dict0 : dict string (dict string (dict Z contour))) :
  forall (cd0 : contour_table) e,
    (forall volume_id contours, (volume_id, contours) ∈ contour_dict0 ->
                                NoDup (dict_keys contours)) ->
    for_each (contour_volume volume_dict) cd0 contour_dict0 = Raise e ->
    e = IndexError.
Proof.
  induction contour_dict0 as [|[vid0 contours0] rest IH];
    intros cd0 e Hinner Hrun; [done|].
  assert (Hnd0 : NoDup (dict_keys contours0))
    by (apply (Hinner vid0); apply elem_of_cons; by left).
  apply for_each_Raise_cons in Hrun as [H1|(cd1 & H1 & Hrun)].
  - unfold contour_volume in H1. cbv zeta in H1.
    eapply contour_names_raise in H1; [done | done | apply dict_get_set_eq |].
    intros name values Hin. rewrite empty_contours_get by done.
    by rewrite (dict_get_elem name values contours0 Hnd0 Hin).
  - eapply IH; [|exact Hrun]. intros vid contours Hin.
    apply (Hinner vid). apply elem_of_cons. by right.
Qed.

Lemma contour_dict_wfb_sound (cd : dict string (dict string (dict Z contour))) :
  contour_dict_wfb cd = true -> contour_dict_wf cd.
Proof.
  unfold contour_dict_wfb. intros Hb.
  apply andb_prop in Hb as [Hkeys Hall].
  apply bool_decide_eq_true in Hkeys. split; [done|].
  intros vid contours Hg. apply dict_get_Some_elem, list_elem_of_In in Hg.
  rewrite forallb_forall in Hall. apply Hall in Hg. cbn [snd] in Hg.
  apply andb_prop in Hg as [Hnames Hinner].
  apply bool_decide_eq_true in Hnames. split; [done|].
  intros name values Hg'. apply dict_get_Some_elem, list_elem_of_In in Hg'.
  rewrite forallb_forall in Hinner. apply Hinner in Hg'.
  by apply bool_decide_eq_true in Hg'.
Qed.

(** Storing one contour keeps the keys of [contour_dict] unique. *)
Lemma contour_dict_wf_set (cd : dict string (dict string (dict Z contour)))
    vs name slice_id (c : contour) :
  contour_dict_wf cd ->
  contour_dict_wf
    (dict_set vs
       (dict_set name
          (dict_set slice_id c
             (dict_get_default [] name (dict_get_default [] vs cd)))
          (dict_get_default [] vs cd))
       cd).
Proof.
  intros [Hkeys Hinner].
  assert (Hby_name : NoDup (dict_keys (dict_get_default [] vs cd))
                     /\ forall n values,
                          dict_get n (dict_get_default [] vs cd) = Some values ->
                          NoDup (dict_keys values)).
  { unfold dict_get_default. case_match eqn:E.
    - exact (Hinner vs _ E).
    - split; [apply NoDup_nil_2 | done]. }
  destruct Hby_name as [Hnames Hvalues].
  assert (Hby_slice : NoDup (dict_keys
                               (dict_get_default [] name
                                  (dict_get_default [] vs cd)))).
  { unfold dict_get_default at 1.
    case_match eqn:E; [by eauto|]. apply NoDup_nil_2. }
  split; [by apply dict_set_NoDup|].
  intros vid contours. rewrite dict_get_set. case_decide as Hvid.
  - intros [= <-]. split; [by apply dict_set_NoDup|].
    intros n values. rewrite dict_get_set. case_decide as Hn.
    + intros [= <-]. by apply dict_set_NoDup.
    + apply Hvalues.
  - apply Hinner.
Qed.

Lemma contour_chunk_wf data f chunk
    (cd cd' : dict string (dict string (dict Z contour))) :
  contour_chunk contour_value allocates data f chunk cd = Ok cd' ->
  contour_dict_wf cd -> contour_dict_wf cd'.
Proof.
  unfold contour_chunk. destruct (f_read data f 16) as [raw f'].
  intros Hrun Hwf. apply bind_Ok in Hrun as (contour_data & _ & Hrun).
  case_decide; [|by injection Hrun as <-].
  destruct (_ ≫= _) as [raw_volume|e]; [|by injection Hrun as <-].
  injection Hrun as <-. by apply contour_dict_wf_set.
Qed.

Lemma store_image_contour_dict (st st' : oct_state) vs slice_id image :
  store_image st vs slice_id image = Ok st' ->
  contour_dict st' = contour_dict st.
Proof.
  unfold store_image. intros Hrun.
  apply bind_Ok in Hrun as (st1 & H1 & [= <-]).
  assert (contour_dict st1 = contour_dict st) as <-.
  { destruct (dict_get vs (volume_array_dict st)) as [volume|].
    - apply bind_Ok in H1 as (volume' & _ & [= <-]). done.
    - destruct (dict_get vs (volume_array_dict_additional st));
        injection H1 as <-; done. }
  clear H1. unfold bind_laterality. by case_match.
Qed.

Lemma oct_chunk_contour_dict_wf LUT data (st : oct_state) ref fl :
  oct_chunk LUT data st ref = Ok fl ->
  contour_dict_wf (contour_dict st) ->
  contour_dict_wf (contour_dict (flow_state fl)).
Proof.
  destruct ref as [start size]. unfold oct_chunk.
  destruct (f_read data (f_seek start) 60) as [raw f].
  intros Hrun Hwf. apply bind_Ok in Hrun as (chunk & _ & Hrun).
  repeat case_decide.
  - destruct (f_read data f 127). by injection Hrun as <-.
  - apply bind_Ok in Hrun as (self' & _ & [= <-]). done.
  - destruct (f_read data f 20). by injection Hrun as <-.
  - apply bind_Ok in Hrun as (cd & Hcd & [= <-]). cbn.
    by eapply contour_chunk_wf.
  - unfold oct_image_chunk in Hrun. destruct (f_read data f 20) as [raw' f'].
    apply bind_Ok in Hrun as (image_data & _ & Hrun).
    repeat case_decide; try by injection Hrun as <-.
    apply bind_Ok in Hrun as (raw_volume & _ & Hrun).
    destruct (lut_index LUT _ ≫= _) as [image|e]; [|by injection Hrun as <-].
    apply bind_Ok in Hrun as (st' & Hstore & [= <-]). cbn.
    by rewrite (store_image_contour_dict _ _ _ _ _ Hstore).
  - by injection Hrun as <-.
Qed.

(** In every state of the loop, [contour_dict] is a well-formed
    nesting of dictionaries. *)
Lemma oct_reachable_contour_dict_wf LUT data self0 vd (st : oct_state) :
  oct_reachable acquisition_date_of gamma contour_value allocates LUT data self0 vd st ->
  contour_dict_wf (contour_dict st).
Proof.
  induction 1 as [|st ref st' _ IH Hrun|st ref st' _ IH Hrun].
  - split; [apply NoDup_nil_2 | done].
  - by apply (oct_chunk_contour_dict_wf _ _ _ _ _ Hrun).
  - by apply (oct_chunk_contour_dict_wf _ _ _ _ _ Hrun).
Qed.

(** The states the loop ends in are states of the loop. *)
Lemma oct_chunk_loop_reachable LUT data self0 vd chunk_stack :
  forall (st st' : oct_state),
    oct_reachable acquisition_date_of gamma contour_value allocates LUT data self0 vd st ->
    oct_chunk_loop LUT data st chunk_stack = Ok st' ->
    oct_reachable acquisition_date_of gamma contour_value allocates LUT data self0 vd st'.
Proof.
  unfold oct_chunk_loop.
  induction chunk_stack as [|ref rest IH]; intros st st' Hreach Hrun.
  - cbn in Hrun. by injection Hrun as <-.
  - cbn in Hrun. destruct (oct_chunk LUT data st ref) as [[st1|st1]|e] eqn:E;
      [| |done].
    + eapply IH; [|exact Hrun]. by eapply reach_continue.
    + injection Hrun as <-. by eapply reach_break.
Qed.

(** C8 (amended). For every volume id with contours and every contour
    name under it, the contour table maps the name to a sequence whose
    length is [int(max slice_id / 2) + 1] (empty when that number is
    negative) when the id has a sub-directory record and that number is
    not 0, and otherwise the number of slice indices that hold a contour
    under that name.  When the table is built, every slice index of the
    name is an index of the sequence (a negative one counts from the
    end); the sequence holds each contour at the position its slice
    index denotes, unless a slice index written later denotes the same
    position: of the writes to one position the last one stays; and it
    holds the absent value at the positions no slice index denotes.
    When a slice index of the name is outside the sequence, building
    the table raises [IndexError]. *)
Theorem contour_sequences volume_dict
    (contour_dict0 : dict string (dict string (dict Z contour)))
    volume_id contours contour_name contour_values :
  contour_dict_wf contour_dict0 ->
  dict_get volume_id contour_dict0 = Some contours ->
  dict_get contour_name contours = Some contour_values ->
  let n :=
    match dict_get volume_id volume_dict with
    | Some v =>
        if decide (py_int v + 1 = 0) then length contour_values
        else Z.to_nat (py_int v + 1)
    | None => length contour_values
    end in
  (forall contour_data : contour_table,
     make_contour_data volume_dict contour_dict0 = Ok contour_data ->
     exists by_name slots,
       dict_get volume_id contour_data = Some by_name
       /\ dict_get contour_name by_name = Some slots
       /\ length slots = n
       /\ (forall slice_id c,
             dict_get slice_id contour_values = Some c ->
             valid_index n slice_id)
       /\ (forall front slice_id c back,
             contour_values = front ++ (slice_id, c) :: back ->
             (forall later, later ∈ dict_keys back ->
                            norm_index n later <> norm_index n slice_id) ->
             slots !! norm_index n slice_id = Some (Some c))
       /\ (forall i,
             (i < n)%nat ->
             (forall slice_id, slice_id ∈ dict_keys contour_values ->
                               norm_index n slice_id <> i) ->
             slots !! i = Some None))
  /\ ((exists slice_id c,
         dict_get slice_id contour_values = Some c
         /\ ~ valid_index n slice_id) ->
      make_contour_data volume_dict contour_dict0 = Raise IndexError).
Proof.
  intros [Hkeys Hinner] Hv Hn n.
  destruct (Hinner _ _ Hv) as [Hnames Hvalues].
  specialize (Hvalues _ _ Hn).
  assert (Hall : forall vid cs, (vid, cs) ∈ contour_dict0 -> NoDup (dict_keys cs)).
  { intros vid cs Hin. apply (dict_get_elem _ _ _ Hkeys) in Hin.
    by apply Hinner in Hin as [? _]. }
  assert (Hlen0 : length (none_list (sample:=sample)
                    (num_slices_or_len
                       (contour_num_slices volume_dict volume_id)
                       contour_values)) = n).
  { unfold none_list, num_slices_or_len, contour_num_slices, n.
    rewrite repeat_length.
    destruct (dict_get volume_id volume_dict) as [v|]; [case_decide|]; lia. }
  assert (Hfill : forall contour_data : contour_table,
    make_contour_data volume_dict contour_dict0 = Ok contour_data ->
    exists by_name slots,
      dict_get volume_id contour_data = Some by_name
      /\ dict_get contour_name by_name = Some slots
      /\ fill_slots
           (none_list
              (num_slices_or_len (contour_num_slices volume_dict volume_id)
                 contour_values))
           contour_values = Ok slots).
  { intros contour_data Hrun. unfold make_contour_data in Hrun.
    apply make_contour_data_get in Hrun as [_ Hfilled]; [|done|done].
    destruct (Hfilled _ _ Hv) as (by_name & Hby_name & Hslots).
    destruct (Hslots _ _ Hn) as (slots & Hf & Hs).
    by exists by_name, slots. }
  split.
  - intros contour_data Hrun.
    destruct (Hfill _ Hrun) as (by_name & slots & Hby_name & Hs & Hf).
    exists by_name, slots. split; [done|]. split; [done|].
    pose proof (fill_slots_last_write _ _ _ Hf) as Hlast.
    apply fill_slots_spec in Hf as (Hlen & Hvalid & _ & Hother).
    rewrite Hlen0 in *. split; [done|]. split; [|split].
    + intros sid c Hg. apply (Hvalid sid c). by apply dict_get_Some_elem.
    + exact Hlast.
    + intros i Hi Hfree. rewrite Hother.
      * unfold none_list in *. rewrite repeat_length in Hlen0.
        rewrite Hlen0. by apply repeat_lookup.
      * intros sid c Hin. apply Hfree. by eapply elem_of_dict_keys.
  - intros (sid & c & Hg & Hinvalid).
    destruct (make_contour_data volume_dict contour_dict0) as [contour_data|e]
      eqn:Hrun.
    + exfalso. apply Hinvalid.
      destruct (Hfill _ eq_refl) as (by_name & slots & _ & _ & Hf).
      apply fill_slots_spec in Hf as (_ & Hvalid & _).
      rewrite Hlen0 in Hvalid. apply (Hvalid sid c).
      by apply dict_get_Some_elem.
    + f_equal. unfold make_contour_data in Hrun.
      by eapply make_contour_data_raise.
Qed.
End ReaderProperties.

(** * Examples, witnesses and counterexamples *)

(** ** The whole reader on three files *)

Lemma ex_volume_read :
  ex_read_oct_volume E2E.init ex_volume_file
  = Ok (ex_volume_self, ex_volume_volumes).
Proof. vm_compute. reflexivity. Qed.

Lemma ex_no_patient_read :
  ex_read_oct_volume E2E.init ex_no_patient_file = Raise AttributeError.
Proof. vm_compute. reflexivity. Qed.

Lemma ex_zero_fundus_read :
  ex_read_oct_volume E2E.init ex_zero_fundus_file
  = Ok (ex_zero_fundus_self, ex_zero_fundus_volumes).
Proof. vm_compute. reflexivity. Qed.

(** ** C2 *)

(** C2 as stated fails in [read_oct_volume]: in [ex_zero_fundus_file] the
    second chunk is an image chunk with [width * height = 0] and
    [ind = 0]; the loop goes on to the third chunk, whose B-scan is in
    the returned volume. *)
Lemma zero_sized_image_not_aborting :
  scan ex_zero_fundus_file [88]
  = Ok ([(272, 187); (459, 80); (539, 84)], [("1_2_3"%string, 2 # 2)])
  /\ chunk_at ex_zero_fundus_file 459 = Ok (ex_chunk 20 (mk_ids 1 2 3 0) 0 IMAGE)
  /\ image_header_at ex_zero_fundus_file 459 = Ok (ex_image_header 0 0)
  /\ Image.width (ex_image_header 0 0) * Image.height (ex_image_header 0 0) = 0
  /\ ex_oct_chunk_loop ex_zero_fundus_file (ex_init [("1_2_3"%string, 2 # 2)])
       [(459, 80); (539, 84)]
     <> Ok (ex_init [("1_2_3"%string, 2 # 2)])
  /\ ex_read_oct_volume E2E.init ex_zero_fundus_file
     = Ok (ex_zero_fundus_self, ex_zero_fundus_volumes)
  /\ OCTVolumeWithMetaData.volume <$> ex_zero_fundus_volumes
     = [[Slice {| shape := (2, 1);
                  values := [1024 # 9444732965739290427392;
                             1536 # 9444732965739290427392]%Q |};
         PyInt 0]].
Proof.
  split; [vm_compute; reflexivity|].
  split; [vm_compute; reflexivity|].
  split; [vm_compute; reflexivity|].
  split; [reflexivity|].
  split; [vm_compute; discriminate|].
  split; [exact ex_zero_fundus_read | reflexivity].
Qed.

Lemma zero_sized_image_chunk_witness :
  chunk_at ex_zero_oct_file 228 = Ok (ex_chunk 20 (mk_ids 1 2 3 2) 1 IMAGE)
  /\ Chunk.type (ex_chunk 20 (mk_ids 1 2 3 2) 1 IMAGE) = 1073741824
  /\ image_header_at ex_zero_oct_file 228 = Ok (ex_image_header 0 5)
  /\ Image.width (ex_image_header 0 5) * Image.height (ex_image_header 0 5) = 0
  /\ fundus_chunk_loop ex_allocates ex_zero_oct_file ex_fundus_init [(228, 80); (308, 84)]
     = Ok ex_fundus_init
  /\ ex_oct_chunk_loop ex_zero_oct_file (ex_init [("1_2_3"%string, 4 # 2)])
       [(228, 80); (308, 84)]
     = Ok (ex_init [("1_2_3"%string, 4 # 2)]).
Proof.
  assert (Hc : chunk_at ex_zero_oct_file 228
               = Ok (ex_chunk 20 (mk_ids 1 2 3 2) 1 IMAGE))
    by (vm_compute; reflexivity).
  assert (Hi : image_header_at ex_zero_oct_file 228 = Ok (ex_image_header 0 5))
    by (vm_compute; reflexivity).
  destruct (zero_sized_image_chunk ex_date_of ex_gamma ex_contour_value ex_allocates ex_LUT
              ex_zero_oct_file (ex_init [("1_2_3"%string, 4 # 2)])
              ex_fundus_init 228 80 [(308, 84)] _ _ Hc eq_refl Hi eq_refl)
    as (Hfundus & Hoct & _).
  split; [exact Hc|]. split; [reflexivity|]. split; [exact Hi|].
  split; [reflexivity|]. split; [exact Hfundus | exact (Hoct eq_refl)].
Defined.

(** ** C3 *)

(** C3 fails on the code.  [ex_no_patient_file] is a well-formed file
    with one B-scan and no patient chunk.  Its chunk loop ends with a
    populated volume, and [read_oct_volume] then raises
    [AttributeError]: [__init__] never assigns [self.patient_id], which
    the constructor call reads for the first volume. *)
Theorem no_patient_chunk_raises :
  ex_oct_chunk_loop ex_no_patient_file (ex_init [("1_2_3"%string, 2 # 2)])
    [(184, 84)]
  = Ok (set_volume_array_dict
          [("1_2_3"%string,
            [Slice {| shape := (2, 1);
                      values := [1024 # 9444732965739290427392;
                                 1536 # 9444732965739290427392]%Q |};
             PyInt 0])]
          (ex_init [("1_2_3"%string, 2 # 2)]))
  /\ ex_read_oct_volume E2E.init ex_no_patient_file = Raise AttributeError.
Proof.
  split; [vm_compute; reflexivity | exact ex_no_patient_read].
Qed.

(** ** C4 *)

Lemma initialised_slice_sequence_witness :
  scan ex_volume_file [88]
  = Ok ([(316, 187); (503, 80); (583, 84); (667, 84)], [("1_2_3"%string, 4 # 2)])
  /\ exists entries,
       scanned_entries ex_volume_file [88] = Ok entries
       /\ forall key,
            (exists e, e ∈ entries /\ entry_volume_string e = key) ->
            exists m : Z,
              (exists e, e ∈ entries /\ entry_volume_string e = key
                         /\ SubDirectory.slice_id e = m)
              /\ (forall e, e ∈ entries -> entry_volume_string e = key ->
                            (half (SubDirectory.slice_id e) <= half m)%Q)
              /\ ((0 < half m)%Q ->
                  exists volume,
                    dict_get key
                      (init_volume_array_dict [("1_2_3"%string, 4 # 2)])
                    = Some volume
                    /\ length volume = (Z.to_nat (py_int (half m)) + 1)%nat)
              /\ ((half m <= 0)%Q ->
                  dict_get key (init_volume_array_dict [("1_2_3"%string, 4 # 2)])
                  = None).
Proof.
  assert (Hscan : scan ex_volume_file [88]
                  = Ok ([(316, 187); (503, 80); (583, 84); (667, 84)],
                        [("1_2_3"%string, 4 # 2)]))
    by (vm_compute; reflexivity).
  split; [exact Hscan|].
  exact (initialised_slice_sequence _ _ _ _ Hscan).
Defined.

(** ** C5 *)

(** C5 as stated fails: [ex_volume_file] declares slice ids up to 4, so
    its volume has three slots; its B-scans with slice ids 2 and 4 fill
    slots 0 and 1, and the returned volume keeps the integer placeholder
    in slot 2. *)
Lemma returned_volume_with_placeholder :
  ex_read_oct_volume E2E.init ex_volume_file
  = Ok (ex_volume_self, ex_volume_volumes)
  /\ OCTVolumeWithMetaData.volume <$> ex_volume_volumes
     = [[Slice {| shape := (2, 1);
                  values := [1024 # 9444732965739290427392;
                             1536 # 9444732965739290427392]%Q |};
         Slice {| shape := (2, 1);
                  values := [1280 # 9444732965739290427392;
                             1792 # 9444732965739290427392]%Q |};
         PyInt 0]].
Proof. split; [exact ex_volume_read | reflexivity]. Qed.

Lemma returned_volume_slots_witness :
  ex_read_oct_volume E2E.init ex_volume_file
  = Ok (ex_volume_self, ex_volume_volumes)
  /\ Forall (fun v : OCTVolumeWithMetaData.t Z Z =>
               OCTVolumeWithMetaData.num_slices v
               = length (OCTVolumeWithMetaData.volume v)
               /\ (0 < length (OCTVolumeWithMetaData.volume v))%nat
               /\ exists image,
                    OCTVolumeWithMetaData.volume v !! 0%nat = Some (Slice image))
       ex_volume_volumes.
Proof.
  split; [exact ex_volume_read|].
  exact (returned_volume_slots ex_date_of ex_gamma ex_contour_value ex_allocates 8 E2E.init
           ex_volume_file ex_volume_self ex_volume_volumes ex_volume_read).
Defined.

(** ** C6 *)

(** C6 as stated fails: in [ex_slice0_file] the volume id 1_2_3 has a
    sub-directory record (with slice id 0), and its B-scan goes to the
    additional bucket all the same. *)
Lemma recorded_volume_routed_to_additional :
  scan ex_slice0_file [88] = Ok ([(184, 84)], [("1_2_3"%string, 0 # 2)])
  /\ dict_mem "1_2_3"%string [("1_2_3"%string, 0 # 2)] = true
  /\ ex_oct_chunk_loop ex_slice0_file (ex_init [("1_2_3"%string, 0 # 2)])
       [(184, 84)]
     = Ok (set_volume_array_dict_additional
             [("1_2_3"%string,
               [Slice {| shape := (2, 1);
                         values := [1024 # 9444732965739290427392;
                                    1536 # 9444732965739290427392]%Q |}])]
             (ex_init [("1_2_3"%string, 0 # 2)]))
  /\ volume_array_dict (ex_init [("1_2_3"%string, 0 # 2)]) = [].
Proof.
  split; [vm_compute; reflexivity|].
  split; [reflexivity|].
  split; [vm_compute; reflexivity|].
  reflexivity.
Qed.

Lemma decoded_image_routing_witness :
  scan ex_volume_file [88]
  = Ok ([(316, 187); (503, 80); (583, 84); (667, 84)], [("1_2_3"%string, 4 # 2)])
  /\ exists volume,
       dict_get "1_2_3"%string
         (volume_array_dict (ex_init [("1_2_3"%string, 4 # 2)])) = Some volume
       /\ match setitem volume (slice_index 2) (Slice ex_image) with
          | Ok volume' =>
              exists st',
                store_image (ex_init [("1_2_3"%string, 4 # 2)]) "1_2_3" 2 ex_image
                = Ok st'
                /\ dict_get "1_2_3"%string (volume_array_dict st') = Some volume'
                /\ volume_array_dict_additional st'
                   = volume_array_dict_additional
                       (ex_init [("1_2_3"%string, 4 # 2)])
          | Raise e =>
              store_image (ex_init [("1_2_3"%string, 4 # 2)]) "1_2_3" 2 ex_image
              = Raise e
          end.
Proof.
  assert (Hscan : scan ex_volume_file [88]
                  = Ok ([(316, 187); (503, 80); (583, 84); (667, 84)],
                        [("1_2_3"%string, 4 # 2)]))
    by (vm_compute; reflexivity).
  split; [exact Hscan|].
  exact (decoded_image_routing ex_date_of ex_gamma ex_contour_value ex_allocates ex_LUT
           ex_volume_file E2E.init [88] _ _ _ "1_2_3"%string 2 ex_image Hscan
           (reach_init _ _ _ _ _ _ _ _)).
Defined.

(** ** C7 *)

(** C7 as stated fails: in [ex_laterality_file] a laterality chunk with
    code 82 is followed by one with code 66, which is neither 82 nor 76;
    after it the current laterality is still R in both readers, and the
    B-scan that follows is bound to R. *)
Lemma unknown_laterality_code_keeps_laterality :
  laterality_code_at ex_laterality_file 272 = Ok 82
  /\ laterality_code_at ex_laterality_file 352 = Ok 66
  /\ ex_oct_chunk_loop ex_laterality_file (ex_init [("1_2_3"%string, 2 # 2)])
       [(272, 80); (352, 80)]
     = Ok (set_laterality (Some "R"%string) (ex_init [("1_2_3"%string, 2 # 2)]))
  /\ fundus_chunk_loop ex_allocates ex_laterality_file ex_fundus_init [(272, 80); (352, 80)]
     = Ok (set_fundus_laterality (Some "R"%string) ex_fundus_init)
  /\ (laterality_dict (sample:=Z)
        <$> ex_oct_chunk_loop ex_laterality_file
              (ex_init [("1_2_3"%string, 2 # 2)])
              [(272, 80); (352, 80); (432, 84)])
     = Ok [("1_2_3"%string, Some "R"%string)].
Proof.
  split; [vm_compute; reflexivity|].
  split; [vm_compute; reflexivity|].
  split; [vm_compute; reflexivity|].
  split; [vm_compute; reflexivity|].
  vm_compute; reflexivity.
Qed.

Lemma laterality_chunk_effect_witness :
  chunk_at ex_laterality_file 272 = Ok (ex_chunk 20 (mk_ids 1 2 3 0) 0 11)
  /\ Chunk.type (ex_chunk 20 (mk_ids 1 2 3 0) 0 11) = 11
  /\ exists after : option string -> option string,
       oct_chunk ex_date_of ex_gamma ex_contour_value ex_allocates ex_LUT ex_laterality_file
         (ex_init []) (272, 80)
       = Ok (Continue (set_laterality (after None) (ex_init [])))
       /\ fundus_chunk ex_allocates ex_laterality_file ex_fundus_init (272, 80)
          = Ok (Continue (set_fundus_laterality (after None) ex_fundus_init))
       /\ forall current,
            match laterality_code_at ex_laterality_file 272 with
            | Ok code =>
                if decide (code = 82) then after current = Some "R"%string
                else if decide (code = 76) then after current = Some "L"%string
                else after current = current
            | Raise _ => after current = None
            end.
Proof.
  assert (Hc : chunk_at ex_laterality_file 272
               = Ok (ex_chunk 20 (mk_ids 1 2 3 0) 0 11))
    by (vm_compute; reflexivity).
  split; [exact Hc|]. split; [reflexivity|].
  exact (laterality_chunk_effect ex_date_of ex_gamma ex_contour_value ex_allocates ex_LUT
           ex_laterality_file (ex_init []) ex_fundus_init 272 80 _ Hc eq_refl).
Defined.

(** ** C8 *)

(** C8 as stated fails: in [ex_contour_file] the contour of volume 7_7_7,
    an id without sub-directory record, has slice index 0, the only and
    so the maximum observed one; its sequence has length 1, not 0. *)
Lemma contour_sequence_of_unrecorded_volume :
  scan ex_contour_file [88] = Ok ([(184, 88)], [("1_2_3"%string, 2 # 2)])
  /\ ex_oct_chunk_loop ex_contour_file (ex_init [("1_2_3"%string, 2 # 2)])
       [(184, 88)]
     = Ok (set_contour_dict
             [("7_7_7"%string, [("contour5"%string, [(0, [10; 20; 30])])])]
             (ex_init [("1_2_3"%string, 2 # 2)]))
  /\ dict_get "7_7_7"%string [("1_2_3"%string, 2 # 2)] = None
  /\ make_contour_data [("1_2_3"%string, 2 # 2)]
       [("7_7_7"%string, [("contour5"%string, [(0, [10; 20; 30])])])]
     = Ok [("7_7_7"%string, [("contour5"%string, [Some [10; 20; 30]])])]
  /\ length [Some [10; 20; 30]] <> Z.to_nat 0.
Proof.
  split; [vm_compute; reflexivity|].
  split; [vm_compute; reflexivity|].
  split; [reflexivity|].
  split; [vm_compute; reflexivity|].
  discriminate.
Qed.

Lemma contour_sequences_witness :
  contour_dict_wf
    [("7_7_7"%string, [("contour5"%string, [(2, [10]); (-1, [40])])])]
  /\ make_contour_data [("7_7_7"%string, 4 # 2)]
       [("7_7_7"%string, [("contour5"%string, [(2, [10]); (-1, [40])])])]
     = Ok [("7_7_7"%string, [("contour5"%string, [None; None; Some [40]])])]
  /\ (forall contour_data : dict string (dict string (list (option (list Z)))),
        make_contour_data [("7_7_7"%string, 4 # 2)]
          [("7_7_7"%string, [("contour5"%string, [(2, [10]); (-1, [40])])])]
        = Ok contour_data ->
        exists by_name slots,
          dict_get "7_7_7"%string contour_data = Some by_name
          /\ dict_get "contour5"%string by_name = Some slots
          /\ length slots = 3%nat
          /\ (forall slice_id c,
                dict_get slice_id [(2, [10]); (-1, [40])] = Some c ->
                valid_index 3 slice_id)
          /\ (forall front slice_id c back,
                [(2, [10]); (-1, [40])] = front ++ (slice_id, c) :: back ->
                (forall later, later ∈ dict_keys back ->
                               norm_index 3 later <> norm_index 3 slice_id) ->
                slots !! norm_index 3 slice_id = Some (Some c))
          /\ (forall i,
                (i < 3)%nat ->
                (forall slice_id,
                   slice_id ∈ dict_keys [(2, [10]); (-1, [40])] ->
                   norm_index 3 slice_id <> i) ->
                slots !! i = Some None))
  /\ ((exists slice_id c,
          dict_get slice_id [(2, [10]); (-1, [40])] = Some c
          /\ ~ valid_index 3 slice_id) ->
       make_contour_data [("7_7_7"%string, 4 # 2)]
         [("7_7_7"%string, [("contour5"%string, [(2, [10]); (-1, [40])])])]
       = Raise IndexError).
Proof.
  assert (Hwf : contour_dict_wf
                  [("7_7_7"%string,
                    [("contour5"%string, [(2, [10]); (-1, [40])])])])
    by (apply contour_dict_wfb_sound; vm_compute; reflexivity).
  assert (Hrun : make_contour_data [("7_7_7"%string, 4 # 2)]
                   [("7_7_7"%string,
                     [("contour5"%string, [(2, [10]); (-1, [40])])])]
                 = Ok [("7_7_7"%string,
                        [("contour5"%string, [None; None; Some [40]])])])
    by (vm_compute; reflexivity).
  split; [exact Hwf|]. split; [exact Hrun|].
  exact (contour_sequences [("7_7_7"%string, 4 # 2)] _ "7_7_7"%string _
           "contour5"%string _ Hwf eq_refl eq_refl).
Defined.

(** ** C10 *)

Lemma first_slice_wraps_around_witness :
  dict_get "1_2_3"%string (volume_array_dict (ex_init [("1_2_3"%string, 4 # 2)]))
  = Some [PyInt 0; PyInt 0; PyInt 0]
  /\ (0 = 0 \/ 0 = 1)
  /\ slice_index 0 = -1
  /\ exists front last st',
       [PyInt 0; PyInt 0; PyInt 0] = front ++ [last]
       /\ store_image (ex_init [("1_2_3"%string, 4 # 2)]) "1_2_3" 0 ex_image
          = Ok st'
       /\ dict_get "1_2_3"%string (volume_array_dict st')
          = Some (front ++ [Slice ex_image]).
Proof.
  split; [reflexivity|]. split; [by left|].
  exact (first_slice_wraps_around ex_date_of ex_gamma ex_contour_value ex_allocates ex_LUT
           ex_volume_file E2E.init [("1_2_3"%string, 4 # 2)] _ "1_2_3"%string 0
           ex_image [PyInt 0; PyInt 0; PyInt 0]
           (reach_init _ _ _ _ _ _ _ _) eq_refl (or_introl eq_refl)).
Defined.

(** * Further properties of the reader *)

(** ** The bespoke float, field by field *)

Lemma bits_value_snoc bs (b : bool) :
  bits_value (bs ++ [b]) = 2 * bits_value bs + (if b then 1 else 0).
Proof. unfold bits_value. by rewrite fold_left_app. Qed.

Lemma bits_value_bounds bs : 0 <= bits_value bs < 2 ^ Z.of_nat (length bs).
Proof.
  induction bs as [|b bs IH] using rev_ind; [cbn; lia|].
  rewrite bits_value_snoc, length_app. cbn [length].
  replace (Z.of_nat (length bs + 1)) with (Z.succ (Z.of_nat (length bs))) by lia.
  rewrite Z.pow_succ_r by lia. destruct b; lia.
Qed.

(** Read from the most significant bit down, the [w] low bits of [n]
    are [n mod 2^w]. *)
Lemma bits_value_rev_lsb_bits w : forall n,
  bits_value (rev (lsb_bits w n)) = Z.of_N (n mod 2 ^ N.of_nat w).
Proof.
  induction w as [|w IH]; intros n.
  - cbn. by rewrite N.mod_1_r.
  - rewrite lsb_bits_S. cbn [rev]. rewrite bits_value_snoc, IH.
    rewrite Nat2N.inj_succ, N.pow_succ_r', N.div2_div.
    rewrite (N.Div0.mod_mul_r n 2). rewrite <- N.bit0_mod.
    destruct (N.testbit n 0); cbn [N.b2n]; lia.
Qed.

Lemma take_lsb_bits w k n : take w (lsb_bits (w + k) n) = lsb_bits w n.
Proof.
  unfold lsb_bits. rewrite seq_app, map_app.
  rewrite take_app_length'; [done|]. by rewrite length_map, length_seq.
Qed.

Lemma drop_lsb_bits w k n :
  drop w (lsb_bits (w + k) n) = lsb_bits k (n / 2 ^ N.of_nat w).
Proof.
  rewrite lsb_bits_app. rewrite drop_app_length'; [done|].
  by rewrite lsb_bits_length.
Qed.

(** X2. On a 16-bit value the decoder takes the exponent from the upper
    6 bits, as the number [u / 1024], and the mantissa from the lower 10
    bits read in reversed order, bit 0 first. *)
Theorem uint16_to_ufloat16_fields (u : N) :
  (u < 65536)%N ->
  uint16_to_ufloat16 u
  = Ok (decimal_value (bits_value (lsb_bits 10 u)) (Z.of_N (u / 1024))).
Proof.
  intros Hu. rewrite uint16_to_ufloat16_bits by done.
  rewrite (take_lsb_bits 10 6), (drop_lsb_bits 10 6), bits_value_rev_lsb_bits.
  change (2 ^ N.of_nat 10)%N with 1024%N. change (2 ^ N.of_nat 6)%N with 64%N.
  rewrite N.mod_small; [done|].
  apply N.Div0.div_lt_upper_bound. lia.
Qed.

Lemma uint16_to_ufloat16_fields_witness :
  (0x1234 < 65536)%N
  /\ uint16_to_ufloat16 0x1234
     = Ok (decimal_value (bits_value (lsb_bits 10 0x1234))
             (Z.of_N (0x1234 / 1024))).
Proof. split; [reflexivity | apply uint16_to_ufloat16_fields; reflexivity]. Defined.

Lemma decimal_value_bounds m e :
  0 <= m < 2 ^ 10 -> 0 <= e <= 63 ->
  (1 <= decimal_value m e * inject_Z (2 ^ 63))%Q /\ (decimal_value m e < 2)%Q.
Proof.
  intros Hm He. pose proof (decimal_value_dyadic m e He) as Hd.
  assert (Hp : 2 ^ 10 <= 2 ^ (73 - e)) by (apply Z.pow_le_mono_r; lia).
  assert (Hc : (0 < inject_Z (2 ^ (73 - e)))%Q).
  { rewrite <- (Zlt_Qlt 0). lia. }
  assert (Hlt : (decimal_value m e < 2)%Q).
  { apply (Qmult_lt_r _ _ _ Hc). rewrite Hd.
    change 2%Q with (inject_Z 2). rewrite <- inject_Z_mult, <- Zlt_Qlt. lia. }
  split; [|done].
  assert (Hpos : (0 < decimal_value m e)%Q).
  { apply (Qmult_lt_r _ _ _ Hc). rewrite Hd, Qmult_0_l.
    rewrite <- (Zlt_Qlt 0). lia. }
  assert (Hsplit : 2 ^ 63 * 2 ^ 10 = 2 ^ (73 - e) * 2 ^ e).
  { rewrite <- !Z.pow_add_r by lia. f_equal. lia. }
  assert (H10 : (0 < inject_Z (2 ^ 10))%Q) by (rewrite <- (Zlt_Qlt 0); lia).
  apply (Qmult_le_r _ _ _ H10).
  rewrite Qmult_1_l, <- Qmult_assoc, <- inject_Z_mult, Hsplit, inject_Z_mult.
  rewrite Qmult_assoc, Hd, <- inject_Z_mult, <- Zle_Qle.
  pose proof (Z.pow_pos_nonneg 2 e). nia.
Qed.

(** X3. Every 16-bit value decodes, to a rational that is at least
    [2^-63] and below 2: no table entry is zero, negative or infinite. *)
Theorem uint16_to_ufloat16_range (u : N) :
  (u < 65536)%N ->
  exists v, uint16_to_ufloat16 u = Ok v
            /\ (1 <= v * inject_Z (2 ^ 63))%Q /\ (v < 2)%Q.
Proof.
  intros Hu. rewrite uint16_to_ufloat16_bits by done.
  eexists. split; [done|]. apply decimal_value_bounds.
  - pose proof (bits_value_bounds (take 10 (lsb_bits 16 u))) as Hb.
    by rewrite length_take, lsb_bits_length in Hb.
  - pose proof (bits_value_bounds (rev (drop 10 (lsb_bits 16 u)))) as Hb.
    rewrite length_rev, length_drop, lsb_bits_length in Hb.
    change (2 ^ Z.of_nat (16 - 10)) with 64 in Hb. lia.
Qed.

Lemma uint16_to_ufloat16_range_witness :
  (65535 < 65536)%N
  /\ exists v, uint16_to_ufloat16 65535 = Ok v
               /\ (1 <= v * inject_Z (2 ^ 63))%Q /\ (v < 2)%Q.
Proof. split; [reflexivity | apply uint16_to_ufloat16_range; reflexivity]. Defined.

(** ** The lookup table *)

Lemma mapM_result_map {A B} (f : A -> result B) (g : A -> B) l :
  (forall x, x ∈ l -> f x = Ok (g x)) -> mapM f l = Ok (map g l).
Proof.
  induction l as [|x l IH]; intros Hf; [done|].
  cbn. rewrite (Hf x) by (apply elem_of_cons; by left). cbn.
  rewrite IH; [done|]. intros y Hy. apply Hf. apply elem_of_cons. by right.
Qed.


Lemma range_length start n : length (range start n) = n.
Proof. revert start. induction n as [|n IH]; intros start; cbn; [done|]. by rewrite IH. Qed.

Lemma range_lookup n : forall start i,
  (i < n)%nat -> range start n !! i = Some (start + N.of_nat i)%N.
Proof.
  induction n as [|n IH]; intros start [|i] Hi; try lia.
  - cbn. f_equal. lia.
  - cbn [range]. rewrite lookup_cons. rewrite IH by lia. f_equal. lia.
Qed.

Lemma range_elem n : forall start x,
  x ∈ range start n -> (start <= x < start + N.of_nat n)%N.
Proof.
  induction n as [|n IH]; intros start x Hx; cbn in Hx.
  - by apply elem_of_nil in Hx.
  - apply elem_of_cons in Hx as [->|Hx]; [lia|]. apply IH in Hx. lia.
Qed.

Lemma lut_size : N.of_nat (Z.to_nat (2 ^ 16)) = 65536%N.
Proof. by rewrite Z_nat_N. Qed.

Lemma map_lookup {A B} (f : A -> B) l : forall i,
  map f l !! i = f <$> (l !! i).
Proof. induction l as [|x l IH]; intros [|i]; cbn; auto. Qed.

Lemma make_lut_eq :
  _make_lut = Ok (map ufloat16_of_bits (range 0 (Z.to_nat (2 ^ 16)))).
Proof.
  apply mapM_result_map. intros u Hu. apply range_elem in Hu.
  rewrite lut_size in Hu. apply uint16_to_ufloat16_bits. lia.
Qed.

(** X1. [_make_lut] never raises: it returns a table of [2^16]
    entries, and entry [u] is the value the decoder returns for [u]. *)
Theorem make_lut_table :
  exists LUT,
    _make_lut = Ok LUT
    /\ length LUT = Z.to_nat (2 ^ 16)
    /\ forall u : N,
         (u < 65536)%N ->
         exists v, LUT !! N.to_nat u = Some v /\ uint16_to_ufloat16 u = Ok v.
Proof.
  eexists. split; [exact make_lut_eq|]. split.
  - by rewrite length_map, range_length.
  - intros u Hu. exists (ufloat16_of_bits u).
    split; [|by apply uint16_to_ufloat16_bits].
    rewrite map_lookup, range_lookup.
    + cbn. do 2 f_equal. lia.
    + pose proof lut_size. lia.
Qed.

Lemma Ok_inj {A} (a b : A) : Ok a = Ok b -> a = b.
Proof. intros H. exact (f_equal (fun r => match r with Ok x => x | Raise _ => a end) H). Qed.

Lemma list_ind_pairs {A} (P : list A -> Prop) :
  P [] -> (forall x, P [x]) -> (forall x y l, P l -> P (x :: y :: l)) ->
  forall l, P l.
Proof.
  intros Hnil Hone Hpair.
  assert (Hboth : forall l, P l /\ forall x, P (x :: l)).
  { induction l as [|y l [IH1 IH2]]; [by split|].
    split; [apply IH2 | intros x; by apply Hpair]. }
  intros l. apply Hboth.
Qed.

Lemma uint16_items_range raw :
  Forall (fun v => 0 <= v < 65536) (uint16_items raw).
Proof.
  induction raw as [|b|b0 b1 raw IH] using list_ind_pairs; cbn [uint16_items];
    [by constructor..|].
  constructor; [|done]. cbn [le_value].
  pose proof (byte_value_lt b0). pose proof (byte_value_lt b1). lia.
Qed.

Lemma uint16_items_length raw :
  length (uint16_items raw) = (length raw / 2)%nat.
Proof.
  induction raw as [|b|b0 b1 raw IH] using list_ind_pairs; cbn [uint16_items];
    [done..|].
  cbn [length]. rewrite IH.
  change (S (S (length raw))) with (1 * 2 + length raw)%nat.
  by rewrite Nat.div_add_l.
Qed.

Lemma fromfile_uint16_length data pos count :
  (length (fromfile_uint16 data pos count) <= Z.to_nat count)%nat.
Proof.
  unfold fromfile_uint16, f_read. cbn [fst]. rewrite uint16_items_length.
  apply Nat.Div0.div_le_upper_bound. rewrite length_take. lia.
Qed.

(** X4. With the table [_make_lut] builds, [LUT[raw_volume]] never
    raises on pixels read from a file: there is one looked-up value for
    each 16-bit item, and there are at most [count] items. *)
Theorem lut_index_total LUT data pos count :
  _make_lut = Ok LUT ->
  exists looked_up,
    lut_index LUT (fromfile_uint16 data pos count) = Ok looked_up
    /\ length looked_up = length (fromfile_uint16 data pos count)
    /\ (length looked_up <= Z.to_nat count)%nat.
Proof.
  rewrite make_lut_eq. intros Heq. apply Ok_inj in Heq. subst LUT.
  assert (Hmap : lut_index (map ufloat16_of_bits (range 0 (Z.to_nat (2 ^ 16))))
                   (fromfile_uint16 data pos count)
                 = Ok (map (fun i => ufloat16_of_bits (Z.to_N i))
                         (fromfile_uint16 data pos count))).
  { apply mapM_result_map. intros i Hi.
    pose proof (uint16_items_range (f_read data pos (2 * Z.to_nat count)).1) as Hr.
    rewrite Forall_forall in Hr. apply Hr in Hi.
    unfold getitem. rewrite map_lookup, range_lookup.
    - cbn. do 2 f_equal. lia.
    - pose proof lut_size. lia. }
  eexists. split; [exact Hmap|]. rewrite length_map. split; [done|].
  apply fromfile_uint16_length.
Qed.

Lemma lut_index_total_witness :
  _make_lut = Ok (map ufloat16_of_bits (range 0 (Z.to_nat (2 ^ 16))))
  /\ exists looked_up,
       lut_index (map ufloat16_of_bits (range 0 (Z.to_nat (2 ^ 16))))
         (fromfile_uint16 ex_volume_file 663 2) = Ok looked_up
       /\ length looked_up = length (fromfile_uint16 ex_volume_file 663 2)
       /\ (length looked_up <= Z.to_nat 2)%nat.
Proof.
  split; [exact make_lut_eq|]. exact (lut_index_total _ _ _ _ make_lut_eq).
Defined.

(** ** The record layouts *)

Lemma consumes_ret {A} (a : A) : consumes 0 (mret a).
Proof. intros s a' s' [= <- <-]. split; [lia | done]. Qed.

Lemma consumes_bind {A B} n m (p : parser A) (k : A -> parser B) :
  consumes n p -> (forall a, consumes m (k a)) -> consumes (n + m) (p ≫= k).
Proof.
  intros Hp Hk s b s'' Hrun. unfold mbind, parser_bind in Hrun.
  destruct (p s) as [[a s']|e] eqn:Hps; [|done].
  apply Hp in Hps as [Hn ->]. apply Hk in Hrun as [Hm ->].
  rewrite length_drop in Hm. split; [lia|]. by rewrite drop_drop.
Qed.

Lemma consumes_take_bytes n : consumes n (take_bytes n).
Proof.
  intros s a s'. unfold take_bytes. case_decide; [|done].
  intros [= <- <-]. done.
Qed.

Lemma consumes_eq {A} n m (p : parser A) : consumes n p -> n = m -> consumes m p.
Proof. by intros Hp <-. Qed.

Lemma consumes_Int8un : consumes 1 Int8un.
Proof.
  eapply consumes_eq; [eapply consumes_bind;
    [apply consumes_take_bytes | intros; apply consumes_ret] | done].
Qed.

Lemma consumes_Int16un : consumes 2 Int16un.
Proof.
  eapply consumes_eq; [eapply consumes_bind;
    [apply consumes_take_bytes | intros; apply consumes_ret] | done].
Qed.

Lemma consumes_Int32un : consumes 4 Int32un.
Proof.
  eapply consumes_eq; [eapply consumes_bind;
    [apply consumes_take_bytes | intros; apply consumes_ret] | done].
Qed.

Lemma consumes_Int64un : consumes 8 Int64un.
Proof.
  eapply consumes_eq; [eapply consumes_bind;
    [apply consumes_take_bytes | intros; apply consumes_ret] | done].
Qed.

Lemma consumes_Int32sn : consumes 4 Int32sn.
Proof.
  eapply consumes_eq; [eapply consumes_bind;
    [apply consumes_Int32un | intros; apply consumes_ret] | done].
Qed.

Lemma consumes_Float32l : consumes 4 Float32l.
Proof.
  eapply consumes_eq; [eapply consumes_bind;
    [apply consumes_take_bytes | intros; apply consumes_ret] | done].
Qed.

Lemma consumes_Array {A} count n (p : parser A) :
  consumes n p -> consumes (count * n) (Array count p).
Proof.
  intros Hp. induction count as [|count IH]; cbn [Array].
  - apply consumes_ret.
  - eapply consumes_eq; [eapply consumes_bind; [exact Hp|]|].
    + intros x. eapply consumes_bind; [exact IH|]. intros xs. apply consumes_ret.
    + lia.
Qed.

Lemma consumes_PaddedString n : consumes n (PaddedString n).
Proof.
  intros s a s'. unfold PaddedString.
  destruct (take_bytes n s) as [[raw s1]|e] eqn:Ht; [|done].
  apply consumes_take_bytes in Ht as [Hn ->].
  case_match; [|done]. intros [= <- <-]. done.
Qed.

Create HintDb layout.

#[local] Hint Resolve consumes_Int8un consumes_Int16un consumes_Int32un
  consumes_Int64un consumes_Int32sn consumes_Float32l consumes_PaddedString
  consumes_ret : layout.

Ltac consumes_layout :=
  eapply consumes_eq;
  [ repeat (eapply consumes_bind;
            [ first [ solve [auto with layout]
                    | apply consumes_Array; solve [auto with layout] ]
            | intros ? ]);
    apply consumes_ret
  | reflexivity ].

Lemma consumes_header_structure : consumes 36 header_structure.
Proof. unfold header_structure. consumes_layout. Qed.

Lemma consumes_main_directory_structure : consumes 52 main_directory_structure.
Proof. unfold main_directory_structure. consumes_layout. Qed.

Lemma consumes_sub_directory_structure : consumes 44 sub_directory_structure.
Proof. unfold sub_directory_structure. consumes_layout. Qed.

Lemma consumes_chunk_structure : consumes 60 chunk_structure.
Proof. unfold chunk_structure. consumes_layout. Qed.

Lemma consumes_image_structure : consumes 20 image_structure.
Proof. unfold image_structure. consumes_layout. Qed.

Lemma consumes_patient_id_structure : consumes 127 patient_id_structure.
Proof. unfold patient_id_structure. consumes_layout. Qed.

Lemma consumes_lat_structure : consumes 16 lat_structure.
Proof. unfold lat_structure. consumes_layout. Qed.

Lemma consumes_contour_structure : consumes 16 contour_structure.
Proof. unfold contour_structure. consumes_layout. Qed.

Lemma consumes_bscan_metadata : consumes 104 bscan_metadata.
Proof. unfold bscan_metadata. consumes_layout. Qed.

(** X5. Each record layout of [__init__] reads exactly the number of
    bytes the readers fetch for it with [f.read]: 36 for the header, 52
    for a main directory, 44 for a sub-directory entry, 60 for a chunk
    header, 20 for an image header, 127 for a patient record, 16 for a
    contour header and 104 for the B-scan metadata; the laterality
    record reads 16 of the 20 bytes fetched for it. *)
Theorem layout_sizes :
  consumes 36 header_structure
  /\ consumes 52 main_directory_structure
  /\ consumes 44 sub_directory_structure
  /\ consumes 60 chunk_structure
  /\ consumes 20 image_structure
  /\ consumes 127 patient_id_structure
  /\ consumes 16 lat_structure
  /\ consumes 16 contour_structure
  /\ consumes 104 bscan_metadata.
Proof.
  split; [apply consumes_header_structure|].
  split; [apply consumes_main_directory_structure|].
  split; [apply consumes_sub_directory_structure|].
  split; [apply consumes_chunk_structure|].
  split; [apply consumes_image_structure|].
  split; [apply consumes_patient_id_structure|].
  split; [apply consumes_lat_structure|].
  split; [apply consumes_contour_structure|].
  apply consumes_bscan_metadata.
Qed.

Lemma int_layout_ret {A} (a : A) : int_layout 0 (mret a).
Proof. intros s. rewrite decide_True by lia. by exists a. Qed.

Lemma int_layout_bind {A B} n m (p : parser A) (k : A -> parser B) :
  int_layout n p -> (forall a, int_layout m (k a)) ->
  int_layout (n + m) (p ≫= k).
Proof.
  intros Hp Hk s. specialize (Hp s). unfold mbind, parser_bind.
  destruct (decide (n <= length s)%nat) as [Hn|Hn].
  - destruct Hp as [a ->]. specialize (Hk a (drop n s)).
    rewrite length_drop in Hk.
    destruct (decide (m <= length s - n)%nat) as [Hm|Hm].
    + rewrite decide_True by lia. destruct Hk as [b ->]. exists b.
      by rewrite drop_drop.
    + rewrite decide_False by lia. done.
  - rewrite decide_False by lia. by rewrite Hp.
Qed.

Lemma int_layout_take_bytes n : int_layout n (take_bytes n).
Proof. intros s. unfold take_bytes. case_decide; [by eexists | done]. Qed.

Lemma int_layout_eq {A} n m (p : parser A) :
  int_layout n p -> n = m -> int_layout m p.
Proof. by intros Hp <-. Qed.

Lemma int_layout_Int8un : int_layout 1 Int8un.
Proof.
  eapply int_layout_eq; [eapply int_layout_bind;
    [apply int_layout_take_bytes | intros; apply int_layout_ret] | done].
Qed.

Lemma int_layout_Int16un : int_layout 2 Int16un.
Proof.
  eapply int_layout_eq; [eapply int_layout_bind;
    [apply int_layout_take_bytes | intros; apply int_layout_ret] | done].
Qed.

Lemma int_layout_Int32un : int_layout 4 Int32un.
Proof.
  eapply int_layout_eq; [eapply int_layout_bind;
    [apply int_layout_take_bytes | intros; apply int_layout_ret] | done].
Qed.

Lemma int_layout_Int64un : int_layout 8 Int64un.
Proof.
  eapply int_layout_eq; [eapply int_layout_bind;
    [apply int_layout_take_bytes | intros; apply int_layout_ret] | done].
Qed.

Lemma int_layout_Int32sn : int_layout 4 Int32sn.
Proof.
  eapply int_layout_eq; [eapply int_layout_bind;
    [apply int_layout_Int32un | intros; apply int_layout_ret] | done].
Qed.

Lemma int_layout_Float32l : int_layout 4 Float32l.
Proof.
  eapply int_layout_eq; [eapply int_layout_bind;
    [apply int_layout_take_bytes | intros; apply int_layout_ret] | done].
Qed.

Lemma int_layout_Array {A} count n (p : parser A) :
  int_layout n p -> int_layout (count * n) (Array count p).
Proof.
  intros Hp. induction count as [|count IH]; cbn [Array].
  - apply int_layout_ret.
  - eapply int_layout_eq; [eapply int_layout_bind; [exact Hp|]|].
    + intros x. eapply int_layout_bind; [exact IH|]. intros xs.
      apply int_layout_ret.
    + lia.
Qed.

#[local] Hint Resolve int_layout_Int8un int_layout_Int16un int_layout_Int32un
  int_layout_Int64un int_layout_Int32sn int_layout_Float32l int_layout_ret
  : layout.

Ltac int_layout_fields :=
  eapply int_layout_eq;
  [ repeat (eapply int_layout_bind;
            [ first [ solve [auto with layout]
                    | apply int_layout_Array; solve [auto with layout] ]
            | intros ? ]);
    apply int_layout_ret
  | reflexivity ].

Lemma int_layout_sub_directory_structure : int_layout 44 sub_directory_structure.
Proof. unfold sub_directory_structure. int_layout_fields. Qed.

Lemma int_layout_image_structure : int_layout 20 image_structure.
Proof. unfold image_structure. int_layout_fields. Qed.

Lemma int_layout_lat_structure : int_layout 16 lat_structure.
Proof. unfold lat_structure. int_layout_fields. Qed.

Lemma int_layout_contour_structure : int_layout 16 contour_structure.
Proof. unfold contour_structure. int_layout_fields. Qed.

Lemma int_layout_bscan_metadata : int_layout 104 bscan_metadata.
Proof. unfold bscan_metadata. int_layout_fields. Qed.

Lemma parse_int_layout {A} n (p : parser A) raw :
  int_layout n p ->
  if decide (n <= length raw)%nat
  then exists a, parse p raw = Ok a
  else parse p raw = Raise StreamError.
Proof.
  intros Hp. specialize (Hp raw). unfold parse. case_decide.
  - destruct Hp as [a ->]. by exists a.
  - by rewrite Hp.
Qed.

(** X6. The layouts without strings decode exactly when the buffer is
    long enough: a sub-directory entry needs 44 bytes, an image header
    20, a laterality record 16, a contour header 16 and the B-scan
    metadata 104; on a shorter buffer [parse] raises [StreamError]. *)
Theorem integer_layouts_decode (raw : bytes) :
  (if decide (44 <= length raw)%nat
   then exists a, parse sub_directory_structure raw = Ok a
   else parse sub_directory_structure raw = Raise StreamError)
  /\ (if decide (20 <= length raw)%nat
      then exists a, parse image_structure raw = Ok a
      else parse image_structure raw = Raise StreamError)
  /\ (if decide (16 <= length raw)%nat
      then exists a, parse lat_structure raw = Ok a
      else parse lat_structure raw = Raise StreamError)
  /\ (if decide (16 <= length raw)%nat
      then exists a, parse contour_structure raw = Ok a
      else parse contour_structure raw = Raise StreamError)
  /\ (if decide (104 <= length raw)%nat
      then exists a, parse bscan_metadata raw = Ok a
      else parse bscan_metadata raw = Raise StreamError).
Proof.
  split; [apply parse_int_layout, int_layout_sub_directory_structure|].
  split; [apply parse_int_layout, int_layout_image_structure|].
  split; [apply parse_int_layout, int_layout_lat_structure|].
  split; [apply parse_int_layout, int_layout_contour_structure|].
  apply parse_int_layout, int_layout_bscan_metadata.
Qed.

(** ** The two passes over the directories *)

Lemma fold_update_chunk_stack es : forall chunk_stack,
  fold_left update_chunk_stack es chunk_stack
  = chunk_stack
    ++ map chunk_ref
         (filter (fun e => SubDirectory.start e > SubDirectory.pos e) es).
Proof.
  induction es as [|e es IH]; intros cs; cbn [fold_left].
  - by rewrite app_nil_r.
  - rewrite IH. unfold update_chunk_stack. case_decide.
    + rewrite filter_cons_True by done. cbn [map]. by rewrite <- app_assoc.
    + by rewrite filter_cons_False.
Qed.

(** X7. The chunk references the second pass collects are the
    [(start, size)] pairs of the sub-directory entries whose [start] is
    greater than their [pos], in the order in which the entries are
    read; the other entries give no reference. *)
Theorem chunk_stack_selection data directory_stack chunk_stack volume_dict :
  scan data directory_stack = Ok (chunk_stack, volume_dict) ->
  exists entries,
    scanned_entries data directory_stack = Ok entries
    /\ chunk_stack
       = map chunk_ref
           (filter (fun e => SubDirectory.start e > SubDirectory.pos e) entries).
Proof.
  intros Hscan. apply scan_fold in Hscan as (es & Hes & -> & _).
  exists es. split; [done|]. by rewrite fold_update_chunk_stack.
Qed.

Lemma chunk_stack_selection_witness :
  scan ex_volume_file [88]
  = Ok ([(316, 187); (503, 80); (583, 84); (667, 84)], [("1_2_3"%string, 4 # 2)])
  /\ exists entries,
       scanned_entries ex_volume_file [88] = Ok entries
       /\ [(316, 187); (503, 80); (583, 84); (667, 84)]
          = map chunk_ref
              (filter (fun e => SubDirectory.start e > SubDirectory.pos e)
                 entries).
Proof.
  assert (Hscan : scan ex_volume_file [88]
                  = Ok ([(316, 187); (503, 80); (583, 84); (667, 84)],
                        [("1_2_3"%string, 4 # 2)]))
    by (vm_compute; reflexivity).
  split; [exact Hscan|].
  exact (chunk_stack_selection _ _ _ _ Hscan).
Defined.

Lemma traverse_zero fuel data directory_stack :
  traverse fuel data directory_stack 0 = Ok directory_stack.
Proof. by destruct fuel. Qed.

Lemma traverse_step fuel data directory_stack current directory_chunk :
  current <> 0 ->
  directory_at data (f_seek current) = Ok directory_chunk ->
  traverse (S fuel) data directory_stack current
  = traverse fuel data (directory_stack ++ [current])
      (MainDirectory.prev directory_chunk).
Proof.
  intros Hc Hd. cbn [traverse]. rewrite decide_False by done.
  unfold directory_at in Hd.
  destruct (f_read data (f_seek current) 52) as [raw f]. cbn [fst] in Hd.
  by rewrite Hd.
Qed.

Lemma traverse_chain fuel data : forall directory_stack current stack,
  traverse fuel data directory_stack current = Ok stack ->
  exists chain,
    stack = directory_stack ++ chain /\ prev_chain data current chain
    /\ (length chain <= fuel)%nat.
Proof.
  induction fuel as [|fuel IH]; intros ds current stack Hrun.
  - cbn in Hrun. case_decide; [|done]. injection Hrun as <-. subst current.
    exists []. rewrite app_nil_r. split; [done|]. split; [constructor | done].
  - destruct (decide (current = 0)) as [->|Hc].
    + rewrite traverse_zero in Hrun. injection Hrun as <-.
      exists []. rewrite app_nil_r. split; [done|].
      split; [constructor | cbn; lia].
    + destruct (directory_at data (f_seek current)) as [d|e] eqn:Hd.
      * rewrite (traverse_step _ _ _ _ _ Hc Hd) in Hrun.
        apply IH in Hrun as (chain & -> & Hchain & Hlen).
        exists (current :: chain). rewrite <- app_assoc. split; [done|].
        split; [by econstructor | cbn; lia].
      * cbn [traverse] in Hrun. rewrite decide_False in Hrun by done.
        unfold directory_at in Hd.
        destruct (f_read data (f_seek current) 52) as [raw f].
        cbn [fst] in Hd. by rewrite Hd in Hrun.
Qed.

Lemma chain_traverse data current chain :
  prev_chain data current chain ->
  forall fuel directory_stack,
    (length chain <= fuel)%nat ->
    traverse fuel data directory_stack current = Ok (directory_stack ++ chain).
Proof.
  induction 1 as [|current d rest Hc Hd _ IH]; intros fuel ds Hfuel.
  - by rewrite traverse_zero, app_nil_r.
  - destruct fuel as [|fuel]; [cbn in Hfuel; lia|].
    rewrite (traverse_step _ _ _ _ _ Hc Hd), IH by (cbn in Hfuel; lia).
    by rewrite <- app_assoc.
Qed.

(** X8. The first pass returns exactly the chain of [prev] links: it
    ends with a directory stack if and only if, from [current], the
    directories that decode lead to a [prev] of 0 within the given
    number of iterations, and the stack then lists their positions in
    the order visited, after what it held before. *)
Theorem directory_walk fuel data directory_stack current stack :
  traverse fuel data directory_stack current = Ok stack
  <-> exists chain,
        stack = directory_stack ++ chain
        /\ prev_chain data current chain
        /\ (length chain <= fuel)%nat.
Proof.
  split; [apply traverse_chain|].
  intros (chain & -> & Hchain & Hlen). by apply chain_traverse.
Qed.

Lemma traverse_cycle data (cycle : list Z) :
  (forall position,
     position ∈ cycle ->
     position <> 0
     /\ exists directory_chunk,
          directory_at data (f_seek position) = Ok directory_chunk
          /\ MainDirectory.prev directory_chunk ∈ cycle) ->
  forall fuel directory_stack current,
    current ∈ cycle ->
    traverse fuel data directory_stack current = Raise OutOfFuel.
Proof.
  intros Hcycle. induction fuel as [|fuel IH]; intros ds current Hin;
    destruct (Hcycle _ Hin) as (Hc & d & Hd & Hprev).
  - cbn. by rewrite decide_False.
  - rewrite (traverse_step _ _ _ _ _ Hc Hd). by apply IH.
Qed.

Lemma header_position data header :
  parse header_structure (f_read data 0 36).1 = Ok header ->
  (f_read data 0 36).2 = 36%nat.
Proof.
  unfold parse, f_read. cbn [fst snd]. rewrite drop_0. intros Hp.
  destruct (header_structure (take 36 data)) as [[a s']|e] eqn:E; [|done].
  apply consumes_header_structure in E as [Hlen _].
  rewrite length_take in *. lia.
Qed.

(** [_make_lut] never raises, so what follows it decides the result. *)
Lemma bind_make_lut {B} (k : list Q -> result B) (r : result B) :
  (forall LUT, k LUT = r) -> _make_lut ≫= k = r.
Proof.
  intros Hk. pose proof make_lut_eq as HL.
  destruct _make_lut as [LUT|e]; [apply Hk | discriminate HL].
Qed.

Section ReaderEdges.
Context {date sample : Type}.
Context (acquisition_date_of : Z -> result date).
Context (gamma : Q -> Q).
Context (contour_value : Z -> sample).
Context (allocates : Z -> bool).

Abbreviation oct_chunk :=
  (oct_chunk acquisition_date_of gamma contour_value allocates).
Abbreviation oct_chunk_loop :=
  (oct_chunk_loop acquisition_date_of gamma contour_value allocates).
Abbreviation oct_state := (@oct_state date sample).
Abbreviation fundus_state := (@fundus_state date).
Abbreviation fundus_chunk := (fundus_chunk allocates).
Abbreviation fundus_chunk_loop := (fundus_chunk_loop allocates).
Abbreviation read_fundus_image := (read_fundus_image allocates).
Abbreviation oct_reachable :=
  (oct_reachable acquisition_date_of gamma contour_value allocates).

(** Both readers up to the end of the first pass. *)
Lemma read_oct_volume_walk fuel (self0 : E2E.t date) data header main_directory :
  parse header_structure (f_read data 0 36).1 = Ok header ->
  directory_at data 36 = Ok main_directory ->
  read_oct_volume acquisition_date_of gamma contour_value allocates fuel self0 data
  = (LUT ← _make_lut;
     directory_stack ←
       traverse fuel data [] (MainDirectory.current main_directory);
     scanned ← scan data directory_stack;
     st ← oct_chunk_loop LUT data (oct_init self0 scanned.2) scanned.1;
     contour_data ← make_contour_data scanned.2 (contour_dict st);
     oct_volumes ← make_oct_volumes st contour_data;
     Ok (self st, oct_volumes)).
Proof.
  intros Hh Hd. unfold read_oct_volume.
  destruct _make_lut as [LUT|e]; [|done]. cbn [mbind result_bind].
  pose proof (header_position _ _ Hh) as Hpos.
  destruct (f_read data 0 36) as [raw f]. cbn [fst snd] in *. subst f.
  rewrite Hh. cbn [mbind result_bind]. unfold directory_at in Hd.
  destruct (f_read data 36 52) as [raw' f']. cbn [fst] in Hd. rewrite Hd.
  cbn [mbind result_bind].
  destruct (traverse _ _ _ _) as [ds|e]; [|done]. cbn [mbind result_bind].
  destruct (scan data ds) as [[cs vd]|e]; done.
Qed.

Lemma read_fundus_image_walk fuel (self0 : E2E.t date) data header
    main_directory :
  parse header_structure (f_read data 0 36).1 = Ok header ->
  directory_at data 36 = Ok main_directory ->
  read_fundus_image fuel self0 data
  = (directory_stack ←
       traverse fuel data [] (MainDirectory.current main_directory);
     scanned ← scan data directory_stack;
     st ← fundus_chunk_loop data
            {| fundus_self := self0; image_array_dict := [];
               fundus_laterality_dict := []; fundus_laterality := None |}
            scanned.1;
     fundus_images ← for_each (append_fundus st) [] (image_array_dict st);
     Ok (fundus_self st, fundus_images)).
Proof.
  intros Hh Hd. unfold read_fundus_image.
  pose proof (header_position _ _ Hh) as Hpos.
  destruct (f_read data 0 36) as [raw f]. cbn [fst snd] in *. subst f.
  rewrite Hh. cbn [mbind result_bind]. unfold directory_at in Hd.
  destruct (f_read data 36 52) as [raw' f']. cbn [fst] in Hd. rewrite Hd.
  done.
Qed.

(** X9. When the [prev] links of the directories lead back into a set
    of positions none of which is 0, the loop [while current != 0] of
    the first pass never ends: neither reader returns or raises,
    however many iterations it is given. *)
Theorem directory_cycle_never_ends fuel (self0 : E2E.t date) data header
    main_directory (cycle : list Z) :
  parse header_structure (f_read data 0 36).1 = Ok header ->
  directory_at data 36 = Ok main_directory ->
  MainDirectory.current main_directory ∈ cycle ->
  (forall position,
     position ∈ cycle ->
     position <> 0
     /\ exists directory_chunk,
          directory_at data (f_seek position) = Ok directory_chunk
          /\ MainDirectory.prev directory_chunk ∈ cycle) ->
  read_oct_volume acquisition_date_of gamma contour_value allocates fuel self0 data = Raise OutOfFuel
  /\ read_fundus_image fuel self0 data = Raise OutOfFuel.
Proof.
  intros Hh Hd Hin Hcycle. split.
  - eapply eq_trans; [exact (read_oct_volume_walk _ _ _ _ _ Hh Hd)|].
    apply bind_make_lut. intros LUT. by rewrite (traverse_cycle _ _ Hcycle).
  - rewrite (read_fundus_image_walk _ _ _ _ _ Hh Hd).
    by rewrite (traverse_cycle _ _ Hcycle).
Qed.

(** X10. A file whose main directory has [current = 0] has no
    directory to visit: [read_oct_volume] returns no volume and
    [read_fundus_image] no image, whatever follows in the file, and the
    attributes of the reader are left as they were. *)
Theorem empty_directory_chain fuel (self0 : E2E.t date) data header
    main_directory :
  parse header_structure (f_read data 0 36).1 = Ok header ->
  directory_at data 36 = Ok main_directory ->
  MainDirectory.current main_directory = 0 ->
  read_oct_volume acquisition_date_of gamma contour_value allocates fuel self0 data = Ok (self0, [])
  /\ read_fundus_image fuel self0 data = Ok (self0, []).
Proof.
  intros Hh Hd Hc. split.
  - eapply eq_trans; [exact (read_oct_volume_walk _ _ _ _ _ Hh Hd)|].
    apply bind_make_lut. intros LUT. by rewrite Hc, traverse_zero.
  - rewrite (read_fundus_image_walk _ _ _ _ _ Hh Hd), Hc.
    by rewrite traverse_zero.
Qed.

(** *** Truncated files *)

Lemma parse_short {A} n (p : parser A) raw :
  consumes n p -> (length raw < n)%nat -> exists e, parse p raw = Raise e.
Proof.
  intros Hp Hlen. unfold parse. destruct (p raw) as [[a s']|e] eqn:E.
  - apply Hp in E as [? _]. lia.
  - by exists e.
Qed.

Lemma parse_short_stream {A} n (p : parser A) raw :
  int_layout n p -> (length raw < n)%nat -> parse p raw = Raise StreamError.
Proof.
  intros Hp Hlen. pose proof (parse_int_layout n p raw Hp) as H.
  by rewrite decide_False in H by lia.
Qed.

Lemma chunk_at_position data start chunk :
  chunk_at data start = Ok chunk ->
  payload_pos data start = (f_seek start + 60)%nat
  /\ (f_seek start + 60 <= length data)%nat.
Proof.
  unfold chunk_at, payload_pos, parse, f_read. cbn [fst snd]. intros Hp.
  destruct (chunk_structure _) as [[a s']|e] eqn:E; [|done].
  apply consumes_chunk_structure in E as [Hlen _].
  rewrite length_take, length_drop in *. lia.
Qed.

Lemma payload_read_length data start chunk n :
  chunk_at data start = Ok chunk ->
  length (f_read data (payload_pos data start) n).1
  = (n `min` payload_available data start)%nat.
Proof.
  intros Hc. unfold f_read, payload_available. cbn [fst].
  by rewrite length_take, length_drop.
Qed.

(** X11. When fewer than 60 bytes of the file follow the start of a
    referenced chunk, its header does not decode and the exception ends
    both readers: the chunk loops do not skip the reference. *)
Theorem truncated_chunk_header LUT data (st : oct_state) (fs : fundus_state)
    start size rest :
  (length data < Z.to_nat start + 60)%nat ->
  exists e,
    oct_chunk_loop LUT data st ((start, size) :: rest) = Raise e
    /\ fundus_chunk_loop data fs ((start, size) :: rest) = Raise e.
Proof.
  intros Hlen. unfold oct_chunk_loop, fundus_chunk_loop.
  cbn [for_loop]. unfold oct_chunk, fundus_chunk.
  assert (Hraw : (length (f_read data (f_seek start) 60).1 < 60)%nat).
  { unfold f_read, f_seek. cbn [fst]. rewrite length_take, length_drop. lia. }
  destruct (f_read data (f_seek start) 60) as [raw f]. cbn [fst] in Hraw.
  destruct (parse_short 60 chunk_structure raw consumes_chunk_structure Hraw)
    as [e He].
  exists e. by rewrite He.
Qed.

(** X12. What a chunk does when the file ends inside its payload.  A
    patient record of fewer than 127 bytes is ignored, and a laterality
    record of fewer than 16 bytes makes the current laterality absent,
    in both readers.  [read_oct_volume] raises [StreamError] on B-scan
    metadata of fewer than 104 bytes and on a contour header of fewer
    than 16; both readers raise it on an image header of fewer than 20
    bytes. *)
Theorem truncated_payload LUT data (st : oct_state) (fs : fundus_state)
    start size chunk :
  chunk_at data start = Ok chunk ->
  (Chunk.type chunk = 9 ->
   (payload_available data start < 127)%nat ->
   oct_chunk LUT data st (start, size) = Ok (Continue st)
   /\ fundus_chunk data fs (start, size) = Ok (Continue fs))
  /\ (Chunk.type chunk = 11 ->
      (payload_available data start < 16)%nat ->
      oct_chunk LUT data st (start, size)
      = Ok (Continue (set_laterality None st))
      /\ fundus_chunk data fs (start, size)
         = Ok (Continue (set_fundus_laterality None fs)))
  /\ (Chunk.type chunk = 10004 ->
      (payload_available data start < 104)%nat ->
      oct_chunk LUT data st (start, size) = Raise StreamError)
  /\ (Chunk.type chunk = 10019 ->
      (payload_available data start < 16)%nat ->
      oct_chunk LUT data st (start, size) = Raise StreamError)
  /\ (Chunk.type chunk = 1073741824 ->
      (payload_available data start < 20)%nat ->
      oct_chunk LUT data st (start, size) = Raise StreamError
      /\ fundus_chunk data fs (start, size) = Raise StreamError).
Proof.
  intros Hc.
  rewrite (oct_chunk_header acquisition_date_of gamma contour_value allocates
             LUT data st start size chunk Hc).
  rewrite (fundus_chunk_header allocates data fs start size chunk Hc). cbv zeta.
  split; [|split; [|split; [|split]]]; intros Ht Hlen; rewrite Ht;
    rewrite ?decide_False by done; rewrite decide_True by done.
  - assert (Hraw : (length (f_read data (payload_pos data start) 127).1 < 127)%nat)
      by (rewrite (payload_read_length _ _ _ _ Hc); lia).
    destruct (parse_short 127 patient_id_structure _
                consumes_patient_id_structure Hraw) as [e He].
    unfold patient_chunk. rewrite He. by destruct st, fs.
  - assert (Hraw : (length (f_read data (payload_pos data start) 20).1 < 16)%nat)
      by (rewrite (payload_read_length _ _ _ _ Hc); lia).
    unfold laterality_chunk.
    by rewrite (parse_short_stream 16 lat_structure _
                  int_layout_lat_structure Hraw).
  - unfold bscan_chunk.
    assert (Hraw : (length (f_read data (payload_pos data start) 104).1 < 104)%nat)
      by (rewrite (payload_read_length _ _ _ _ Hc); lia).
    destruct (f_read data (payload_pos data start) 104) as [raw f].
    cbn [fst] in Hraw.
    by rewrite (parse_short_stream 104 bscan_metadata _
                  int_layout_bscan_metadata Hraw).
  - unfold contour_chunk.
    assert (Hraw : (length (f_read data (payload_pos data start) 16).1 < 16)%nat)
      by (rewrite (payload_read_length _ _ _ _ Hc); lia).
    destruct (f_read data (payload_pos data start) 16) as [raw f].
    cbn [fst] in Hraw.
    by rewrite (parse_short_stream 16 contour_structure _
                  int_layout_contour_structure Hraw).
  - unfold oct_image_chunk, fundus_image_chunk.
    assert (Hraw : (length (f_read data (payload_pos data start) 20).1 < 20)%nat)
      by (rewrite (payload_read_length _ _ _ _ Hc); lia).
    destruct (f_read data (payload_pos data start) 20) as [raw f].
    cbn [fst] in Hraw.
    by rewrite (parse_short_stream 20 image_structure _
                  int_layout_image_structure Hraw).
Qed.

Lemma image_header_position data start chunk image_data :
  chunk_at data start = Ok chunk ->
  image_header_at data start = Ok image_data ->
  (f_read data (payload_pos data start) 20).2
  = (payload_pos data start + 20)%nat
  /\ (20 <= payload_available data start)%nat.
Proof.
  intros Hc Hi. unfold image_header_at in Hi.
  pose proof (payload_read_length data start chunk 20 Hc) as Hlen.
  assert (20 <= length (f_read data (payload_pos data start) 20).1)%nat.
  { unfold parse in Hi. destruct (image_structure _) as [[a s']|e] eqn:E; [|done].
    by apply consumes_image_structure in E as [? _]. }
  unfold f_read in *. cbn [fst snd] in *. lia.
Qed.


End ReaderEdges.

Lemma directory_cycle_never_ends_witness :
  directory_at ex_cycle_file 36
  = Ok {| MainDirectory.magic2 := "MDbMDir"; MainDirectory.version := 100;
          MainDirectory.num_entries := 0; MainDirectory.current := 88;
          MainDirectory.prev := 0 |}
  /\ directory_at ex_cycle_file (f_seek 88)
     = Ok {| MainDirectory.magic2 := "MDbMDir"; MainDirectory.version := 100;
             MainDirectory.num_entries := 0; MainDirectory.current := 0;
             MainDirectory.prev := 88 |}
  /\ read_oct_volume ex_date_of ex_gamma ex_contour_value ex_allocates 1000 E2E.init
       ex_cycle_file
     = Raise OutOfFuel
  /\ read_fundus_image (date:=Z) ex_allocates 1000 E2E.init ex_cycle_file = Raise OutOfFuel.
Proof.
  assert (Hh : parse header_structure (f_read ex_cycle_file 0 36).1
               = Ok {| Header.magic1 := "CMDb"; Header.version := 100 |})
    by (vm_compute; reflexivity).
  assert (Hd : directory_at ex_cycle_file 36
               = Ok {| MainDirectory.magic2 := "MDbMDir";
                       MainDirectory.version := 100;
                       MainDirectory.num_entries := 0;
                       MainDirectory.current := 88; MainDirectory.prev := 0 |})
    by (vm_compute; reflexivity).
  assert (Hc : directory_at ex_cycle_file (f_seek 88)
               = Ok {| MainDirectory.magic2 := "MDbMDir";
                       MainDirectory.version := 100;
                       MainDirectory.num_entries := 0;
                       MainDirectory.current := 0; MainDirectory.prev := 88 |})
    by (vm_compute; reflexivity).
  split; [exact Hd|]. split; [exact Hc|].
  apply (directory_cycle_never_ends ex_date_of ex_gamma ex_contour_value ex_allocates 1000
           E2E.init ex_cycle_file _ _ [88] Hh Hd).
  - apply elem_of_cons. by left.
  - intros position Hin. apply elem_of_cons in Hin as [->|Hin];
      [|by apply elem_of_nil in Hin].
    split; [done|]. eexists. split; [exact Hc|]. apply elem_of_cons. by left.
Defined.

Lemma empty_directory_chain_witness :
  directory_at ex_empty_file 36
  = Ok {| MainDirectory.magic2 := "MDbMDir"; MainDirectory.version := 100;
          MainDirectory.num_entries := 0; MainDirectory.current := 0;
          MainDirectory.prev := 0 |}
  /\ read_oct_volume ex_date_of ex_gamma ex_contour_value ex_allocates 8 E2E.init
       ex_empty_file
     = Ok (E2E.init, [])
  /\ read_fundus_image (date:=Z) ex_allocates 8 E2E.init ex_empty_file = Ok (E2E.init, []).
Proof.
  assert (Hh : parse header_structure (f_read ex_empty_file 0 36).1
               = Ok {| Header.magic1 := "CMDb"; Header.version := 100 |})
    by (vm_compute; reflexivity).
  assert (Hd : directory_at ex_empty_file 36
               = Ok {| MainDirectory.magic2 := "MDbMDir";
                       MainDirectory.version := 100;
                       MainDirectory.num_entries := 0;
                       MainDirectory.current := 0; MainDirectory.prev := 0 |})
    by (vm_compute; reflexivity).
  split; [exact Hd|].
  exact (empty_directory_chain ex_date_of ex_gamma ex_contour_value ex_allocates 8 E2E.init
           ex_empty_file _ _ Hh Hd eq_refl).
Defined.

Lemma truncated_chunk_header_witness :
  (length ex_volume_file < Z.to_nat 700 + 60)%nat
  /\ exists e,
       ex_oct_chunk_loop ex_volume_file (ex_init []) [(700, 84)] = Raise e
       /\ fundus_chunk_loop ex_allocates ex_volume_file ex_fundus_init [(700, 84)] = Raise e.
Proof.
  assert (Hlen : (length ex_volume_file < Z.to_nat 700 + 60)%nat)
    by (vm_compute; lia).
  split; [exact Hlen|].
  exact (truncated_chunk_header ex_date_of ex_gamma ex_contour_value ex_allocates ex_LUT
           ex_volume_file (ex_init []) ex_fundus_init 700 84 [] Hlen).
Defined.

Lemma truncated_payload_witness :
  chunk_at ex_short_patient_file 316 = Ok (ex_chunk 127 (mk_ids 1 2 3 0) 0 9)
  /\ payload_available ex_short_patient_file 316 = 24%nat
  /\ oct_chunk ex_date_of ex_gamma ex_contour_value ex_allocates ex_LUT
       ex_short_patient_file (ex_init []) (316, 187)
     = Ok (Continue (ex_init []))
  /\ fundus_chunk ex_allocates ex_short_patient_file ex_fundus_init (316, 187)
     = Ok (Continue ex_fundus_init).
Proof.
  assert (Hc : chunk_at ex_short_patient_file 316
               = Ok (ex_chunk 127 (mk_ids 1 2 3 0) 0 9))
    by (vm_compute; reflexivity).
  assert (Ha : payload_available ex_short_patient_file 316 = 24%nat)
    by (vm_compute; reflexivity).
  split; [exact Hc|]. split; [exact Ha|].
  destruct (truncated_payload ex_date_of ex_gamma ex_contour_value ex_allocates ex_LUT
              ex_short_patient_file (ex_init []) ex_fundus_init 316 187 _ Hc)
    as [Hpatient _].
  apply Hpatient; [reflexivity | rewrite Ha; lia].
Defined.


(** ** What the chunk loops keep *)

(** An invariant of the body is an invariant of a loop with [break]. *)
Lemma for_loop_invariant {X S} (P : S -> Prop)
    (body : S -> X -> result (flow S)) xs :
  (forall s x fl, P s -> body s x = Ok fl -> P (flow_state fl)) ->
  forall s s', P s -> for_loop body s xs = Ok s' -> P s'.
Proof.
  intros Hbody. induction xs as [|x xs IH]; intros s s' Hs Hrun.
  - cbn in Hrun. by injection Hrun as <-.
  - cbn in Hrun. destruct (body s x) as [[s1|s1]|e] eqn:E; [| |done].
    + apply (IH s1); [|done]. apply (Hbody _ _ _ Hs E).
    + injection Hrun as <-. apply (Hbody _ _ _ Hs E).
Qed.

Lemma laterality_chunk_values current raw :
  current ∈ [None; Some "R"; Some "L"]%string ->
  laterality_chunk current raw ∈ [None; Some "R"; Some "L"]%string.
Proof.
  intros Hc. unfold laterality_chunk.
  destruct (parse lat_structure raw) as [d|e]; [|by apply elem_of_cons; left].
  repeat case_decide; [| |done]; rewrite !elem_of_cons; auto.
Qed.

Lemma truthy_values (laterality : option string) :
  laterality ∈ [None; Some "R"; Some "L"]%string ->
  truthy laterality = true ->
  laterality ∈ [Some "R"; Some "L"]%string.
Proof.
  rewrite !elem_of_cons. intros [->|[->|[->|H]]] Ht; [done|auto..|].
  by apply elem_of_nil in H.
Qed.

Lemma fold_init_step_NoDup vd : forall acc,
  NoDup (dict_keys acc) -> NoDup (dict_keys (fold_left init_step vd acc)).
Proof.
  induction vd as [|[k n] vd IH]; intros acc Hacc; cbn [fold_left]; [done|].
  apply IH. unfold init_step. destruct (Qgtb n 0); [|done].
  by apply dict_set_NoDup.
Qed.

Lemma elem_of_dict_set {K V} `{EqDecision K} (k k' : K) (v v' : V) d :
  (k', v') ∈ dict_set k v d -> (k', v') ∈ d \/ (k', v') = (k, v).
Proof.
  induction d as [|[k0 v0] d IH]; cbn.
  - rewrite list_elem_of_singleton. auto.
  - case_decide; rewrite !elem_of_cons.
    + intros [Heq|Hin]; auto.
    + intros [Heq|Hin]; [auto|]. apply IH in Hin as [Hin|Hin]; auto.
Qed.

Lemma setitem_Forall {A} (P : A -> Prop) (l l' : list A) i x :
  setitem l i x = Ok l' -> Forall P l -> P x -> Forall P l'.
Proof.
  unfold setitem. intros Hset Hl Hx.
  repeat case_decide; try done; injection Hset as <-; by apply Forall_insert.
Qed.

Lemma fold_init_step_slots vd : forall acc,
  slots_ok acc -> slots_ok (fold_left init_step vd acc).
Proof.
  induction vd as [|[k n] vd IH]; intros acc Hacc; cbn [fold_left]; [done|].
  apply IH. unfold init_step. destruct (Qgtb n 0); [|done].
  intros key volume Hin. apply elem_of_dict_set in Hin as [Hin|[= -> ->]].
  - by apply (Hacc key).
  - apply Forall_forall. intros slot Hslot.
    apply list_elem_of_In, repeat_spec in Hslot. by subst.
Qed.

Section ReaderResults.
Context {date sample : Type}.
Context (acquisition_date_of : Z -> result date).
Context (gamma : Q -> Q).
Context (contour_value : Z -> sample).
Context (allocates : Z -> bool).

Abbreviation oct_chunk :=
  (oct_chunk acquisition_date_of gamma contour_value allocates).
Abbreviation oct_chunk_loop :=
  (oct_chunk_loop acquisition_date_of gamma contour_value allocates).
Abbreviation oct_state := (@oct_state date sample).
Abbreviation fundus_state := (@fundus_state date).
Abbreviation fundus_chunk := (fundus_chunk allocates).
Abbreviation fundus_chunk_loop := (fundus_chunk_loop allocates).
Abbreviation read_fundus_image := (read_fundus_image allocates).

(** What storing an image changes. *)
Lemma store_image_cases (st st' : oct_state) vs slice_id image :
  store_image st vs slice_id image = Ok st' ->
  self st' = self st
  /\ laterality st' = laterality st
  /\ (laterality_dict st' = laterality_dict st
      \/ truthy (laterality st) = true
         /\ dict_get vs (laterality_dict st) = None
         /\ laterality_dict st'
            = dict_set vs (laterality st) (laterality_dict st))
  /\ ((exists volume volume',
         dict_get vs (volume_array_dict st) = Some volume
         /\ setitem volume (slice_index slice_id) (Slice image) = Ok volume'
         /\ volume_array_dict st' = dict_set vs volume' (volume_array_dict st)
         /\ volume_array_dict_additional st' = volume_array_dict_additional st)
      \/ (dict_get vs (volume_array_dict st) = None
          /\ volume_array_dict st' = volume_array_dict st
          /\ volume_array_dict_additional st'
             = dict_set vs
                 (dict_get_default [] vs (volume_array_dict_additional st)
                  ++ [Slice image])
                 (volume_array_dict_additional st))).
Proof.
  unfold store_image. intros Hrun.
  apply bind_Ok in Hrun as (st1 & H1 & [= <-]).
  assert (Hst1 :
    self st1 = self st /\ laterality st1 = laterality st
    /\ laterality_dict st1 = laterality_dict st
    /\ ((exists volume volume',
           dict_get vs (volume_array_dict st) = Some volume
           /\ setitem volume (slice_index slice_id) (Slice image) = Ok volume'
           /\ volume_array_dict st1 = dict_set vs volume' (volume_array_dict st)
           /\ volume_array_dict_additional st1
              = volume_array_dict_additional st)
        \/ (dict_get vs (volume_array_dict st) = None
            /\ volume_array_dict st1 = volume_array_dict st
            /\ volume_array_dict_additional st1
               = dict_set vs
                   (dict_get_default [] vs (volume_array_dict_additional st)
                    ++ [Slice image])
                   (volume_array_dict_additional st)))).
  { unfold dict_get_default.
    destruct (dict_get vs (volume_array_dict st)) as [volume|] eqn:Hv.
    - apply bind_Ok in H1 as (volume' & Hset & [= <-]). cbn.
      split; [done|]. split; [done|]. split; [done|]. left. by exists volume, volume'.
    - destruct (dict_get vs (volume_array_dict_additional st));
        injection H1 as <-; cbn; (split; [done|]); (split; [done|]);
        (split; [done|]); by right. }
  clear H1. destruct Hst1 as (Hs & Hl & Hld & Hvol).
  rewrite bind_laterality_volume_array_dict, bind_laterality_additional.
  unfold bind_laterality.
  destruct (truthy (laterality st1)
            && negb (dict_mem vs (laterality_dict st1))) eqn:Hb; cbn.
  - apply andb_true_iff in Hb as [Ht Hm]. rewrite Hl, Hld in *.
    split; [done|]. split; [done|]. split; [|done]. right.
    split; [done|]. split; [|done].
    unfold dict_mem in Hm. by destruct (dict_get vs (laterality_dict st)).
  - split; [done|]. split; [done|]. split; [by left | done].
Qed.

(** What one iteration of the loop of [read_oct_volume] can do. *)
Lemma oct_chunk_cases LUT data (st : oct_state) ref fl :
  oct_chunk LUT data st ref = Ok fl ->
  (exists raw, flow_state fl = set_self (patient_chunk (self st) raw) st)
  \/ (exists f self',
        bscan_chunk acquisition_date_of data f (self st) = Ok self'
        /\ flow_state fl = set_self self' st)
  \/ (exists raw,
        flow_state fl
        = set_laterality (laterality_chunk (laterality st) raw) st)
  \/ (exists contour_dict', flow_state fl = set_contour_dict contour_dict' st)
  \/ (exists vs slice_id image,
        image_ok image
        /\ store_image st vs slice_id image = Ok (flow_state fl))
  \/ flow_state fl = st.
Proof.
  destruct ref as [start size]. unfold oct_chunk.
  destruct (f_read data (f_seek start) 60) as [raw f].
  intros Hrun. apply bind_Ok in Hrun as (chunk & _ & Hrun).
  repeat case_decide.
  - destruct (f_read data f 127) as [raw' f']. injection Hrun as <-.
    left. by exists raw'.
  - apply bind_Ok in Hrun as (self' & Hb & [= <-]).
    right; left. by exists f, self'.
  - destruct (f_read data f 20) as [raw' f']. injection Hrun as <-.
    right; right; left. by exists raw'.
  - apply bind_Ok in Hrun as (cd & _ & [= <-]).
    right; right; right; left. by exists cd.
  - unfold oct_image_chunk in Hrun. destruct (f_read data f 20) as [raw' f'].
    apply bind_Ok in Hrun as (image_data & _ & Hrun).
    repeat case_decide; try (injection Hrun as <-; by do 5 right).
    apply bind_Ok in Hrun as (raw_volume & _ & Hrun).
    destruct (lut_index LUT _ ≫= _) as [image|e] eqn:Hre;
      [|injection Hrun as <-; by do 5 right].
    apply bind_Ok in Hrun as (st' & Hstore & [= <-]).
    do 4 right; left. eexists _, _, _. split; [|exact Hstore].
    apply bind_Ok in Hre as (looked_up & _ & Hre). unfold reshape in Hre.
    case_decide; [|done]. injection Hre as <-.
    unfold image_ok, apply_gamma. cbn. rewrite length_map. lia.
  - injection Hrun as <-. by do 5 right.
Qed.

Lemma patient_chunk_acquisition_date (self0 : E2E.t date) raw :
  E2E.acquisition_date (patient_chunk self0 raw) = E2E.acquisition_date self0.
Proof. unfold patient_chunk. by destruct (parse patient_id_structure raw). Qed.

Lemma bscan_chunk_acquisition_date data f (self0 self' : E2E.t date) d :
  bscan_chunk acquisition_date_of data f self0 = Ok self' ->
  E2E.acquisition_date self0 = Some d ->
  self' = self0.
Proof.
  unfold bscan_chunk. destruct (f_read data f 104) as [raw f'].
  intros Hrun Hd. apply bind_Ok in Hrun as (bscan & _ & Hrun).
  apply bind_Ok in Hrun as (acquisition_date & _ & Hrun).
  rewrite Hd in Hrun. by injection Hrun as <-.
Qed.

Lemma oct_chunk_first_kept LUT data (st : oct_state) ref fl :
  oct_chunk LUT data st ref = Ok fl ->
  (forall d,
     E2E.acquisition_date (self st) = Some d ->
     E2E.acquisition_date (self (flow_state fl)) = Some d)
  /\ (forall key v,
        dict_get key (laterality_dict st) = Some v ->
        dict_get key (laterality_dict (flow_state fl)) = Some v).
Proof.
  intros Hrun. apply oct_chunk_cases in Hrun
    as [[raw ->]|[(f & self' & Hb & ->)|[[raw ->]|[[cd ->]|
        [(vs & sid & image & Hok & Hstore)| ->]]]]]; cbn; try done.
  - split; [|done]. intros d. by rewrite patient_chunk_acquisition_date.
  - split; [|done]. intros d Hd.
    by rewrite (bscan_chunk_acquisition_date _ _ _ _ _ Hb Hd).
  - apply store_image_cases in Hstore as (Hs & _ & Hld & _).
    rewrite Hs. split; [done|]. intros key v Hg.
    destruct Hld as [->|(_ & Hnone & ->)]; [done|].
    rewrite dict_get_set_ne; [done|]. intros <-. congruence.
Qed.

(** X14. The first value wins for the acquisition date and for the
    laterality of a volume: once [self.acquisition_date] is set, and
    once a volume id is bound in [laterality_dict], no later chunk of
    the loop of [read_oct_volume] changes it. *)
Theorem first_values_are_kept LUT data (st st' : oct_state) chunk_stack :
  oct_chunk_loop LUT data st chunk_stack = Ok st' ->
  (forall d,
     E2E.acquisition_date (self st) = Some d ->
     E2E.acquisition_date (self st') = Some d)
  /\ (forall key v,
        dict_get key (laterality_dict st) = Some v ->
        dict_get key (laterality_dict st') = Some v).
Proof.
  unfold oct_chunk_loop. intros Hrun.
  refine (for_loop_invariant
            (fun s : oct_state =>
               (forall d,
                  E2E.acquisition_date (self st) = Some d ->
                  E2E.acquisition_date (self s) = Some d)
               /\ (forall key v,
                     dict_get key (laterality_dict st) = Some v ->
                     dict_get key (laterality_dict s) = Some v))
            _ _ _ st st' _ Hrun); [|done].
  intros s x fl [Hd Hl] Hbody.
  apply oct_chunk_first_kept in Hbody as [Hd' Hl']. split; eauto.
Qed.

Lemma oct_chunk_invariant LUT data (st : oct_state) ref fl :
  oct_loop_invariant st ->
  oct_chunk LUT data st ref = Ok fl ->
  oct_loop_invariant (flow_state fl).
Proof.
  unfold oct_loop_invariant. intros (Hlat & Hld & Hvad & Hadd & Hdisj) Hrun.
  apply oct_chunk_cases in Hrun
    as [[raw ->]|[(f & self' & Hb & ->)|[[raw ->]|[[cd ->]|
        [(vs & sid & image & Hok & Hstore)| ->]]]]]; cbn; try done.
  - split; [by apply laterality_chunk_values | done].
  - apply store_image_cases in Hstore as (_ & Hl & Hld' & Hvol).
    rewrite Hl. split; [done|]. split.
    + intros key v. destruct Hld' as [->|(Ht & _ & ->)]; [by apply Hld|].
      rewrite dict_get_set. case_decide; [|by apply Hld].
      intros [= <-]. by apply truthy_values.
    + destruct Hvol as [(volume & volume' & Hv & _ & -> & ->)|(Hv & -> & ->)].
      * apply dict_get_Some_key in Hv.
        rewrite (dict_keys_set_present _ _ _ Hv). done.
      * split; [done|]. split; [by apply dict_set_NoDup|].
        intros key Hin.
        destruct (decide (vs ∈ dict_keys (volume_array_dict_additional st)))
          as [Hp|Hp].
        -- rewrite (dict_keys_set_present _ _ _ Hp) in Hin. by apply Hdisj.
        -- rewrite (dict_keys_set_absent _ _ _ Hp) in Hin.
           apply elem_of_app in Hin as [Hin|Hin]; [by apply Hdisj|].
           apply list_elem_of_singleton in Hin as ->.
           by apply dict_get_None.
Qed.

(** The fields of the volumes the last loop appends. *)
Lemma make_oct_volumes_fields (st : oct_state) contour_data items :
  forall acc oct_volumes,
    for_each (append_volume st contour_data) acc items = Ok oct_volumes ->
    exists new,
      oct_volumes = acc ++ new
      /\ Forall (fun v =>
                   E2E.patient_id (self st)
                   = Attr (OCTVolumeWithMetaData.patient_id v)
                   /\ OCTVolumeWithMetaData.first_name v
                      = E2E.first_name (self st)
                   /\ OCTVolumeWithMetaData.surname v = E2E.surname (self st)
                   /\ OCTVolumeWithMetaData.sex v = E2E.sex (self st)
                   /\ OCTVolumeWithMetaData.acquisition_date v
                      = E2E.acquisition_date (self st)
                   /\ OCTVolumeWithMetaData.laterality v
                      = dict_get_none (OCTVolumeWithMetaData.volume_id v)
                          (laterality_dict st)
                   /\ OCTVolumeWithMetaData.contours v
                      = dict_get (OCTVolumeWithMetaData.volume_id v)
                          contour_data
                   /\ (OCTVolumeWithMetaData.volume_id v,
                       OCTVolumeWithMetaData.volume v) ∈ items)
           new
      /\ map OCTVolumeWithMetaData.volume_id new `sublist_of` dict_keys items.
Proof.
  induction items as [|[key volume] items IH]; intros acc vols Hrun.
  - cbn in Hrun. injection Hrun as <-. exists []. rewrite app_nil_r.
    split; [done|]. split; [constructor | apply sublist_nil_l].
  - apply for_each_Ok_cons in Hrun as (acc1 & H1 & Hrun).
    apply IH in Hrun as (new & -> & Hall & Hsub).
    assert (Hall' :
      Forall (fun v =>
                E2E.patient_id (self st)
                = Attr (OCTVolumeWithMetaData.patient_id v)
                /\ OCTVolumeWithMetaData.first_name v
                   = E2E.first_name (self st)
                /\ OCTVolumeWithMetaData.surname v = E2E.surname (self st)
                /\ OCTVolumeWithMetaData.sex v = E2E.sex (self st)
                /\ OCTVolumeWithMetaData.acquisition_date v
                   = E2E.acquisition_date (self st)
                /\ OCTVolumeWithMetaData.laterality v
                   = dict_get_none (OCTVolumeWithMetaData.volume_id v)
                       (laterality_dict st)
                /\ OCTVolumeWithMetaData.contours v
                   = dict_get (OCTVolumeWithMetaData.volume_id v)
                       contour_data
                /\ (OCTVolumeWithMetaData.volume_id v,
                    OCTVolumeWithMetaData.volume v) ∈ (key, volume) :: items)
        new).
    { eapply Forall_impl; [exact Hall|]. cbn.
      intros v (? & ? & ? & ? & ? & ? & ? & Hin).
      repeat (split; [done|]). apply elem_of_cons. by right. }
    unfold append_volume in H1. apply bind_Ok in H1 as (first & _ & H1).
    destruct (isinstance_int first).
    + injection H1 as <-. exists new. split; [done|]. split; [done|].
      cbn. by apply sublist_cons.
    + apply bind_Ok in H1 as (patient_id & Hp & [= <-]).
      eexists (_ :: new). rewrite <- app_assoc. split; [reflexivity|].
      split.
      * constructor; [|done]. cbn. unfold getattr in Hp.
        destruct (E2E.patient_id (self st)); [done|]. injection Hp as ->.
        repeat (split; [done|]). apply elem_of_cons. by left.
      * cbn. by apply sublist_skip.
Qed.

(** X15. Every volume [read_oct_volume] returns carries the patient
    id, names, sex and acquisition date the reader holds after the
    call, so the same for all of them; its laterality is absent, R or
    L; and no two returned volumes have the same volume id. *)
Theorem returned_volume_metadata fuel (self0 : E2E.t date) data self'
    oct_volumes :
  read_oct_volume acquisition_date_of gamma contour_value allocates fuel self0 data
  = Ok (self', oct_volumes) ->
  Forall (fun v =>
            E2E.patient_id self' = Attr (OCTVolumeWithMetaData.patient_id v)
            /\ OCTVolumeWithMetaData.first_name v = E2E.first_name self'
            /\ OCTVolumeWithMetaData.surname v = E2E.surname self'
            /\ OCTVolumeWithMetaData.sex v = E2E.sex self'
            /\ OCTVolumeWithMetaData.acquisition_date v
               = E2E.acquisition_date self'
            /\ OCTVolumeWithMetaData.laterality v
               ∈ [None; Some "R"; Some "L"]%string)
    oct_volumes
  /\ NoDup (map OCTVolumeWithMetaData.volume_id oct_volumes).
Proof.
  unfold read_oct_volume. intros Hrun.
  apply bind_Ok in Hrun as (LUT & _ & Hrun).
  destruct (f_read data 0 36) as [raw f].
  apply bind_Ok in Hrun as (header & _ & Hrun).
  destruct (f_read data f 52) as [raw' f'].
  apply bind_Ok in Hrun as (main_directory & _ & Hrun).
  apply bind_Ok in Hrun as (directory_stack & _ & Hrun).
  apply bind_Ok in Hrun as ([chunk_stack volume_dict] & _ & Hrun).
  apply bind_Ok in Hrun as (st & Hloop & Hrun).
  apply bind_Ok in Hrun as (contour_data & _ & Hrun).
  apply bind_Ok in Hrun as (vols & Hvols & [= <- <-]).
  assert (Hinv : oct_loop_invariant st).
  { revert Hloop. unfold oct_chunk_loop.
    apply for_loop_invariant; [apply oct_chunk_invariant|].
    split; [by apply elem_of_cons; left|]. split; [done|].
    split; [apply fold_init_step_NoDup, NoDup_nil_2|].
    split; [apply NoDup_nil_2|].
    intros key Hin. by apply elem_of_nil in Hin. }
  destruct Hinv as (Hlat & Hld & Hvad & Hadd & Hdisj).
  unfold make_oct_volumes in Hvols.
  apply make_oct_volumes_fields in Hvols as (new & -> & Hall & Hsub).
  cbn [app]. split.
  - eapply Forall_impl; [exact Hall|]. cbn.
    intros v (Hp & Hf & Hs & Hx & Ha & Hl & _ & _).
    split; [done|]. split; [done|]. split; [done|]. split; [done|].
    split; [done|]. rewrite Hl. unfold dict_get_none.
    destruct (dict_get _ (laterality_dict st)) as [l|] eqn:Hg;
      [|by apply elem_of_cons; left].
    apply Hld in Hg. apply elem_of_cons. by right.
  - eapply sublist_NoDup; [|exact Hsub].
    unfold dict_keys. rewrite map_app. apply NoDup_app.
    split; [done|]. split; [|done].
    intros key Hin Hin'. by apply (Hdisj key).
Qed.

(** The slots of the two volume dictionaries through one iteration. *)
Lemma oct_chunk_slots LUT data (st : oct_state) ref fl :
  slots_ok (volume_array_dict st)
  /\ slots_ok (volume_array_dict_additional st) ->
  oct_chunk LUT data st ref = Ok fl ->
  slots_ok (volume_array_dict (flow_state fl))
  /\ slots_ok (volume_array_dict_additional (flow_state fl)).
Proof.
  intros [Hvad Hadd] Hrun. apply oct_chunk_cases in Hrun
    as [[raw ->]|[(f & self' & Hb & ->)|[[raw ->]|[[cd ->]|
        [(vs & sid & image & Hok & Hstore)| ->]]]]]; cbn; try done.
  apply store_image_cases in Hstore as (_ & _ & _ & Hvol).
  destruct Hvol as [(volume & volume' & Hv & Hset & -> & ->)|(Hv & -> & ->)].
  - split; [|done]. intros key l Hin.
    apply elem_of_dict_set in Hin as [Hin|[= -> ->]]; [by apply (Hvad key)|].
    eapply setitem_Forall; [exact Hset| |done].
    apply (Hvad vs). by apply dict_get_Some_elem.
  - split; [done|]. intros key l Hin.
    apply elem_of_dict_set in Hin as [Hin|[= -> ->]]; [by apply (Hadd key)|].
    apply Forall_app. split; [|by apply Forall_singleton].
    unfold dict_get_default.
    destruct (dict_get vs (volume_array_dict_additional st)) as [images|] eqn:Hg;
      [|done].
    apply (Hadd vs). by apply dict_get_Some_elem.
Qed.

(** X17. Every slot of every volume [read_oct_volume] returns holds
    either the integer placeholder 0 or a decoded image, and a decoded
    image is a two-dimensional array with as many values as its width
    times its height, and at least one. *)
Theorem returned_volume_slot_values fuel (self0 : E2E.t date) data self'
    oct_volumes :
  read_oct_volume acquisition_date_of gamma contour_value allocates fuel self0 data
  = Ok (self', oct_volumes) ->
  Forall (fun v => Forall slot_ok (OCTVolumeWithMetaData.volume v)) oct_volumes.
Proof.
  unfold read_oct_volume. intros Hrun.
  apply bind_Ok in Hrun as (LUT & _ & Hrun).
  destruct (f_read data 0 36) as [raw f].
  apply bind_Ok in Hrun as (header & _ & Hrun).
  destruct (f_read data f 52) as [raw' f'].
  apply bind_Ok in Hrun as (main_directory & _ & Hrun).
  apply bind_Ok in Hrun as (directory_stack & _ & Hrun).
  apply bind_Ok in Hrun as ([chunk_stack volume_dict] & _ & Hrun).
  apply bind_Ok in Hrun as (st & Hloop & Hrun).
  apply bind_Ok in Hrun as (contour_data & _ & Hrun).
  apply bind_Ok in Hrun as (vols & Hvols & [= _ <-]).
  assert (Hinv : slots_ok (volume_array_dict st)
                 /\ slots_ok (volume_array_dict_additional st)).
  { revert Hloop. unfold oct_chunk_loop.
    apply (for_loop_invariant
             (fun s : oct_state =>
                slots_ok (volume_array_dict s)
                /\ slots_ok (volume_array_dict_additional s)));
      [intros s x fl; apply oct_chunk_slots|].
    split; [|intros key volume Hin; by apply elem_of_nil in Hin].
    apply fold_init_step_slots. intros key volume Hin.
    by apply elem_of_nil in Hin. }
  destruct Hinv as [Hvad Hadd].
  unfold make_oct_volumes in Hvols.
  apply make_oct_volumes_fields in Hvols as (new & -> & Hall & _).
  cbn [app]. eapply Forall_impl; [exact Hall|]. cbn.
  intros v (_ & _ & _ & _ & _ & _ & _ & Hin).
  apply elem_of_app in Hin as [Hin|Hin]; [by apply Hvad in Hin|].
  by apply Hadd in Hin.
Qed.

(** *** The fundus images *)

Lemma fundus_chunk_invariant data (fs : fundus_state) ref fl :
  fundus_loop_invariant fs ->
  fundus_chunk data fs ref = Ok fl ->
  fundus_loop_invariant (flow_state fl).
Proof.
  unfold fundus_loop_invariant. intros (Hlat & Hld & Hnd & Himg) Hrun.
  destruct ref as [start size].
  destruct (chunk_at data start) as [chunk|e] eqn:Hc.
  - rewrite (fundus_chunk_header _ _ _ _ _ _ Hc) in Hrun. cbv zeta in Hrun.
    repeat case_decide.
    + by injection Hrun as <-.
    + injection Hrun as <-. cbn.
      split; [by apply laterality_chunk_values | done].
    + unfold fundus_image_chunk in Hrun.
      destruct (f_read data (payload_pos data start) 20) as [raw f].
      apply bind_Ok in Hrun as (image_data & _ & Hrun).
      repeat case_decide; try by injection Hrun as <-.
      apply bind_Ok in Hrun as (raw_image & _ & Hrun).
      apply bind_Ok in Hrun as (image & Hre & [= <-]). cbn.
      split; [done|]. split; [|split; [by apply dict_set_NoDup|]].
      * intros key v. rewrite dict_get_set. case_decide; [|by apply Hld].
        by intros [= <-].
      * intros key im. rewrite dict_get_set. case_decide; [|by apply Himg].
        intros [= <-]. unfold reshape in Hre. case_decide; [|done].
        injection Hre as <-. unfold fundus_image_ok, image_ok. cbn.
        split; [split; [done | lia]|]. unfold frombuffer_uint8.
        apply Forall_forall. intros pixel Hin.
        apply list_elem_of_In, in_map_iff in Hin as (b & <- & _).
        pose proof (byte_value_lt b). lia.
    + by injection Hrun as <-.
  - exfalso. unfold fundus_chunk, chunk_at in *.
    destruct (f_read data (f_seek start) 60) as [raw f]. cbn [fst] in Hc.
    by rewrite Hc in Hrun.
Qed.

(** The fields of the images the last loop of [read_fundus_image]
    appends: one image for each key. *)
Lemma append_fundus_fields (st : fundus_state) items :
  forall acc fundus_images,
    for_each (append_fundus st) acc items = Ok fundus_images ->
    exists new,
      fundus_images = acc ++ new
      /\ map FundusImageWithMetaData.image_id new = dict_keys items
      /\ (Forall (fun item => fundus_image_ok item.2) items ->
          Forall (fun im =>
                    E2E.patient_id (fundus_self st)
                    = Attr (FundusImageWithMetaData.patient_id im)
                    /\ FundusImageWithMetaData.laterality im
                       = dict_get_none (FundusImageWithMetaData.image_id im)
                           (fundus_laterality_dict st)
                    /\ fundus_image_ok (FundusImageWithMetaData.image im))
            new).
Proof.
  induction items as [|[key image] items IH]; intros acc imgs Hrun.
  - cbn in Hrun. injection Hrun as <-. exists []. by rewrite app_nil_r.
  - apply for_each_Ok_cons in Hrun as (acc1 & H1 & Hrun).
    apply IH in Hrun as (new & -> & Hids & Hall).
    unfold append_fundus in H1.
    apply bind_Ok in H1 as (patient_id & Hp & [= <-]).
    eexists (_ :: new). rewrite <- app_assoc. split; [reflexivity|].
    split; [cbn; by rewrite Hids|].
    intros Hok. apply Forall_cons in Hok as [Hok1 Hok].
    constructor; [|by apply Hall]. cbn. unfold getattr in Hp.
    destruct (E2E.patient_id (fundus_self st)); [done|]. injection Hp as ->.
    split; [done|]. split; [|done].
    unfold dict_mem, dict_get_none.
    by destruct (dict_get key (fundus_laterality_dict st)).
Qed.

(** X16. Every image [read_fundus_image] returns carries the patient
    id the reader holds after the call; its laterality is absent, R or
    L; its pixels are 8-bit values, as many as its height times its
    width, and at least one.  No two returned images have the same
    image id. *)
Theorem returned_fundus_images fuel (self0 : E2E.t date) data self'
    fundus_images :
  read_fundus_image fuel self0 data = Ok (self', fundus_images) ->
  Forall (fun im =>
            E2E.patient_id self' = Attr (FundusImageWithMetaData.patient_id im)
            /\ FundusImageWithMetaData.laterality im
               ∈ [None; Some "R"; Some "L"]%string
            /\ fundus_image_ok (FundusImageWithMetaData.image im))
    fundus_images
  /\ NoDup (map FundusImageWithMetaData.image_id fundus_images).
Proof.
  unfold read_fundus_image. intros Hrun.
  destruct (f_read data 0 36) as [raw f].
  apply bind_Ok in Hrun as (header & _ & Hrun).
  destruct (f_read data f 52) as [raw' f'].
  apply bind_Ok in Hrun as (main_directory & _ & Hrun).
  apply bind_Ok in Hrun as (directory_stack & _ & Hrun).
  apply bind_Ok in Hrun as (scanned & _ & Hrun).
  apply bind_Ok in Hrun as (st & Hloop & Hrun).
  apply bind_Ok in Hrun as (imgs & Himgs & [= <- <-]).
  assert (Hinv : fundus_loop_invariant st).
  { revert Hloop. unfold fundus_chunk_loop.
    apply for_loop_invariant; [apply fundus_chunk_invariant|].
    split; [by apply elem_of_cons; left|]. split; [done|].
    split; [apply NoDup_nil_2 | done]. }
  destruct Hinv as (Hlat & Hld & Hnd & Himg).
  apply append_fundus_fields in Himgs as (new & -> & Hids & Hall).
  cbn [app]. split; [|by rewrite Hids].
  eapply Forall_impl; [apply Hall|].
  - apply Forall_forall. intros [key image] Hin. cbn.
    apply (Himg key). by apply dict_get_elem.
  - cbn. intros im (Hp & Hl & Hok). split; [done|]. split; [|done].
    rewrite Hl. unfold dict_get_none.
    destruct (dict_get _ (fundus_laterality_dict st)) as [l|] eqn:Hg;
      [by apply Hld in Hg | by apply elem_of_cons; left].
Qed.

End ReaderResults.

Lemma first_values_are_kept_witness :
  ex_oct_chunk_loop ex_laterality_file
    (set_laterality_dict [("1_2_3"%string, Some "L"%string)] (ex_init []))
    [(272, 80); (352, 80); (432, 84)]
  = Ok {| self := E2E.init; volume_array_dict := [];
          volume_array_dict_additional :=
            [("1_2_3"%string,
              [Slice {| shape := (2, 1);
                        values := [1024 # 9444732965739290427392;
                                   1536 # 9444732965739290427392]%Q |}])];
          laterality_dict := [("1_2_3"%string, Some "L"%string)];
          laterality := Some "R"%string; contour_dict := [] |}
  /\ dict_get "1_2_3"%string
       (laterality_dict
          (set_laterality_dict [("1_2_3"%string, Some "L"%string)]
             (ex_init [])))
     = Some (Some "L"%string)
  /\ (forall d,
        E2E.acquisition_date (E2E.init (date:=Z)) = Some d ->
        E2E.acquisition_date (E2E.init (date:=Z)) = Some d)
  /\ (forall key v,
        dict_get key [("1_2_3"%string, Some "L"%string)] = Some v ->
        dict_get key [("1_2_3"%string, Some "L"%string)] = Some v).
Proof.
  assert (Hrun :
    ex_oct_chunk_loop ex_laterality_file
      (set_laterality_dict [("1_2_3"%string, Some "L"%string)] (ex_init []))
      [(272, 80); (352, 80); (432, 84)]
    = Ok {| self := E2E.init; volume_array_dict := [];
            volume_array_dict_additional :=
              [("1_2_3"%string,
                [Slice {| shape := (2, 1);
                          values := [1024 # 9444732965739290427392;
                                     1536 # 9444732965739290427392]%Q |}])];
            laterality_dict := [("1_2_3"%string, Some "L"%string)];
            laterality := Some "R"%string; contour_dict := [] |})
    by (vm_compute; reflexivity).
  split; [exact Hrun|]. split; [reflexivity|].
  exact (first_values_are_kept ex_date_of ex_gamma ex_contour_value ex_allocates ex_LUT
           ex_laterality_file _ _ _ Hrun).
Defined.

Lemma returned_volume_metadata_witness :
  ex_read_oct_volume E2E.init ex_volume_file
  = Ok (ex_volume_self, ex_volume_volumes)
  /\ Forall (fun v : OCTVolumeWithMetaData.t Z Z =>
               E2E.patient_id ex_volume_self
               = Attr (OCTVolumeWithMetaData.patient_id v)
               /\ OCTVolumeWithMetaData.first_name v
                  = E2E.first_name ex_volume_self
               /\ OCTVolumeWithMetaData.surname v = E2E.surname ex_volume_self
               /\ OCTVolumeWithMetaData.sex v = E2E.sex ex_volume_self
               /\ OCTVolumeWithMetaData.acquisition_date v
                  = E2E.acquisition_date ex_volume_self
               /\ OCTVolumeWithMetaData.laterality v
                  ∈ [None; Some "R"; Some "L"]%string)
       ex_volume_volumes
  /\ NoDup (map OCTVolumeWithMetaData.volume_id ex_volume_volumes).
Proof.
  split; [exact ex_volume_read|].
  exact (returned_volume_metadata ex_date_of ex_gamma ex_contour_value ex_allocates 8
           E2E.init ex_volume_file ex_volume_self ex_volume_volumes
           ex_volume_read).
Defined.

Lemma returned_volume_slot_values_witness :
  ex_read_oct_volume E2E.init ex_volume_file
  = Ok (ex_volume_self, ex_volume_volumes)
  /\ Forall (fun v : OCTVolumeWithMetaData.t Z Z =>
               Forall slot_ok (OCTVolumeWithMetaData.volume v))
       ex_volume_volumes.
Proof.
  split; [exact ex_volume_read|].
  exact (returned_volume_slot_values ex_date_of ex_gamma ex_contour_value ex_allocates 8
           E2E.init ex_volume_file ex_volume_self ex_volume_volumes
           ex_volume_read).
Defined.

Lemma returned_fundus_images_witness :
  read_fundus_image ex_allocates 8 E2E.init ex_fundus_file
  = Ok (ex_volume_self,
        [{| FundusImageWithMetaData.image :=
              {| shape := (1, 2); values := [5; 6] |};
            FundusImageWithMetaData.patient_id := "P1";
            FundusImageWithMetaData.image_id := "1_2_3";
            FundusImageWithMetaData.laterality := Some "L"%string |}])
  /\ Forall (fun im =>
               E2E.patient_id ex_volume_self
               = Attr (FundusImageWithMetaData.patient_id im)
               /\ FundusImageWithMetaData.laterality im
                  ∈ [None; Some "R"; Some "L"]%string
               /\ fundus_image_ok (FundusImageWithMetaData.image im))
       [{| FundusImageWithMetaData.image :=
             {| shape := (1, 2); values := [5; 6] |};
           FundusImageWithMetaData.patient_id := "P1";
           FundusImageWithMetaData.image_id := "1_2_3";
           FundusImageWithMetaData.laterality := Some "L"%string |}]
  /\ NoDup (map FundusImageWithMetaData.image_id
              [{| FundusImageWithMetaData.image :=
                    {| shape := (1, 2); values := [5; 6] |};
                  FundusImageWithMetaData.patient_id := "P1";
                  FundusImageWithMetaData.image_id := "1_2_3";
                  FundusImageWithMetaData.laterality := Some "L"%string |}]).
Proof.
  assert (Hrun :
    read_fundus_image ex_allocates 8 E2E.init ex_fundus_file
    = Ok (ex_volume_self,
          [{| FundusImageWithMetaData.image :=
                {| shape := (1, 2); values := [5; 6] |};
              FundusImageWithMetaData.patient_id := "P1";
              FundusImageWithMetaData.image_id := "1_2_3";
              FundusImageWithMetaData.laterality := Some "L"%string |}]))
    by (vm_compute; reflexivity).
  split; [exact Hrun|].
  exact (returned_fundus_images ex_allocates 8 E2E.init ex_fundus_file _ _ Hrun).
Defined.

(** ** Slice indices within the declared range *)

Lemma py_int_floor x : (0 <= x)%Q -> py_int x = Qfloor x.
Proof.
  destruct x as [n d]. unfold Qle, py_int. cbn. intros Hn.
  apply Z.quot_div_nonneg; lia.
Qed.

Lemma py_int_half slice_id : 0 <= slice_id -> py_int (half slice_id) = slice_id / 2.
Proof.
  intros Hs. unfold py_int, half. cbn. change (Z.pos (1 * 2)) with 2.
  rewrite Z.quot_div_nonneg by lia. by rewrite Z.mul_1_r.
Qed.

Lemma half_nonneg slice_id : 0 <= slice_id -> (0 <= half slice_id)%Q.
Proof. unfold half, Qle. cbn. lia. Qed.

(** An index no greater than the declared maximum is below the length
    of the initialised list. *)
Lemma py_int_succ_bound x n :
  (0 <= x)%Q -> (x <= n)%Q -> py_int x + 1 <= py_int (n + 1).
Proof.
  intros Hx Hn.
  assert (0 <= n + 1)%Q.
  { apply Qle_trans with n; [by apply Qle_trans with x|].
    rewrite <- (Qplus_0_r n) at 1. by apply Qplus_le_r. }
  rewrite !py_int_floor by done.
  rewrite <- (Qfloor_Z (Qfloor x + 1)). apply Qfloor_resp_le.
  rewrite inject_Z_plus. apply Qplus_le_l.
  apply Qle_trans with x; [apply Qfloor_le | done].
Qed.

Lemma setitem_valid {A} (l : list A) i x :
  valid_index (length l) i ->
  setitem l i x = Ok (<[norm_index (length l) i := x]> l).
Proof.
  unfold setitem, valid_index, norm_index. cbv zeta. intros Hi.
  repeat case_decide; try lia; do 2 f_equal; lia.
Qed.

Section SliceIndices.
Context {date sample : Type}.
Context (acquisition_date_of : Z -> result date).
Context (gamma : Q -> Q).
Context (contour_value : Z -> sample).
Context (allocates : Z -> bool).

Abbreviation oct_state := (@oct_state date sample).
Abbreviation oct_reachable :=
  (oct_reachable acquisition_date_of gamma contour_value allocates).

(** In every state of the loop, the lists of [volume_array_dict] have
    the lengths they were initialised with. *)
Lemma oct_reachable_lengths LUT data self0 vd (st : oct_state) :
  oct_reachable LUT data self0 vd st ->
  forall key volume,
    dict_get key (volume_array_dict st) = Some volume ->
    exists volume0,
      dict_get key (init_volume_array_dict vd) = Some volume0
      /\ length volume = length volume0.
Proof.
  assert (Hstep : forall (s s' : oct_state),
    same_shape (volume_array_dict s) (volume_array_dict s') ->
    (forall key volume,
       dict_get key (volume_array_dict s) = Some volume ->
       exists volume0,
         dict_get key (init_volume_array_dict vd) = Some volume0
         /\ length volume = length volume0) ->
    forall key volume,
      dict_get key (volume_array_dict s') = Some volume ->
      exists volume0,
        dict_get key (init_volume_array_dict vd) = Some volume0
        /\ length volume = length volume0).
  { intros s s' [->|(vs & volume & volume' & Hv & Hlen & ->)] IH key l; [by auto|].
    rewrite dict_get_set. case_decide; [|by auto].
    intros [= <-]. subst key. destruct (IH _ _ Hv) as (volume0 & H0 & Hl).
    exists volume0. split; [done | congruence]. }
  induction 1 as [|s ref s' _ IH Hrun|s ref s' _ IH Hrun].
  - intros key volume Hv. by exists volume.
  - apply (Hstep s s'); [|done].
    apply (oct_chunk_same_shape acquisition_date_of gamma contour_value allocates
             _ _ _ _ _ Hrun).
  - apply (Hstep s s'); [|done].
    apply (oct_chunk_same_shape acquisition_date_of gamma contour_value allocates
             _ _ _ _ _ Hrun).
Qed.

(** X18. A B-scan whose [slice_id] is not negative and whose
    [slice_id / 2] does not exceed the maximum the sub-directory
    entries declare for its volume is always stored: the assignment
    does not raise [IndexError].  It goes to slot [slice_id // 2 - 1]
    of the list of the volume, the last slot when that is -1. *)
Theorem store_within_declared_range LUT data self0 directory_stack chunk_stack
    volume_dict (st : oct_state) volume_string num_slices slice_id image :
  scan data directory_stack = Ok (chunk_stack, volume_dict) ->
  oct_reachable LUT data self0 volume_dict st ->
  dict_get volume_string volume_dict = Some num_slices ->
  (0 < num_slices)%Q ->
  0 <= slice_id ->
  (half slice_id <= num_slices)%Q ->
  exists volume st',
    dict_get volume_string (volume_array_dict st) = Some volume
    /\ length volume = Z.to_nat (py_int (num_slices + 1))
    /\ store_image st volume_string slice_id image = Ok st'
    /\ dict_get volume_string (volume_array_dict st')
       = Some (<[norm_index (length volume) (slice_id / 2 - 1) := Slice image]>
                 volume).
Proof.
  intros Hscan Hreach Hn Hpos Hs Hle.
  apply scan_volume_dict_NoDup in Hscan as Hnd.
  pose proof (init_volume_array_dict_get volume_string _ Hnd) as Hinit.
  rewrite Hn in Hinit. apply Qgtb_true in Hpos as Hgt. rewrite Hgt in Hinit.
  pose proof (oct_reachable_volume_array_dict acquisition_date_of gamma
                contour_value allocates _ _ _ _ _ Hreach) as [Hkeys _].
  destruct (proj2 (Hkeys volume_string)) as [volume Hv]; [by rewrite Hinit|].
  destruct (oct_reachable_lengths _ _ _ _ _ Hreach _ _ Hv)
    as (volume0 & H0 & Hlen).
  rewrite Hinit in H0. injection H0 as <-. rewrite repeat_length in Hlen.
  exists volume.
  pose proof (store_image_primary st volume_string slice_id image volume Hv)
    as Hstore.
  assert (Hvalid : valid_index (length volume) (slice_index slice_id)).
  { unfold valid_index, slice_index.
    pose proof (py_int_succ_bound _ _ (half_nonneg _ Hs) Hle) as Hb.
    rewrite py_int_half in * by done.
    pose proof (Z.div_pos slice_id 2 Hs). rewrite Hlen. lia. }
  rewrite (setitem_valid _ _ _ Hvalid) in Hstore.
  destruct Hstore as (st' & Hst' & Hvad & _). exists st'.
  split; [done|]. split; [done|]. split; [done|].
  rewrite Hvad, dict_get_set_eq. unfold slice_index.
  by rewrite py_int_half.
Qed.

End SliceIndices.

Lemma store_within_declared_range_witness :
  scan ex_volume_file [88]
  = Ok ([(316, 187); (503, 80); (583, 84); (667, 84)], [("1_2_3"%string, 4 # 2)])
  /\ exists volume st',
       dict_get "1_2_3"%string
         (volume_array_dict (ex_init [("1_2_3"%string, 4 # 2)]))
       = Some volume
       /\ length volume = Z.to_nat (py_int ((4 # 2) + 1))
       /\ store_image (ex_init [("1_2_3"%string, 4 # 2)]) "1_2_3" 4 ex_image
          = Ok st'
       /\ dict_get "1_2_3"%string (volume_array_dict st')
          = Some (<[norm_index (length volume) (4 / 2 - 1) := Slice ex_image]>
                    volume).
Proof.
  assert (Hscan : scan ex_volume_file [88]
                  = Ok ([(316, 187); (503, 80); (583, 84); (667, 84)],
                        [("1_2_3"%string, 4 # 2)]))
    by (vm_compute; reflexivity).
  split; [exact Hscan|].
  apply (store_within_declared_range ex_date_of ex_gamma ex_contour_value ex_allocates
           ex_LUT ex_volume_file E2E.init [88] _ _ _ "1_2_3"%string (4 # 2) 4
           ex_image Hscan (reach_init _ _ _ _ _ _ _ _) eq_refl).
  - reflexivity.
  - lia.
  - vm_compute. discriminate.
Defined.

(** ** The decoder on raw bytes *)

(** X19. [read_custom_float] reads the first two bytes of its argument
    and nothing else: with fewer than two bytes it raises [IndexError];
    with two or more it returns what it returns on the first two, a
    value that is at least [2^-63] and below 2. *)
Theorem read_custom_float_input (bytes : list byte) :
  match bytes with
  | b0 :: b1 :: _ =>
      exists v,
        read_custom_float bytes = Ok v
        /\ read_custom_float [b0; b1] = Ok v
        /\ (1 <= v * inject_Z (2 ^ 63))%Q /\ (v < 2)%Q
  | _ => read_custom_float bytes = Raise IndexError
  end.
Proof.
  destruct bytes as [|b0 [|b1 rest]]; [done..|].
  assert (Hsame : read_custom_float (b0 :: b1 :: rest)
                  = read_custom_float [b0; b1]) by done.
  rewrite Hsame. unfold read_custom_float.
  cbn [getitem lookup list_lookup mbind result_bind].
  rewrite !byte_bits, <- map_app.
  rewrite decode_bits by (rewrite length_app, !lsb_bits_length; done).
  eexists. split; [done|]. split; [done|]. apply decimal_value_bounds.
  - pose proof (bits_value_bounds
                  (take 10 (lsb_bits 8 (byte_value b0)
                            ++ lsb_bits 8 (byte_value b1)))) as Hb.
    by rewrite length_take, length_app, !lsb_bits_length in Hb.
  - pose proof (bits_value_bounds
                  (rev (drop 10 (lsb_bits 8 (byte_value b0)
                                 ++ lsb_bits 8 (byte_value b1))))) as Hb.
    rewrite length_rev, length_drop, length_app, !lsb_bits_length in Hb.
    change (2 ^ Z.of_nat (8 + 8 - 10)) with 64 in Hb. lia.
Qed.

(** ** Truncated directories *)

Lemma scan_entries_short n data : forall f chunk_stack volume_dict,
  (f <= length data)%nat ->
  (length data < f + 44 * n)%nat ->
  scan_entries n data (f, chunk_stack, volume_dict) = Raise StreamError.
Proof.
  induction n as [|n IH]; intros f cs vd Hf Hlen; [lia|].
  cbn [scan_entries]. unfold scan_entry.
  pose proof (parse_int_layout 44 sub_directory_structure
                (f_read data f 44).1 int_layout_sub_directory_structure) as Hp.
  assert (Hraw : length (f_read data f 44).1 = (44 `min` (length data - f))%nat).
  { unfold f_read. cbn [fst]. by rewrite length_take, length_drop. }
  assert (Hpos : (f_read data f 44).2 = (f + length (f_read data f 44).1)%nat)
    by done.
  destruct (f_read data f 44) as [raw f']. cbn [fst snd] in *.
  case_decide.
  - destruct Hp as [chunk ->]. cbn [mbind result_bind].
    apply IH; lia.
  - by rewrite Hp.
Qed.

Lemma for_each_raises {X S} (body : S -> X -> result S) xs x :
  x ∈ xs ->
  (forall s, exists e, body s x = Raise e) ->
  forall s, exists e, for_each body s xs = Raise e.
Proof.
  intros Hin Hx. induction xs as [|y xs IH]; intros s.
  - by apply elem_of_nil in Hin.
  - cbn [for_each]. apply elem_of_cons in Hin as [<-|Hin].
    + destruct (Hx s) as [e ->]. by exists e.
    + destruct (body s y) as [s1|e]; [|by exists e].
      cbn [mbind result_bind]. by apply IH.
Qed.

(** X20. A directory that declares more sub-directory entries than the
    file holds after it ends both readers: the second pass raises
    [StreamError] at that directory, and so returns no chunk reference
    at all. *)
Theorem truncated_directory data directory_stack position directory_chunk :
  position ∈ directory_stack ->
  directory_at data (f_seek position) = Ok directory_chunk ->
  (length data
   < f_seek position + 52
     + 44 * Z.to_nat (MainDirectory.num_entries directory_chunk))%nat ->
  (forall s, scan_directory data s position = Raise StreamError)
  /\ exists e, scan data directory_stack = Raise e.
Proof.
  intros Hin Hd Hlen.
  assert (Hdir : forall s, scan_directory data s position = Raise StreamError).
  { intros [cs vd]. unfold scan_directory, directory_at in *.
    assert (Hraw : (52 <= length (f_read data (f_seek position) 52).1)%nat).
    { unfold parse in Hd.
      destruct (main_directory_structure _) as [[a s']|e] eqn:E; [|done].
      by apply consumes_main_directory_structure in E as [? _]. }
    assert (Hpos : (f_read data (f_seek position) 52).2
                   = (f_seek position + 52)%nat
                   /\ (f_seek position + 52 <= length data)%nat).
    { unfold f_read in *. cbn [fst snd] in *.
      rewrite length_take, length_drop in *. lia. }
    destruct (f_read data (f_seek position) 52) as [raw f].
    cbn [fst snd] in *. destruct Hpos as [-> Hle]. rewrite Hd.
    cbn [mbind result_bind]. rewrite scan_entries_short; [done|done|lia]. }
  split; [done|]. unfold scan.
  apply (for_each_raises _ _ position Hin).
  intros s. exists StreamError. apply Hdir.
Qed.

Lemma truncated_directory_witness :
  directory_at ex_short_directory_file (f_seek 88)
  = Ok {| MainDirectory.magic2 := "MDbMDir"; MainDirectory.version := 100;
          MainDirectory.num_entries := 4; MainDirectory.current := 0;
          MainDirectory.prev := 0 |}
  /\ (length ex_short_directory_file < f_seek 88 + 52 + 44 * Z.to_nat 4)%nat
  /\ (forall s, scan_directory ex_short_directory_file s 88 = Raise StreamError)
  /\ exists e, scan ex_short_directory_file [88] = Raise e.
Proof.
  assert (Hd : directory_at ex_short_directory_file (f_seek 88)
               = Ok {| MainDirectory.magic2 := "MDbMDir";
                       MainDirectory.version := 100;
                       MainDirectory.num_entries := 4;
                       MainDirectory.current := 0; MainDirectory.prev := 0 |})
    by (vm_compute; reflexivity).
  assert (Hlen : (length ex_short_directory_file
                  < f_seek 88 + 52 + 44 * Z.to_nat 4)%nat)
    by (vm_compute; lia).
  split; [exact Hd|]. split; [exact Hlen|].
  refine (truncated_directory ex_short_directory_file [88] 88 _ _ Hd Hlen).
  apply elem_of_cons. by left.
Defined.

(** ** Chunks that decode *)

Lemma list_ind_quads {A} (P : list A -> Prop) :
  (forall l, (length l < 4)%nat -> P l) ->
  (forall a b c d l, P l -> P (a :: b :: c :: d :: l)) ->
  forall l, P l.
Proof.
  intros Hshort Hquad l.
  induction l as [l IH] using (induction_ltof1 _ (@length A)).
  destruct l as [|a [|b [|c [|d l]]]]; try (apply Hshort; cbn; lia).
  apply Hquad, IH. unfold ltof. cbn. lia.
Qed.

(** [np.frombuffer(raw, dtype=np.float32)] gives one item for every four
    bytes, and raises when bytes are left over. *)
Lemma frombuffer_float32_spec raw :
  if decide (length raw mod 4 = 0)%nat
  then exists items,
         frombuffer_float32 raw = Ok items
         /\ length items = (length raw / 4)%nat
  else frombuffer_float32 raw = Raise ValueError.
Proof.
  induction raw as [raw Hlen|a b c d raw IH] using list_ind_quads.
  - destruct raw as [|a [|b [|c [|d raw]]]]; cbn in Hlen; try lia;
      cbn; try done. by exists [].
  - cbn [frombuffer_float32 length].
    replace (S (S (S (S (length raw))))) with (1 * 4 + length raw)%nat by lia.
    rewrite Nat.Div0.add_mod, Nat.Div0.mod_mul, Nat.add_0_l, Nat.Div0.mod_mod.
    rewrite Nat.div_add_l by lia.
    case_decide.
    + destruct IH as (items & -> & Hitems). cbn [mbind result_bind].
      eexists. split; [done|]. cbn. by rewrite Hitems.
    + by rewrite IH.
Qed.

(** The table looks up the decoded value of each 16-bit item. *)
Lemma lut_index_items (items : list Z) :
  Forall (fun v => 0 <= v < 65536) items ->
  lut_index (map ufloat16_of_bits (range 0 (Z.to_nat (2 ^ 16)))) items
  = Ok (map (fun pixel => ufloat16_of_bits (Z.to_N pixel)) items).
Proof.
  intros Hr. apply mapM_result_map. intros i Hi.
  rewrite Forall_forall in Hr. apply Hr in Hi.
  unfold getitem. rewrite map_lookup, range_lookup.
  - cbn. do 2 f_equal. lia.
  - pose proof lut_size. lia.
Qed.

(** A request that the rest of the file covers is served. *)
Lemma f_read_sized_present allocates data pos n :
  (Z.to_nat n <= length data - pos)%nat ->
  f_read_sized allocates data pos n = Ok (f_read data pos (Z.to_nat n)).
Proof.
  intros Hn. unfold f_read_sized, request_raises. by rewrite decide_True.
Qed.

Lemma f_read_sized_cases allocates data pos n :
  f_read_sized allocates data pos n = Ok (f_read data pos (Z.to_nat n))
  \/ exists e, f_read_sized allocates data pos n = Raise e.
Proof.
  unfold f_read_sized. destruct (request_raises _ _ _ _ _ _) as [e|]; eauto.
Qed.

Lemma np_fromfile_uint16_present allocates data pos count :
  (2 * Z.to_nat count <= length data - pos)%nat ->
  np_fromfile_uint16 allocates data pos count
  = Ok (fromfile_uint16 data pos count).
Proof.
  intros Hn. unfold np_fromfile_uint16, request_raises.
  by rewrite decide_True by lia.
Qed.

Section DecodedChunks.
Context {date sample : Type}.
Context (acquisition_date_of : Z -> result date).
Context (gamma : Q -> Q).
Context (contour_value : Z -> sample).
Context (allocates : Z -> bool).

Abbreviation oct_chunk :=
  (oct_chunk acquisition_date_of gamma contour_value allocates).
Abbreviation oct_state := (@oct_state date sample).
Abbreviation fundus_state := (@fundus_state date).
Abbreviation fundus_chunk := (fundus_chunk allocates).
Abbreviation fundus_chunk_loop := (fundus_chunk_loop allocates).
Abbreviation read_fundus_image := (read_fundus_image allocates).

(** X21. A contour chunk.  With a width of 0 it stores nothing.  With
    a positive width and the [4 * width] bytes of its samples in the
    file, it stores a contour of [width] samples under the volume id of
    the chunk, the name [contour<id>] and the slice index
    [int(slice_id / 2) - 1].  When fewer bytes are left and their
    number is not a multiple of 4, the contour is skipped and the loop
    goes on. *)
Theorem contour_chunk_stored LUT data (st : oct_state) start size chunk
    contour_data :
  chunk_at data start = Ok chunk ->
  Chunk.type chunk = 10019 ->
  parse contour_structure (f_read data (payload_pos data start) 16).1
  = Ok contour_data ->
  (Contour.width contour_data <= 0 ->
   oct_chunk LUT data st (start, size) = Ok (Continue st))
  /\ (0 < Contour.width contour_data ->
      (16 + 4 * Z.to_nat (Contour.width contour_data)
       <= payload_available data start)%nat ->
      exists contour by_name by_slice contour_dict',
        oct_chunk LUT data st (start, size)
        = Ok (Continue (set_contour_dict contour_dict' st))
        /\ length contour = Z.to_nat (Contour.width contour_data)
        /\ dict_get
             (volume_string_of (Chunk.patient_id chunk) (Chunk.study_id chunk)
                (Chunk.series_id chunk))
             contour_dict'
           = Some by_name
        /\ dict_get ("contour" +:+ pretty (Contour.id contour_data))%string
             by_name
           = Some by_slice
        /\ dict_get (slice_index (Chunk.slice_id chunk)) by_slice
           = Some contour)
  /\ (0 < Contour.width contour_data ->
      (payload_available data start
       < 16 + 4 * Z.to_nat (Contour.width contour_data))%nat ->
      ((payload_available data start - 16) mod 4 <> 0)%nat ->
      oct_chunk LUT data st (start, size) = Ok (Continue st)).
Proof.
  intros Hc Ht Hp.
  rewrite (oct_chunk_header acquisition_date_of gamma contour_value allocates
             LUT data st start size chunk Hc). cbv zeta.
  rewrite Ht. rewrite !decide_False by done. rewrite decide_True by done.
  unfold contour_chunk.
  assert (Hpos : (f_read data (payload_pos data start) 16).2
                 = (payload_pos data start + 16)%nat
                 /\ (16 <= payload_available data start)%nat).
  { assert (16 <= length (f_read data (payload_pos data start) 16).1)%nat.
    { unfold parse in Hp.
      destruct (contour_structure _) as [[a s']|e] eqn:E; [|done].
      by apply consumes_contour_structure in E as [? _]. }
    unfold f_read, payload_available in *. cbn [fst snd] in *.
    rewrite length_take, length_drop in *. lia. }
  destruct (f_read data (payload_pos data start) 16) as [raw f].
  cbn [fst snd] in *. destruct Hpos as [-> Havail]. rewrite Hp.
  cbn [mbind result_bind].
  assert (Hraw : forall n,
    length (f_read data (payload_pos data start + 16) n).1
    = (n `min` (payload_available data start - 16))%nat).
  { intros n. unfold f_read, payload_available. cbn [fst].
    rewrite length_take, length_drop. lia. }
  split; [|split].
  - intros Hw. rewrite decide_False by lia. by destruct st.
  - intros Hw Hlen. rewrite decide_True by lia.
    rewrite f_read_sized_present by (unfold payload_available in *; lia).
    cbn [mbind result_bind].
    pose proof (frombuffer_float32_spec
                  (f_read data (payload_pos data start + 16)
                     (Z.to_nat (Contour.width contour_data * 4))).1) as Hf.
    rewrite Hraw in Hf.
    replace (Z.to_nat (Contour.width contour_data * 4)
             `min` (payload_available data start - 16))%nat
      with (Z.to_nat (Contour.width contour_data) * 4)%nat in Hf by lia.
    rewrite Nat.Div0.mod_mul, Nat.div_mul in Hf by lia.
    rewrite decide_True in Hf by done. destruct Hf as (items & -> & Hitems).
    eexists (map contour_value items), _, _, _.
    split; [reflexivity|]. split; [by rewrite length_map|].
    split; [apply dict_get_set_eq|]. split; apply dict_get_set_eq.
  - intros Hw Hlen Hmod. rewrite decide_True by lia.
    destruct (f_read_sized_cases allocates data (payload_pos data start + 16)
                (Contour.width contour_data * 4)) as [->|[e ->]];
      [|by destruct st].
    cbn [mbind result_bind].
    pose proof (frombuffer_float32_spec
                  (f_read data (payload_pos data start + 16)
                     (Z.to_nat (Contour.width contour_data * 4))).1) as Hf.
    rewrite Hraw in Hf.
    replace (Z.to_nat (Contour.width contour_data * 4)
             `min` (payload_available data start - 16))%nat
      with (payload_available data start - 16)%nat in Hf by lia.
    rewrite decide_False in Hf by done. rewrite Hf. by destruct st.
Qed.

(** X22. A fundus image whose [height * width] bytes are in the file
    is stored under the id of its chunk with shape [(height, width)],
    replacing an image stored under that id before, and the id is bound
    to the current laterality, absent or not, replacing an earlier
    binding; the entries of the other ids are unchanged. *)
Theorem fundus_image_stored data (fs : fundus_state) start size chunk
    image_data :
  chunk_at data start = Ok chunk ->
  Chunk.type chunk = 1073741824 ->
  Chunk.ind chunk = 0 ->
  image_header_at data start = Ok image_data ->
  0 < Image.height image_data * Image.width image_data ->
  (20 + Z.to_nat (Image.height image_data * Image.width image_data)
   <= payload_available data start)%nat ->
  exists fs' pixels,
    fundus_chunk data fs (start, size) = Ok (Continue fs')
    /\ length pixels
       = Z.to_nat (Image.height image_data * Image.width image_data)
    /\ pixels
       = frombuffer_uint8
           (f_read data (payload_pos data start + 20)
              (Z.to_nat (Image.height image_data * Image.width image_data))).1
    /\ (forall key,
          dict_get key (image_array_dict fs')
          = if decide (volume_string_of (Chunk.patient_id chunk)
                         (Chunk.study_id chunk) (Chunk.series_id chunk) = key)
            then Some {| shape := (Image.height image_data,
                                   Image.width image_data);
                         values := pixels |}
            else dict_get key (image_array_dict fs))
    /\ (forall key,
          dict_get key (fundus_laterality_dict fs')
          = if decide (volume_string_of (Chunk.patient_id chunk)
                         (Chunk.study_id chunk) (Chunk.series_id chunk) = key)
            then Some (fundus_laterality fs)
            else dict_get key (fundus_laterality_dict fs))
    /\ fundus_self fs' = fundus_self fs
    /\ fundus_laterality fs' = fundus_laterality fs.
Proof.
  intros Hc Ht Hind Hi Hcount Hlen.
  destruct (image_header_position _ _ _ _ Hc Hi) as [Hpos Havail].
  rewrite (fundus_chunk_header allocates data fs start size chunk Hc). cbv zeta.
  rewrite Ht. rewrite !decide_False by done. rewrite decide_True by done.
  unfold fundus_image_chunk, image_header_at in *.
  destruct (f_read data (payload_pos data start) 20) as [raw f].
  cbn [fst snd] in *. subst f. rewrite Hi. cbn [mbind result_bind].
  rewrite decide_False by lia. rewrite Hind. rewrite decide_True by done.
  rewrite f_read_sized_present by (unfold payload_available in *; lia).
  cbn [mbind result_bind].
  assert (Hpixels :
    length (frombuffer_uint8
              (f_read data (payload_pos data start + 20)
                 (Z.to_nat (Image.height image_data * Image.width image_data))).1)
    = Z.to_nat (Image.height image_data * Image.width image_data)).
  { unfold frombuffer_uint8, f_read, payload_available in *. cbn [fst].
    rewrite length_map, length_take, length_drop. lia. }
  unfold reshape. rewrite decide_True by lia. cbn [mbind result_bind].
  eexists _, _. split; [reflexivity|]. split; [exact Hpixels|].
  split; [reflexivity|]. cbn.
  split; [intros key; apply dict_get_set|].
  split; [intros key; apply dict_get_set | done].
Qed.

(** X23. A B-scan whose [2 * count] bytes are in the file is decoded
    pixel by pixel: with the table of [_make_lut], the image handed to
    the store has shape [(width, height)] and holds, for each 16-bit
    pixel in file order, [256 * pow(x, 1 / 2.4)] of its value [x] in
    the bespoke float format. *)
Theorem oct_image_decoded LUT data (st : oct_state) start size chunk
    image_data :
  _make_lut = Ok LUT ->
  chunk_at data start = Ok chunk ->
  Chunk.type chunk = 1073741824 ->
  Chunk.ind chunk = 1 ->
  image_header_at data start = Ok image_data ->
  0 < Image.height image_data * Image.width image_data ->
  (20 + 2 * Z.to_nat (Image.height image_data * Image.width image_data)
   <= payload_available data start)%nat ->
  exists pixels,
    pixels
    = fromfile_uint16 data (payload_pos data start + 20)
        (Image.height image_data * Image.width image_data)
    /\ length pixels
       = Z.to_nat (Image.height image_data * Image.width image_data)
    /\ oct_chunk LUT data st (start, size)
       = (st' ← store_image st
                  (volume_string_of (Chunk.patient_id chunk)
                     (Chunk.study_id chunk) (Chunk.series_id chunk))
                  (Chunk.slice_id chunk)
                  {| shape := (Image.width image_data, Image.height image_data);
                     values :=
                       map (fun pixel => gamma (ufloat16_of_bits (Z.to_N pixel)))
                         pixels |};
          Ok (Continue st')).
Proof.
  rewrite make_lut_eq. intros Heq. apply Ok_inj in Heq. subst LUT.
  intros Hc Ht Hind Hi Hcount Hlen.
  destruct (image_header_position _ _ _ _ Hc Hi) as [Hpos Havail].
  eexists. split; [reflexivity|].
  assert (Hpixels :
    length (fromfile_uint16 data (payload_pos data start + 20)
              (Image.height image_data * Image.width image_data))
    = Z.to_nat (Image.height image_data * Image.width image_data)).
  { unfold fromfile_uint16, f_read, payload_available in *. cbn [fst].
    rewrite uint16_items_length, length_take, length_drop.
    replace ((2 * Z.to_nat (Image.height image_data * Image.width image_data))
             `min` (length data - (payload_pos data start + 20)))%nat
      with (Z.to_nat (Image.height image_data * Image.width image_data) * 2)%nat
      by lia.
    by rewrite Nat.div_mul. }
  split; [exact Hpixels|].
  rewrite (oct_chunk_header acquisition_date_of gamma contour_value allocates
             _ data st start size chunk Hc). cbv zeta.
  rewrite Ht. rewrite !decide_False by done. rewrite decide_True by done.
  unfold oct_image_chunk, image_header_at in *.
  destruct (f_read data (payload_pos data start) 20) as [raw f].
  cbn [fst snd] in *. subst f. rewrite Hi. cbn [mbind result_bind].
  rewrite Hind. rewrite decide_True by done. rewrite decide_False by lia.
  rewrite np_fromfile_uint16_present by (unfold payload_available in *; lia).
  cbn [mbind result_bind].
  rewrite lut_index_items by apply uint16_items_range.
  cbn [mbind result_bind]. unfold reshape.
  rewrite decide_True by (rewrite length_map, Hpixels; lia).
  unfold apply_gamma. cbn [shape values]. by rewrite map_map.
Qed.

End DecodedChunks.

Lemma contour_chunk_stored_witness :
  chunk_at ex_contour_file 184 = Ok (ex_chunk 28 (mk_ids 7 7 7 2) 0 10019)
  /\ parse contour_structure
       (f_read ex_contour_file (payload_pos ex_contour_file 184) 16).1
     = Ok {| Contour.id := 5; Contour.width := 3 |}
  /\ payload_available ex_contour_file 184 = 28%nat
  /\ exists (contour : list Z) by_name by_slice contour_dict',
       oct_chunk ex_date_of ex_gamma ex_contour_value ex_allocates ex_LUT ex_contour_file
         (ex_init []) (184, 88)
       = Ok (Continue (set_contour_dict contour_dict' (ex_init [])))
       /\ length contour = Z.to_nat 3
       /\ dict_get (volume_string_of 7 7 7) contour_dict' = Some by_name
       /\ dict_get ("contour" +:+ pretty 5)%string by_name = Some by_slice
       /\ dict_get (slice_index 2) by_slice = Some contour.
Proof.
  assert (Hc : chunk_at ex_contour_file 184
               = Ok (ex_chunk 28 (mk_ids 7 7 7 2) 0 10019))
    by (vm_compute; reflexivity).
  assert (Hp : parse contour_structure
                 (f_read ex_contour_file (payload_pos ex_contour_file 184) 16).1
               = Ok {| Contour.id := 5; Contour.width := 3 |})
    by (vm_compute; reflexivity).
  assert (Ha : payload_available ex_contour_file 184 = 28%nat)
    by (vm_compute; reflexivity).
  split; [exact Hc|]. split; [exact Hp|]. split; [exact Ha|].
  destruct (contour_chunk_stored ex_date_of ex_gamma ex_contour_value ex_allocates ex_LUT
              ex_contour_file (ex_init []) 184 88 _ _ Hc eq_refl Hp)
    as (_ & Hstored & _).
  apply Hstored; [reflexivity|]. rewrite Ha. cbn. lia.
Defined.

Lemma fundus_image_stored_witness :
  chunk_at ex_fundus_file 539 = Ok (ex_chunk 22 (mk_ids 1 2 3 0) 0 IMAGE)
  /\ image_header_at ex_fundus_file 539 = Ok (ex_image_header 2 1)
  /\ payload_available ex_fundus_file 539 = 22%nat
  /\ exists fs' pixels,
       fundus_chunk ex_allocates ex_fundus_file ex_fundus_init (539, 82) = Ok (Continue fs')
       /\ length pixels = Z.to_nat (1 * 2)
       /\ pixels
          = frombuffer_uint8
              (f_read ex_fundus_file (payload_pos ex_fundus_file 539 + 20)
                 (Z.to_nat (1 * 2))).1
       /\ (forall key,
             dict_get key (image_array_dict fs')
             = if decide (volume_string_of 1 2 3 = key)
               then Some {| shape := (1, 2); values := pixels |}
               else dict_get key (image_array_dict ex_fundus_init))
       /\ (forall key,
             dict_get key (fundus_laterality_dict fs')
             = if decide (volume_string_of 1 2 3 = key)
               then Some (fundus_laterality ex_fundus_init)
               else dict_get key (fundus_laterality_dict ex_fundus_init))
       /\ fundus_self fs' = fundus_self ex_fundus_init
       /\ fundus_laterality fs' = fundus_laterality ex_fundus_init.
Proof.
  assert (Hc : chunk_at ex_fundus_file 539
               = Ok (ex_chunk 22 (mk_ids 1 2 3 0) 0 IMAGE))
    by (vm_compute; reflexivity).
  assert (Hi : image_header_at ex_fundus_file 539 = Ok (ex_image_header 2 1))
    by (vm_compute; reflexivity).
  assert (Ha : payload_available ex_fundus_file 539 = 22%nat)
    by (vm_compute; reflexivity).
  split; [exact Hc|]. split; [exact Hi|]. split; [exact Ha|].
  apply (fundus_image_stored ex_allocates ex_fundus_file ex_fundus_init 539 82 _ _ Hc
           eq_refl eq_refl Hi); [reflexivity|].
  rewrite Ha. cbn. lia.
Defined.

Lemma oct_image_decoded_witness :
  chunk_at ex_volume_file 583 = Ok (ex_chunk 24 (mk_ids 1 2 3 2) 1 IMAGE)
  /\ image_header_at ex_volume_file 583 = Ok (ex_image_header 2 1)
  /\ payload_available ex_volume_file 583 = 108%nat
  /\ exists pixels,
       pixels
       = fromfile_uint16 ex_volume_file (payload_pos ex_volume_file 583 + 20)
           (1 * 2)
       /\ length pixels = Z.to_nat (1 * 2)
       /\ oct_chunk ex_date_of ex_gamma ex_contour_value ex_allocates
            (map ufloat16_of_bits (range 0 (Z.to_nat (2 ^ 16))))
            ex_volume_file (ex_init [("1_2_3"%string, 4 # 2)]) (583, 84)
          = (st' ← store_image (ex_init [("1_2_3"%string, 4 # 2)])
                     (volume_string_of 1 2 3) 2
                     {| shape := (2, 1);
                        values :=
                          map (fun pixel =>
                                 ex_gamma (ufloat16_of_bits (Z.to_N pixel)))
                            pixels |};
             Ok (Continue st')).
Proof.
  assert (Hc : chunk_at ex_volume_file 583
               = Ok (ex_chunk 24 (mk_ids 1 2 3 2) 1 IMAGE))
    by (vm_compute; reflexivity).
  assert (Hi : image_header_at ex_volume_file 583 = Ok (ex_image_header 2 1))
    by (vm_compute; reflexivity).
  assert (Ha : payload_available ex_volume_file 583 = 108%nat)
    by (vm_compute; reflexivity).
  split; [exact Hc|]. split; [exact Hi|]. split; [exact Ha|].
  apply (oct_image_decoded ex_date_of ex_gamma ex_contour_value ex_allocates _
           ex_volume_file (ex_init [("1_2_3"%string, 4 # 2)]) 583 84 _ _
           make_lut_eq Hc eq_refl eq_refl Hi); [reflexivity|].
  rewrite Ha. cbn. lia.
Defined.

(** ** The decoder loses no information *)

Lemma decimal_value_inj m e m' e' :
  0 <= m < 2 ^ 10 -> 0 <= m' < 2 ^ 10 -> 0 <= e <= 63 -> 0 <= e' <= 63 ->
  (decimal_value m e == decimal_value m' e')%Q ->
  m = m' /\ e = e'.
Proof.
  intros Hm Hm' He He' Heq.
  pose proof (decimal_value_dyadic m e He) as Hd.
  pose proof (decimal_value_dyadic m' e' He') as Hd'.
  assert (Hz : (2 ^ 10 + m) * 2 ^ (73 - e') = (2 ^ 10 + m') * 2 ^ (73 - e)).
  { apply inject_Z_injective. rewrite !inject_Z_mult, <- Hd, <- Hd', Heq.
    ring. }
  assert (Hcase : e = e' \/ e < e' \/ e' < e) by lia.
  destruct Hcase as [->|[Hlt|Hlt]].
  - split; [|done].
    pose proof (Z.pow_pos_nonneg 2 (73 - e')). nia.
  - exfalso. replace (73 - e) with ((73 - e') + (e' - e)) in Hz by lia.
    rewrite Z.pow_add_r in Hz by lia.
    pose proof (Z.pow_pos_nonneg 2 (73 - e')).
    assert (2 <= 2 ^ (e' - e)).
    { change 2 with (2 ^ 1) at 1. apply Z.pow_le_mono_r; lia. }
    nia.
  - exfalso. replace (73 - e') with ((73 - e) + (e - e')) in Hz by lia.
    rewrite Z.pow_add_r in Hz by lia.
    pose proof (Z.pow_pos_nonneg 2 (73 - e)).
    assert (2 <= 2 ^ (e - e')).
    { change 2 with (2 ^ 1) at 1. apply Z.pow_le_mono_r; lia. }
    nia.
Qed.

Lemma bits_value_inj bs : forall bs',
  length bs = length bs' -> bits_value bs = bits_value bs' -> bs = bs'.
Proof.
  induction bs as [|b bs IH] using rev_ind; intros bs' Hlen Hv.
  - by destruct bs'.
  - destruct (decide (bs' = [])) as [->|Hne].
    + rewrite length_app in Hlen. cbn in Hlen. lia.
    + destruct (nonempty_snoc bs' Hne) as (front & last & ->).
      rewrite !bits_value_snoc in Hv. rewrite !length_app in Hlen.
      cbn in Hlen.
      assert (bits_value bs = bits_value front /\ b = last) as [Hf ->]
        by (destruct b, last; split; try done; lia).
      f_equal. apply IH; [lia | done].
Qed.

(** X24. The decoder is injective on 16-bit values: two different
    values never decode to the same number, so the entries of the
    lookup table are pairwise distinct. *)
Theorem uint16_to_ufloat16_injective (u u' : N) (v v' : Q) :
  (u < 65536)%N -> (u' < 65536)%N ->
  uint16_to_ufloat16 u = Ok v ->
  uint16_to_ufloat16 u' = Ok v' ->
  (v == v')%Q ->
  u = u'.
Proof.
  intros Hu Hu'. rewrite !uint16_to_ufloat16_bits by done.
  rewrite !(take_lsb_bits 10 6), !(drop_lsb_bits 10 6),
    !bits_value_rev_lsb_bits.
  change (2 ^ N.of_nat 10)%N with 1024%N. change (2 ^ N.of_nat 6)%N with 64%N.
  rewrite !N.mod_small by (apply N.Div0.div_lt_upper_bound; lia).
  intros Hv Hv' Heq. apply Ok_inj in Hv, Hv'. subst v v'.
  assert (He : (u / 1024 < 64)%N) by (apply N.Div0.div_lt_upper_bound; lia).
  assert (He' : (u' / 1024 < 64)%N) by (apply N.Div0.div_lt_upper_bound; lia).
  assert (Hz : 0 <= Z.of_N (u / 1024) <= 63)
    by (clear -He; set (q := (u / 1024)%N) in *; clearbody q; lia).
  assert (Hz' : 0 <= Z.of_N (u' / 1024) <= 63)
    by (clear -He'; set (q := (u' / 1024)%N) in *; clearbody q; lia).
  apply decimal_value_inj in Heq as [Hm Hq]; [| | |done|done].
  - apply bits_value_inj in Hm; [|by rewrite !lsb_bits_length].
    apply (f_equal (fun bs => bits_value (rev bs))) in Hm.
    rewrite !bits_value_rev_lsb_bits in Hm.
    change (2 ^ N.of_nat 10)%N with 1024%N in Hm.
    apply N2Z.inj in Hq, Hm.
    rewrite (N.div_mod u 1024), (N.div_mod u' 1024) by done.
    by rewrite Hq, Hm.
  - pose proof (bits_value_bounds (lsb_bits 10 u)) as Hb.
    by rewrite lsb_bits_length in Hb.
  - pose proof (bits_value_bounds (lsb_bits 10 u')) as Hb.
    by rewrite lsb_bits_length in Hb.
Qed.

Lemma uint16_to_ufloat16_injective_witness :
  (0x1234 < 65536)%N
  /\ uint16_to_ufloat16 0x1234
     = Ok (decimal_value (bits_value (lsb_bits 10 0x1234))
             (Z.of_N (0x1234 / 1024)))
  /\ 0x1234%N = 0x1234%N.
Proof.
  assert (Hd : uint16_to_ufloat16 0x1234
               = Ok (decimal_value (bits_value (lsb_bits 10 0x1234))
                       (Z.of_N (0x1234 / 1024))))
    by (vm_compute; reflexivity).
  split; [reflexivity|]. split; [exact Hd|].
  exact (uint16_to_ufloat16_injective 0x1234 0x1234 _ _ eq_refl eq_refl Hd Hd
           (Qeq_refl _)).
Defined.
